(** * ICF builder: block footprint geometry and edge-to-edge snapping

    A shallow embedding of [utils/BlockSnapping], of the part of
    [data/icfCatalog] it reads and of [state/ProjectState], followed by the
    properties of the placement snapper and of the project state.

    Numbers.  A JavaScript [number] is an IEEE 754 double.  The geometry is
    embedded twice, from the same source lines.  In the first embedding a
    number is an exact rational [Q]: every catalog dimension and every half
    of one is a dyadic rational, and the statements made there (which
    branch is taken, which faces are listed, the scenarios on small
    integers) do not depend on rounding.  In the second, [BlockSnapping], a
    number is a binary64 [spec_float] and every operation is the correctly
    rounded one; the statements that depend on rounding (the threshold test
    on the computed distance, the grid rounding) are made there.

    Errors.  The block category is a string at run time.  The catalog is an
    object indexed by that string; a key it does not hold yields
    [undefined], and the call [spec.getWidth(..)] on [undefined] throws a
    [TypeError].  Functions that start with this lookup return an
    [outcome]. *)

From Stdlib Require Import QArith Qround Qpower ZArith String List Bool Lia Lqa SpecFloat.
Import ListNotations.
Open Scope string_scope.
Open Scope Q_scope.

(** ** Numeric helpers *)

Definition Qltb (a b : Q) : bool :=
  match a ?= b with Lt => true | _ => false end.

Module Math.

(** [Math.round]: the nearest integer, ties towards +infinity. *)
Definition round (a : Q) : Q := inject_Z (Qfloor (a + (1#2))).

(** [Math.pow(a, 2)]. *)
Definition pow2 (a : Q) : Q := a ^ 2.

End Math.

(** ** Thrown errors *)

Inductive JSError : Type := TypeError.

Inductive outcome (A : Type) : Type :=
| Returns (a : A)
| Throws (e : JSError).

Arguments Returns {A} a.
Arguments Throws {A} e.

Definition bind {A B : Type} (m : outcome A) (k : A -> outcome B) : outcome B :=
  match m with
  | Returns a => k a
  | Throws e => Throws e
  end.

Notation "x <- m ;; k" := (bind m (fun x => k))
  (at level 61, m at next level, right associativity).

(** ** types/project *)

Module THREE.

Record Vector3 : Type := mkVector3 { x : Q; y : Q; z : Q }.

End THREE.

Inductive ICFCoreThickness : Type := core4 | core6 | core8 | core10 | core12.

Definition coreInches (c : ICFCoreThickness) : Q :=
  match c with
  | core4 => 4 | core6 => 6 | core8 => 8 | core10 => 10 | core12 => 12
  end.

Module ICFBlock.

Record t : Type := mk {
  id : string;
  type : string;
  coreThickness : ICFCoreThickness;
  position : THREE.Vector3;
  rotation : Q
}.

End ICFBlock.

(** ** data/icfCatalog *)

Module ICFBlockSpec.

Record t : Type := mk {
  length : Q;
  longLeg : option Q;
  shortLeg : option Q;
  getWidth : ICFCoreThickness -> Q
}.

End ICFBlockSpec.

Definition getStandardWidth (c : ICFCoreThickness) : Q := 5.5 + coreInches c.

(** Property lookup [ICF_BLOCK_CATALOG[type]]; [None] is a key without an
    entry.  The lookup then yields [undefined] or, for a name such as
    [constructor], a property inherited from [Object.prototype]; neither
    has a [getWidth], so the call [spec.getWidth(..)] throws a [TypeError]
    in both cases. *)
Definition ICF_BLOCK_CATALOG (type : string) : option ICFBlockSpec.t :=
  if String.eqb type "standard" then
    Some (ICFBlockSpec.mk 48 None None getStandardWidth)
  else if String.eqb type "corner90" then
    Some (ICFBlockSpec.mk 38.5 (Some 38.5) (Some 22.5) getStandardWidth)
  else if String.eqb type "corner45" then
    Some (ICFBlockSpec.mk 32 (Some 32) (Some 32) getStandardWidth)
  else if String.eqb type "taperTop" then
    Some (ICFBlockSpec.mk 48 None None (fun c => getStandardWidth c + 4))
  else if String.eqb type "brickLedge" then
    Some (ICFBlockSpec.mk 48 None None (fun _ => 17.375))
  else if String.eqb type "heightAdjuster" then
    Some (ICFBlockSpec.mk 48 None None getStandardWidth)
  else None.

(** [v || d] on an optional number: [undefined] and [0] are falsy. *)
Definition orDefault (v : option Q) (d : Q) : Q :=
  match v with
  | Some a => if Qeq_bool a 0 then d else a
  | None => d
  end.

(** The test
    [type === 'standard' || type === 'taperTop' || type === 'brickLedge'
     || type === 'heightAdjuster']. *)
Definition isStraight (type : string) : bool :=
  String.eqb type "standard" || String.eqb type "taperTop" ||
  String.eqb type "brickLedge" || String.eqb type "heightAdjuster".

(** ** utils/BlockSnapping *)

Module BlockBounds.

Record t : Type := mk {
  minX : Q;
  maxX : Q;
  minZ : Q;
  maxZ : Q;
  rotation : Q
}.

End BlockBounds.

Inductive Orientation : Type := o_minX | o_maxX | o_minZ | o_maxZ.

Inductive SnapEdge : Type := left | right | front | back.

Module SnapResult.

Record t : Type := mk {
  position : THREE.Vector3;
  snappedToBlock : bool;
  snappedBlockId : option string;
  snapEdge : option SnapEdge
}.

End SnapResult.

Definition SNAP_THRESHOLD : Q := 150.

(** The last [return] of [getBlockBounds]. *)
Definition fallbackBounds (pos : THREE.Vector3) (rotation : Q) : BlockBounds.t :=
  BlockBounds.mk (THREE.x pos - 24) (THREE.x pos + 24)
                 (THREE.z pos - 7) (THREE.z pos + 7) rotation.

Definition getBlockBounds (block : ICFBlock.t) : outcome BlockBounds.t :=
  match ICF_BLOCK_CATALOG (ICFBlock.type block) with
  | None => Throws TypeError
  | Some spec =>
    let width := ICFBlockSpec.getWidth spec (ICFBlock.coreThickness block) in
    let pos := ICFBlock.position block in
    let rotation := ICFBlock.rotation block in
    let px := THREE.x pos in
    let pz := THREE.z pos in
    if isStraight (ICFBlock.type block) then
      let halfLength := ICFBlockSpec.length spec / 2 in
      let halfWidth := width / 2 in
      if Qeq_bool rotation 0 || Qeq_bool rotation 180 then
        Returns (BlockBounds.mk (px - halfLength) (px + halfLength)
                                (pz - halfWidth) (pz + halfWidth) rotation)
      else
        Returns (BlockBounds.mk (px - halfWidth) (px + halfWidth)
                                (pz - halfLength) (pz + halfLength) rotation)
    else if String.eqb (ICFBlock.type block) "corner90" then
      let longLeg := orDefault (ICFBlockSpec.longLeg spec) 38.5 in
      let shortLeg := orDefault (ICFBlockSpec.shortLeg spec) 22.5 in
      let halfWidth := width / 2 in
      if Qeq_bool rotation 0 then
        Returns (BlockBounds.mk (px - halfWidth) (px + shortLeg - halfWidth)
                                (pz - longLeg / 2) (pz + longLeg / 2) rotation)
      else if Qeq_bool rotation 90 then
        Returns (BlockBounds.mk (px - longLeg / 2) (px + longLeg / 2)
                                (pz - shortLeg + halfWidth) (pz + halfWidth) rotation)
      else if Qeq_bool rotation 180 then
        Returns (BlockBounds.mk (px - shortLeg + halfWidth) (px + halfWidth)
                                (pz - longLeg / 2) (pz + longLeg / 2) rotation)
      else if Qeq_bool rotation 270 then
        Returns (BlockBounds.mk (px - longLeg / 2) (px + longLeg / 2)
                                (pz - halfWidth) (pz + shortLeg - halfWidth) rotation)
      else
        Returns (BlockBounds.mk (px - halfWidth) (px + shortLeg - halfWidth)
                                (pz - longLeg / 2) (pz + longLeg / 2) rotation)
    else if String.eqb (ICFBlock.type block) "corner45" then
      let legLength := orDefault (ICFBlockSpec.longLeg spec) 32 in
      if Qeq_bool rotation 0 then
        Returns (BlockBounds.mk px (px + legLength) pz (pz + legLength) rotation)
      else if Qeq_bool rotation 90 then
        Returns (BlockBounds.mk px (px + legLength) (pz - legLength) pz rotation)
      else if Qeq_bool rotation 180 then
        Returns (BlockBounds.mk (px - legLength) px (pz - legLength) pz rotation)
      else if Qeq_bool rotation 270 then
        Returns (BlockBounds.mk (px - legLength) px pz (pz + legLength) rotation)
      else
        Returns (BlockBounds.mk px (px + legLength) pz (pz + legLength) rotation)
    else
      Returns (fallbackBounds pos rotation)
  end.

Module BlockFace.

Record t : Type := mk {
  centerX : Q;
  centerZ : Q;
  plane : Q;
  orientation : Orientation
}.

End BlockFace.

Module FaceOffset.

Record t : Type := mk {
  offsetX : Q;
  offsetZ : Q;
  planeOffset : Q;
  orientation : Orientation
}.

End FaceOffset.

Definition getBlockFaces (block : ICFBlock.t) : outcome (list BlockFace.t) :=
  match ICF_BLOCK_CATALOG (ICFBlock.type block) with
  | None => Throws TypeError
  | Some spec =>
    let width := ICFBlockSpec.getWidth spec (ICFBlock.coreThickness block) in
    let halfWidth := width / 2 in
    let pos := ICFBlock.position block in
    let rotation := ICFBlock.rotation block in
    let px := THREE.x pos in
    let pz := THREE.z pos in
    if isStraight (ICFBlock.type block) then
      let length := ICFBlockSpec.length spec in
      let halfLength := length / 2 in
      if Qeq_bool rotation 0 || Qeq_bool rotation 180 then
        Returns
          [ BlockFace.mk (px - halfLength) pz (px - halfLength) o_minX;
            BlockFace.mk (px + halfLength) pz (px + halfLength) o_maxX;
            BlockFace.mk px (pz - halfWidth) (pz - halfWidth) o_minZ;
            BlockFace.mk px (pz + halfWidth) (pz + halfWidth) o_maxZ ]
      else
        Returns
          [ BlockFace.mk (px - halfWidth) pz (px - halfWidth) o_minX;
            BlockFace.mk (px + halfWidth) pz (px + halfWidth) o_maxX;
            BlockFace.mk px (pz - halfLength) (pz - halfLength) o_minZ;
            BlockFace.mk px (pz + halfLength) (pz + halfLength) o_maxZ ]
    else if String.eqb (ICFBlock.type block) "corner90" then
      let longLeg := orDefault (ICFBlockSpec.longLeg spec) 38.5 in
      let shortLeg := orDefault (ICFBlockSpec.shortLeg spec) 22.5 in
      let halfLongLeg := longLeg / 2 in
      if Qeq_bool rotation 0 then
        Returns
          [ BlockFace.mk (px - halfWidth) pz (px - halfWidth) o_minX;
            BlockFace.mk (px + shortLeg - halfWidth) (pz - halfLongLeg + halfWidth)
                         (px + shortLeg - halfWidth) o_maxX;
            BlockFace.mk (px - halfWidth + shortLeg / 2) (pz - halfLongLeg)
                         (pz - halfLongLeg) o_minZ;
            BlockFace.mk px (pz + halfLongLeg) (pz + halfLongLeg) o_maxZ ]
      else if Qeq_bool rotation 90 then
        Returns
          [ BlockFace.mk (px - halfLongLeg) (pz + halfWidth - shortLeg / 2)
                         (px - halfLongLeg) o_minX;
            BlockFace.mk (px + halfLongLeg) pz (px + halfLongLeg) o_maxX;
            BlockFace.mk (px - halfLongLeg + halfWidth) (pz - shortLeg + halfWidth)
                         (pz - shortLeg + halfWidth) o_minZ;
            BlockFace.mk px (pz + halfWidth) (pz + halfWidth) o_maxZ ]
      else if Qeq_bool rotation 180 then
        Returns
          [ BlockFace.mk (px - shortLeg + halfWidth) (pz + halfLongLeg - halfWidth)
                         (px - shortLeg + halfWidth) o_minX;
            BlockFace.mk (px + halfWidth) pz (px + halfWidth) o_maxX;
            BlockFace.mk px (pz - halfLongLeg) (pz - halfLongLeg) o_minZ;
            BlockFace.mk (px + halfWidth - shortLeg / 2) (pz + halfLongLeg)
                         (pz + halfLongLeg) o_maxZ ]
      else if Qeq_bool rotation 270 then
        Returns
          [ BlockFace.mk (px - halfLongLeg) pz (px - halfLongLeg) o_minX;
            BlockFace.mk (px + halfLongLeg) (pz - halfWidth + shortLeg / 2)
                         (px + halfLongLeg) o_maxX;
            BlockFace.mk px (pz - halfWidth) (pz - halfWidth) o_minZ;
            BlockFace.mk (px + halfLongLeg - halfWidth) (pz + shortLeg - halfWidth)
                         (pz + shortLeg - halfWidth) o_maxZ ]
      else
        Returns []
    else
      bounds <- getBlockBounds block ;;
      let bminX := BlockBounds.minX bounds in
      let bmaxX := BlockBounds.maxX bounds in
      let bminZ := BlockBounds.minZ bounds in
      let bmaxZ := BlockBounds.maxZ bounds in
      Returns
        [ BlockFace.mk bminX ((bminZ + bmaxZ) / 2) bminX o_minX;
          BlockFace.mk bmaxX ((bminZ + bmaxZ) / 2) bmaxX o_maxX;
          BlockFace.mk ((bminX + bmaxX) / 2) bminZ bminZ o_minZ;
          BlockFace.mk ((bminX + bmaxX) / 2) bmaxZ bmaxZ o_maxZ ]
  end.

Definition getBlockFaceOffsets (type : string) (core : ICFCoreThickness)
    (rotation : Q) : outcome (list FaceOffset.t) :=
  match ICF_BLOCK_CATALOG type with
  | None => Throws TypeError
  | Some spec =>
    let width := ICFBlockSpec.getWidth spec core in
    let halfWidth := width / 2 in
    if isStraight type then
      let halfLength := ICFBlockSpec.length spec / 2 in
      if Qeq_bool rotation 0 || Qeq_bool rotation 180 then
        Returns
          [ FaceOffset.mk (- halfLength) 0 (- halfLength) o_minX;
            FaceOffset.mk halfLength 0 halfLength o_maxX;
            FaceOffset.mk 0 (- halfWidth) (- halfWidth) o_minZ;
            FaceOffset.mk 0 halfWidth halfWidth o_maxZ ]
      else
        Returns
          [ FaceOffset.mk (- halfWidth) 0 (- halfWidth) o_minX;
            FaceOffset.mk halfWidth 0 halfWidth o_maxX;
            FaceOffset.mk 0 (- halfLength) (- halfLength) o_minZ;
            FaceOffset.mk 0 halfLength halfLength o_maxZ ]
    else if String.eqb type "corner90" then
      let longLeg := orDefault (ICFBlockSpec.longLeg spec) 38.5 in
      let shortLeg := orDefault (ICFBlockSpec.shortLeg spec) 22.5 in
      let halfLongLeg := longLeg / 2 in
      if Qeq_bool rotation 0 then
        Returns
          [ FaceOffset.mk (- halfWidth) 0 (- halfWidth) o_minX;
            FaceOffset.mk (shortLeg - halfWidth) (- halfLongLeg + halfWidth)
                          (shortLeg - halfWidth) o_maxX;
            FaceOffset.mk (- halfWidth + shortLeg / 2) (- halfLongLeg)
                          (- halfLongLeg) o_minZ;
            FaceOffset.mk 0 halfLongLeg halfLongLeg o_maxZ ]
      else if Qeq_bool rotation 90 then
        Returns
          [ FaceOffset.mk (- halfLongLeg) (halfWidth - shortLeg / 2)
                          (- halfLongLeg) o_minX;
            FaceOffset.mk halfLongLeg 0 halfLongLeg o_maxX;
            FaceOffset.mk (- halfLongLeg + halfWidth) (- shortLeg + halfWidth)
                          (- shortLeg + halfWidth) o_minZ;
            FaceOffset.mk 0 halfWidth halfWidth o_maxZ ]
      else if Qeq_bool rotation 180 then
        Returns
          [ FaceOffset.mk (- shortLeg + halfWidth) (halfLongLeg - halfWidth)
                          (- shortLeg + halfWidth) o_minX;
            FaceOffset.mk halfWidth 0 halfWidth o_maxX;
            FaceOffset.mk 0 (- halfLongLeg) (- halfLongLeg) o_minZ;
            FaceOffset.mk (halfWidth - shortLeg / 2) halfLongLeg halfLongLeg o_maxZ ]
      else if Qeq_bool rotation 270 then
        Returns
          [ FaceOffset.mk (- halfLongLeg) 0 (- halfLongLeg) o_minX;
            FaceOffset.mk halfLongLeg (- halfWidth + shortLeg / 2) halfLongLeg o_maxX;
            FaceOffset.mk 0 (- halfWidth) (- halfWidth) o_minZ;
            FaceOffset.mk (halfLongLeg - halfWidth) (shortLeg - halfWidth)
                          (shortLeg - halfWidth) o_maxZ ]
      else
        Returns []
    else
      Returns
        [ FaceOffset.mk (-24) 0 (-24) o_minX;
          FaceOffset.mk 24 0 24 o_maxX;
          FaceOffset.mk 0 (-7) (-7) o_minZ;
          FaceOffset.mk 0 7 7 o_maxZ ]
  end.

(** The four tests that set [validPair]. *)
Definition validPair (ex new : Orientation) : bool :=
  match ex, new with
  | o_maxX, o_minX => true
  | o_minX, o_maxX => true
  | o_maxZ, o_minZ => true
  | o_minZ, o_maxZ => true
  | _, _ => false
  end.

(** The chain that maps the new face's orientation to an edge name. *)
Definition edgeName (o : Orientation) : SnapEdge :=
  match o with
  | o_minX => left
  | o_maxX => right
  | o_minZ => back
  | o_maxZ => front
  end.

(** The variables the search loop of [snapBlockPosition] updates.

    In this exact embedding [dist] is kept as its radicand, a rational,
    and the two tests [dist < SNAP_THRESHOLD] and [dist < closestDistance]
    are made on the radicands; [closestDistanceSq] holds the square of
    [closestDistance], [None] is [Infinity].  The embedding on doubles
    below keeps [dist] as the code computes it. *)
Module SnapState.

Record t : Type := mk {
  bestSnapPosition : THREE.Vector3;
  closestDistanceSq : option Q;
  snappedToBlock : bool;
  snappedBlockId : option string;
  snapEdge : option SnapEdge
}.

End SnapState.

(** Where the new block's centre goes when [newFace] touches [exFace]:
    [(snapX, snapZ)]. *)
Definition solveFacePair (exFace : BlockFace.t) (newFace : FaceOffset.t) : Q * Q :=
  match BlockFace.orientation exFace with
  | o_minX | o_maxX =>
    (BlockFace.plane exFace - FaceOffset.planeOffset newFace,
     BlockFace.centerZ exFace - FaceOffset.offsetZ newFace)
  | o_minZ | o_maxZ =>
    (BlockFace.centerX exFace - FaceOffset.offsetX newFace,
     BlockFace.plane exFace - FaceOffset.planeOffset newFace)
  end.

(** The radicand of [dist]. *)
Definition distSq (rawPosition : THREE.Vector3) (s : Q * Q) : Q :=
  Math.pow2 (THREE.x rawPosition - fst s) + Math.pow2 (THREE.z rawPosition - snd s).

(** [dist < closestDistance]. *)
Definition closerThan (d2 : Q) (closest : option Q) : bool :=
  match closest with
  | None => true
  | Some c2 => Qltb d2 c2
  end.

(** Body of the innermost loop. *)
Definition facePairStep (rawPosition : THREE.Vector3) (existingBlock : ICFBlock.t)
    (exFace : BlockFace.t) (st : SnapState.t) (newFace : FaceOffset.t) : SnapState.t :=
  if negb (validPair (BlockFace.orientation exFace) (FaceOffset.orientation newFace))
  then st
  else
    let s := solveFacePair exFace newFace in
    let d2 := distSq rawPosition s in
    if Qltb d2 (Math.pow2 SNAP_THRESHOLD) && closerThan d2 (SnapState.closestDistanceSq st)
    then
      SnapState.mk (THREE.mkVector3 (fst s) (THREE.y rawPosition) (snd s))
                   (Some d2) true
                   (Some (ICFBlock.id existingBlock))
                   (Some (edgeName (FaceOffset.orientation newFace)))
    else st.

(** [for (const exFace of exFaces) for (const newFace of newFaceOffsets)]. *)
Definition blockFacesLoop (rawPosition : THREE.Vector3)
    (newFaceOffsets : list FaceOffset.t) (existingBlock : ICFBlock.t)
    (exFaces : list BlockFace.t) (st : SnapState.t) : SnapState.t :=
  fold_left
    (fun st exFace =>
       fold_left (facePairStep rawPosition existingBlock exFace) newFaceOffsets st)
    exFaces st.

(** [for (const existingBlock of existingBlocks)]. *)
Fixpoint existingBlocksLoop (rawPosition : THREE.Vector3)
    (newFaceOffsets : list FaceOffset.t) (existingBlocks : list ICFBlock.t)
    (st : SnapState.t) : outcome SnapState.t :=
  match existingBlocks with
  | [] => Returns st
  | existingBlock :: rest =>
    exFaces <- getBlockFaces existingBlock ;;
    existingBlocksLoop rawPosition newFaceOffsets rest
      (blockFacesLoop rawPosition newFaceOffsets existingBlock exFaces st)
  end.

(** Grid rounding of a position: [gridSize] for X and Z, 16 for Y. *)
Definition snapToGrid (position : THREE.Vector3) (gridSize : Q) : THREE.Vector3 :=
  THREE.mkVector3
    (Math.round (THREE.x position / gridSize) * gridSize)
    (Math.round (THREE.y position / 16) * 16)
    (Math.round (THREE.z position / gridSize) * gridSize).

(** [gridSize] defaults to 8 in the source; callers here pass it. *)
Definition snapBlockPosition (rawPosition : THREE.Vector3) (blockType : string)
    (coreThickness : ICFCoreThickness) (rotation : Q)
    (existingBlocks : list ICFBlock.t) (gridSize : Q) : outcome SnapResult.t :=
  newFaceOffsets <- getBlockFaceOffsets blockType coreThickness rotation ;;
  st <- existingBlocksLoop rawPosition newFaceOffsets existingBlocks
          (SnapState.mk rawPosition None false None None) ;;
  let bestSnapPosition :=
    if negb (SnapState.snappedToBlock st) then
      THREE.mkVector3
        (Math.round (THREE.x rawPosition / gridSize) * gridSize)
        (Math.round (THREE.y rawPosition / 16) * 16)
        (Math.round (THREE.z rawPosition / gridSize) * gridSize)
    else SnapState.bestSnapPosition st in
  Returns (SnapResult.mk bestSnapPosition
                         (SnapState.snappedToBlock st)
                         (SnapState.snappedBlockId st)
                         (SnapState.snapEdge st)).

(** ** Vocabulary of the statements *)

(** Componentwise equality of positions. *)
Definition vec_eq (a b : THREE.Vector3) : Prop :=
  THREE.x a == THREE.x b /\ THREE.y a == THREE.y b /\ THREE.z a == THREE.z b.

(** The rotations the application produces. *)
Definition validRotation (r : Q) : Prop :=
  r == 0 \/ r == 90 \/ r == 180 \/ r == 270.

(** The categories the catalog holds. *)
Definition catalogTypes : list string :=
  ["standard"; "corner90"; "corner45"; "taperTop"; "brickLedge"; "heightAdjuster"].


(** The grid fallback as a result. *)
Definition gridResult (rawPosition : THREE.Vector3) (gridSize : Q) : SnapResult.t :=
  SnapResult.mk (snapToGrid rawPosition gridSize) false None None.

(** A standard block with an 8 inch core (48 by 13.5) at the origin. *)
Definition originBlock (id : string) : ICFBlock.t :=
  ICFBlock.mk id "standard" core8 (THREE.mkVector3 0 0 0) 0.

(** A face offset placed at centre [P]. *)
Definition translate (P : THREE.Vector3) (o : FaceOffset.t) : BlockFace.t :=
  BlockFace.mk
    (THREE.x P + FaceOffset.offsetX o)
    (THREE.z P + FaceOffset.offsetZ o)
    (match FaceOffset.orientation o with
     | o_minX | o_maxX => THREE.x P + FaceOffset.planeOffset o
     | o_minZ | o_maxZ => THREE.z P + FaceOffset.planeOffset o
     end)
    (FaceOffset.orientation o).

Definition face_eq (f g : BlockFace.t) : Prop :=
  BlockFace.centerX f == BlockFace.centerX g /\
  BlockFace.centerZ f == BlockFace.centerZ g /\
  BlockFace.plane f == BlockFace.plane g /\
  BlockFace.orientation f = BlockFace.orientation g.

(** The round trip of face solving for a new block of category [type]:
    solve an existing +X face against the new block's -X offset, put the
    new block at the solution, and its -X face lies in the plane of the
    existing face. *)
Definition roundTripHolds (A : ICFBlock.t) (id type : string)
    (core : ICFCoreThickness) (rot y : Q) : Prop :=
  forall exFaces offsets exFace newFace,
    getBlockFaces A = Returns exFaces ->
    getBlockFaceOffsets type core rot = Returns offsets ->
    In exFace exFaces -> BlockFace.orientation exFace = o_maxX ->
    In newFace offsets -> FaceOffset.orientation newFace = o_minX ->
    let s := solveFacePair exFace newFace in
    let B := ICFBlock.mk id type core (THREE.mkVector3 (fst s) y (snd s)) rot in
    forall faces f,
      getBlockFaces B = Returns faces ->
      In f faces -> BlockFace.orientation f = o_minX ->
      BlockFace.plane f == BlockFace.plane exFace.

(** ** More of utils/BlockSnapping *)

(** [getBlockAnchorOffset]: both branches return the zero offset, after the
    same catalog lookup as the other functions. *)
Definition getBlockAnchorOffset (type : string) (core : ICFCoreThickness)
    (rotation : Q) : outcome (Q * Q) :=
  match ICF_BLOCK_CATALOG type with
  | None => Throws TypeError
  | Some spec =>
    let width := ICFBlockSpec.getWidth spec core in
    if isStraight type then Returns (0, 0) else Returns (0, 0)
  end.

(** ** state/ProjectState

    The project is kept, saved to the history and restored as a whole.  The
    methods modelled here read and write its [modified] stamp and its list
    of ICF blocks; everything else in it (version, name, creation stamp,
    settings, areas and the other element arrays) is carried along
    untouched, as the component [other].

    The clock and the identifier generator are read through arguments:
    [now] is the stamp [notifyChange] writes, [newId] the identifier
    [generateId] returns.  The change callbacks that [notifyChange] runs
    are observers of the state and are left out, as are the mesh map and
    the layer switches, which none of these methods reads.

    [JSON.parse(JSON.stringify(v))] copies a value and throws a
    [SyntaxError] on [undefined]: methods that restore from the history
    return an [option], [None] for that throw. *)

Module ProjectState.

Record ICFProject (Other : Type) : Type := mkProject {
  modified : string;
  icfBlocks : list ICFBlock.t;
  other : Other
}.

Arguments mkProject {Other} _ _ _.
Arguments modified {Other} _.
Arguments icfBlocks {Other} _.
Arguments other {Other} _.

Definition createEmptyProject {Other : Type} (now : string) (rest : Other)
    : ICFProject Other :=
  mkProject now [] rest.

Record t (Other : Type) : Type := mk {
  project : ICFProject Other;
  history : list (ICFProject Other);
  historyIndex : Z;
  currentBlockType : string;
  currentCoreThickness : ICFCoreThickness;
  currentRotation : Q;
  selectedElementId : option string
}.

Arguments mk {Other} _ _ _ _ _ _ _.
Arguments project {Other} _.
Arguments history {Other} _.
Arguments historyIndex {Other} _.
Arguments currentBlockType {Other} _.
Arguments currentCoreThickness {Other} _.
Arguments currentRotation {Other} _.
Arguments selectedElementId {Other} _.

Definition maxHistory : Z := 50.

(** [l.length]. *)
Definition len {A : Type} (l : list A) : Z := Z.of_nat (List.length l).

(** [l.slice(0, e)]; a negative [e] counts from the end. *)
Definition slice0 {A : Type} (l : list A) (e : Z) : list A :=
  if (e <? 0)%Z then firstn (Z.to_nat (Z.max (len l + e) 0)) l
  else firstn (Z.to_nat e) l.

(** [l[i]]; [None] is [undefined]. *)
Definition item {A : Type} (l : list A) (i : Z) : option A :=
  if (i <? 0)%Z then None else nth_error l (Z.to_nat i).

(** [l.findIndex(p)]. *)
Fixpoint findIndex {A : Type} (p : A -> bool) (l : list A) : Z :=
  match l with
  | [] => -1
  | a :: rest =>
    if p a then 0
    else let i := findIndex p rest in
         if (i <? 0)%Z then -1 else (i + 1)%Z
  end.

(** [l.splice(i, 1)] for an index [i] that is not negative. *)
Definition splice1 {A : Type} (l : list A) (i : Z) : list A :=
  (firstn (Z.to_nat i) l ++ skipn (S (Z.to_nat i)) l)%list.

(** The remainder [a % b] of JavaScript, for [b] other than 0: the
    quotient is truncated towards zero. *)
Definition jsRem (a b : Q) : Q :=
  let q := a / b in
  a - b * inject_Z (if Qle_bool 0 q then Qfloor q else Qceiling q).

Definition setProject {Other : Type} (s : t Other) (p : ICFProject Other) : t Other :=
  mk p (history s) (historyIndex s) (currentBlockType s)
     (currentCoreThickness s) (currentRotation s) (selectedElementId s).

Definition setBlocks {Other : Type} (s : t Other) (blocks : list ICFBlock.t) : t Other :=
  setProject s (mkProject (modified (project s)) blocks (other (project s))).

Definition notifyChange {Other : Type} (s : t Other) (now : string) : t Other :=
  setProject s (mkProject now (icfBlocks (project s)) (other (project s))).

Definition saveToHistory {Other : Type} (s : t Other) : t Other :=
  let history1 :=
    if (historyIndex s <? len (history s) - 1)%Z
    then slice0 (history s) (historyIndex s + 1)
    else history s in
  let history2 := (history1 ++ [project s])%list in
  let history3 :=
    if (len history2 >? maxHistory)%Z then tl history2 else history2 in
  mk (project s) history3 (len history3 - 1) (currentBlockType s)
     (currentCoreThickness s) (currentRotation s) (selectedElementId s).

(** The constructor, with the field initialisers. *)
Definition create {Other : Type} (now : string) (rest : Other) : t Other :=
  saveToHistory (mk (createEmptyProject now rest) [] (-1) "standard" core8 0 None).

Definition undo {Other : Type} (s : t Other) (now : string) : option (t Other * bool) :=
  if (historyIndex s >? 0)%Z then
    let i := (historyIndex s - 1)%Z in
    match item (history s) i with
    | None => None
    | Some p =>
      let s1 := mk p (history s) i (currentBlockType s)
                   (currentCoreThickness s) (currentRotation s)
                   (selectedElementId s) in
      Some (notifyChange s1 now, true)
    end
  else Some (s, false).

Definition redo {Other : Type} (s : t Other) (now : string) : option (t Other * bool) :=
  if (historyIndex s <? len (history s) - 1)%Z then
    let i := (historyIndex s + 1)%Z in
    match item (history s) i with
    | None => None
    | Some p =>
      let s1 := mk p (history s) i (currentBlockType s)
                   (currentCoreThickness s) (currentRotation s)
                   (selectedElementId s) in
      Some (notifyChange s1 now, true)
    end
  else Some (s, false).

Definition addICFBlock {Other : Type} (s : t Other) (position : THREE.Vector3)
    (newId now : string) : t Other * ICFBlock.t :=
  let block :=
    ICFBlock.mk newId (currentBlockType s) (currentCoreThickness s)
      (THREE.mkVector3 (THREE.x position) (THREE.y position) (THREE.z position))
      (currentRotation s) in
  let s1 := setBlocks s (icfBlocks (project s) ++ [block])%list in
  (notifyChange (saveToHistory s1) now, block).

Definition removeICFBlock {Other : Type} (s : t Other) (id now : string)
    : t Other * bool :=
  let index := findIndex (fun b => String.eqb (ICFBlock.id b) id)
                         (icfBlocks (project s)) in
  if (index >? -1)%Z then
    let s1 := setBlocks s (splice1 (icfBlocks (project s)) index) in
    (notifyChange (saveToHistory s1) now, true)
  else (s, false).

(** [Partial<ICFBlock>]: the properties an update carries. *)
Record ICFBlockUpdates : Type := mkUpdates {
  newBlockId : option string;
  newType : option string;
  newCoreThickness : option ICFCoreThickness;
  newPosition : option THREE.Vector3;
  newRotation : option Q
}.

Definition orKeep {A : Type} (v : option A) (old : A) : A :=
  match v with Some a => a | None => old end.

(** [Object.assign(block, updates)]. *)
Definition assign (block : ICFBlock.t) (updates : ICFBlockUpdates) : ICFBlock.t :=
  ICFBlock.mk (orKeep (newBlockId updates) (ICFBlock.id block))
              (orKeep (newType updates) (ICFBlock.type block))
              (orKeep (newCoreThickness updates) (ICFBlock.coreThickness block))
              (orKeep (newPosition updates) (ICFBlock.position block))
              (orKeep (newRotation updates) (ICFBlock.rotation block)).

(** [find] the first block with the identifier and assign to it in place;
    [None] when there is none. *)
Fixpoint assignFirst (id : string) (updates : ICFBlockUpdates)
    (blocks : list ICFBlock.t) : option (list ICFBlock.t) :=
  match blocks with
  | [] => None
  | b :: rest =>
    if String.eqb (ICFBlock.id b) id then Some (assign b updates :: rest)
    else option_map (cons b) (assignFirst id updates rest)
  end.

Definition updateICFBlock {Other : Type} (s : t Other) (id : string)
    (updates : ICFBlockUpdates) (now : string) : t Other * bool :=
  match assignFirst id updates (icfBlocks (project s)) with
  | Some blocks => (notifyChange (saveToHistory (setBlocks s blocks)) now, true)
  | None => (s, false)
  end.

(** [if (this.selectedElementId)]: [null] and the empty string are falsy. *)
Definition truthyId (id : option string) : option string :=
  match id with
  | Some EmptyString => None
  | other => other
  end.

Definition rotateSelection {Other : Type} (s : t Other) (nowUpdate now : string)
    : t Other :=
  let rotation := jsRem (currentRotation s + 90) 360 in
  let s1 := mk (project s) (history s) (historyIndex s) (currentBlockType s)
               (currentCoreThickness s) rotation (selectedElementId s) in
  let s2 :=
    match truthyId (selectedElementId s1) with
    | Some id =>
      fst (updateICFBlock s1 id (mkUpdates None None None None (Some rotation))
                          nowUpdate)
    | None => s1
    end in
  notifyChange s2 now.

Definition getICFBlocks {Other : Type} (s : t Other) : list ICFBlock.t :=
  icfBlocks (project s).

Definition newProject {Other : Type} (s : t Other) (stamp now : string) (rest : Other)
    : t Other :=
  let s1 := mk (createEmptyProject stamp rest) [] (-1) (currentBlockType s)
               (currentCoreThickness s) (currentRotation s) (selectedElementId s) in
  let s2 := saveToHistory s1 in
  let s3 := mk (project s2) (history s2) (historyIndex s2) (currentBlockType s2)
               (currentCoreThickness s2) (currentRotation s2) None in
  notifyChange s3 now.

Definition setOther {Other : Type} (s : t Other) (rest : Other) : t Other :=
  setProject s (mkProject (modified (project s)) (icfBlocks (project s)) rest).

(** [addEquipment], [addCabinet] and [addWindow]: an element is pushed on
    one of the other arrays of the project; [push] is that change. *)
Definition addOther {Other : Type} (s : t Other) (push : Other -> Other)
    (now : string) : t Other :=
  notifyChange (saveToHistory (setOther s (push (other (project s))))) now.

(** [deleteElement]: the ICF blocks are searched first, then the other
    arrays in turn; [removed] is the search through the other arrays,
    [Some] of what is left when one of them holds the identifier. *)
Definition deleteElement {Other : Type} (s : t Other) (id : string)
    (removed : Other -> option Other) (now : string) : t Other * bool :=
  let index := findIndex (fun b => String.eqb (ICFBlock.id b) id)
                         (icfBlocks (project s)) in
  if (index >? -1)%Z then
    let s1 := setBlocks s (splice1 (icfBlocks (project s)) index) in
    (notifyChange (saveToHistory s1) now, true)
  else
    match removed (other (project s)) with
    | Some rest => (notifyChange (saveToHistory (setOther s rest)) now, true)
    | None => (s, false)
    end.

(** [importJSON].  [parsed] is what [JSON.parse(json)] and the test on
    [version] and [elements] leave: [None] when either throws, else the
    document, which becomes the project as it is, without a look at its
    blocks.  The documents covered are those that have the shape of a
    project; their blocks can be of any category and rotation.  [None] as a
    result is the [Error] the method throws. *)
Definition importJSON {Other : Type} (s : t Other)
    (parsed : option (ICFProject Other)) (now : string) : option (t Other) :=
  match parsed with
  | None => None
  | Some p => Some (notifyChange (saveToHistory (setProject s p)) now)
  end.

(** [loadFromLocalStorage]; [saved] is [None] when the storage holds
    nothing under the key. *)
Definition loadFromLocalStorage {Other : Type} (s : t Other)
    (saved : option (option (ICFProject Other))) (now : string) : t Other * bool :=
  match saved with
  | Some parsed =>
    match importJSON s parsed now with
    | Some s' => (s', true)
    | None => (s, false)
    end
  | None => (s, false)
  end.

End ProjectState.

(** ** main: placing a block

    The place branch of [onClick], for a click that hits the ground at
    [intersection]: snap with the default grid size, then [placeElement],
    which adds a block when the current category is the ICF one.  The
    category is passed as [icfCategory]; the status line is left out. *)
Definition onClickPlace {Other : Type} (s : ProjectState.t Other)
    (icfCategory : bool) (intersection : THREE.Vector3) (newId now : string)
    : outcome (ProjectState.t Other) :=
  snapResult <- snapBlockPosition intersection
                  (ProjectState.currentBlockType s)
                  (ProjectState.currentCoreThickness s)
                  (ProjectState.currentRotation s)
                  (ProjectState.getICFBlocks s) 8 ;;
  if icfCategory then
    Returns (fst (ProjectState.addICFBlock s (SnapResult.position snapResult)
                                           newId now))
  else Returns s.

(** ** Vocabulary of the further statements *)

(** The block with another rotation. *)
Definition withRotation (block : ICFBlock.t) (rotation : Q) : ICFBlock.t :=
  ICFBlock.mk (ICFBlock.id block) (ICFBlock.type block)
              (ICFBlock.coreThickness block) (ICFBlock.position block) rotation.


(** The orientations in the order both face functions list them. *)
Definition orientationOrder : list Orientation :=
  [o_minX; o_maxX; o_minZ; o_maxZ].

(** *** Sequences of calls on the project state *)

(** A call of a method of the project state, or an assignment to one of
    its public fields, with the arguments and the clock readings it uses. *)
Inductive Call (Other : Type) : Type :=
| CallAdd (position : THREE.Vector3) (newId now : string)
| CallPlace (icfCategory : bool) (intersection : THREE.Vector3) (newId now : string)
| CallRemove (id now : string)
| CallUpdate (id : string) (updates : ProjectState.ICFBlockUpdates) (now : string)
| CallRotate (nowUpdate now : string)
| CallUndo (now : string)
| CallRedo (now : string)
| CallNew (stamp now : string) (rest : Other)
| SetBlockType (type : string)
| SetCoreThickness (core : ICFCoreThickness)
| SetSelected (id : option string).

Arguments CallAdd {Other} _ _ _.
Arguments CallPlace {Other} _ _ _ _.
Arguments CallRemove {Other} _ _.
Arguments CallUpdate {Other} _ _ _.
Arguments CallRotate {Other} _ _.
Arguments CallUndo {Other} _.
Arguments CallRedo {Other} _.
Arguments CallNew {Other} _ _ _.
Arguments SetBlockType {Other} _.
Arguments SetCoreThickness {Other} _.
Arguments SetSelected {Other} _.

(** The state after a call; [None] when the call throws. *)
Definition perform {Other : Type} (s : ProjectState.t Other) (c : Call Other)
    : option (ProjectState.t Other) :=
  match c with
  | CallAdd position newId now =>
    Some (fst (ProjectState.addICFBlock s position newId now))
  | CallPlace icf intersection newId now =>
    match onClickPlace s icf intersection newId now with
    | Returns s' => Some s'
    | Throws _ => None
    end
  | CallRemove id now => Some (fst (ProjectState.removeICFBlock s id now))
  | CallUpdate id updates now =>
    Some (fst (ProjectState.updateICFBlock s id updates now))
  | CallRotate nowUpdate now => Some (ProjectState.rotateSelection s nowUpdate now)
  | CallUndo now => option_map fst (ProjectState.undo s now)
  | CallRedo now => option_map fst (ProjectState.redo s now)
  | CallNew stamp now rest => Some (ProjectState.newProject s stamp now rest)
  | SetBlockType type =>
    Some (ProjectState.mk (ProjectState.project s) (ProjectState.history s)
            (ProjectState.historyIndex s) type
            (ProjectState.currentCoreThickness s)
            (ProjectState.currentRotation s) (ProjectState.selectedElementId s))
  | SetCoreThickness core =>
    Some (ProjectState.mk (ProjectState.project s) (ProjectState.history s)
            (ProjectState.historyIndex s) (ProjectState.currentBlockType s)
            core (ProjectState.currentRotation s)
            (ProjectState.selectedElementId s))
  | SetSelected id =>
    Some (ProjectState.mk (ProjectState.project s) (ProjectState.history s)
            (ProjectState.historyIndex s) (ProjectState.currentBlockType s)
            (ProjectState.currentCoreThickness s)
            (ProjectState.currentRotation s) id)
  end.

Fixpoint performAll {Other : Type} (s : ProjectState.t Other)
    (calls : list (Call Other)) : option (ProjectState.t Other) :=
  match calls with
  | [] => Some s
  | c :: rest =>
    match perform s c with
    | Some s' => performAll s' rest
    | None => None
    end
  end.

(** Two projects that differ at most in their [modified] stamp. *)
Definition sameContent {Other : Type} (p q : ProjectState.ICFProject Other) : Prop :=
  ProjectState.icfBlocks p = ProjectState.icfBlocks q /\
  ProjectState.other p = ProjectState.other q.

(** The history is in order: it holds between 1 and 50 snapshots, the
    index points into it, and the snapshot it points at is the current
    project but for the stamp. *)
Definition historyInv {Other : Type} (s : ProjectState.t Other) : Prop :=
  (0 <= ProjectState.historyIndex s)%Z /\
  (ProjectState.historyIndex s < ProjectState.len (ProjectState.history s))%Z /\
  (ProjectState.len (ProjectState.history s) <= ProjectState.maxHistory)%Z /\
  exists p,
    ProjectState.item (ProjectState.history s) (ProjectState.historyIndex s) = Some p /\
    sameContent p (ProjectState.project s).

(** A block the snapper can handle: a catalog category and one of the four
    rotations. *)
Definition regularBlock (b : ICFBlock.t) : Prop :=
  In (ICFBlock.type b) catalogTypes /\ validRotation (ICFBlock.rotation b).

Definition regularProject {Other : Type} (p : ProjectState.ICFProject Other) : Prop :=
  Forall regularBlock (ProjectState.icfBlocks p).

(** Every block the state holds, now or in its history, is regular, and so
    are the current category and rotation. *)
Definition regularState {Other : Type} (s : ProjectState.t Other) : Prop :=
  In (ProjectState.currentBlockType s) catalogTypes /\
  validRotation (ProjectState.currentRotation s) /\
  Forall regularBlock (ProjectState.getICFBlocks s) /\
  Forall regularProject (ProjectState.history s).

(** The calls the user interface makes: the block type buttons carry the
    catalog keys, and an update does not put a block outside the catalog or
    the four rotations. *)
Definition regularCall {Other : Type} (c : Call Other) : Prop :=
  match c with
  | SetBlockType type => In type catalogTypes
  | CallUpdate _ updates _ =>
    match ProjectState.newType updates with
    | Some type => In type catalogTypes
    | None => True
    end /\
    match ProjectState.newRotation updates with
    | Some r => validRotation r
    | None => True
    end
  | _ => True
  end.

(** *** Events of the user interface

    What [main] and the public methods can do to the project state: the
    calls above, the import of a document, loading from the browser's
    storage (also done once at start-up), adding an element of another
    kind, deleting an element by a click or by the delete key, and the
    cost multiplier, which is written into the current project without a
    snapshot. *)
Inductive Event (Other : Type) : Type :=
| Method (c : Call Other)
| Import (parsed : option (ProjectState.ICFProject Other)) (now : string)
| Load (saved : option (option (ProjectState.ICFProject Other))) (now : string)
| AddOther (push : Other -> Other) (now : string)
| Delete (id : string) (removed : Other -> option Other) (now : string)
| DeleteSelected (removed : Other -> option Other) (now : string)
| Settings (change : Other -> Other).

Arguments Method {Other} _.
Arguments Import {Other} _ _.
Arguments Load {Other} _ _.
Arguments AddOther {Other} _ _.
Arguments Delete {Other} _ _ _.
Arguments DeleteSelected {Other} _ _.
Arguments Settings {Other} _.

(** The state after an event; [None] when an error escapes.  The import
    handler of [main] catches the error of [importJSON] and leaves the state
    as it was. *)
Definition handle {Other : Type} (s : ProjectState.t Other) (e : Event Other)
    : option (ProjectState.t Other) :=
  match e with
  | Method c => perform s c
  | Import parsed now =>
    match ProjectState.importJSON s parsed now with
    | Some s' => Some s'
    | None => Some s
    end
  | Load saved now => Some (fst (ProjectState.loadFromLocalStorage s saved now))
  | AddOther push now => Some (ProjectState.addOther s push now)
  | Delete id removed now => Some (fst (ProjectState.deleteElement s id removed now))
  | DeleteSelected removed now =>
    match ProjectState.truthyId (ProjectState.selectedElementId s) with
    | Some id =>
      let s1 := fst (ProjectState.deleteElement s id removed now) in
      Some (ProjectState.mk (ProjectState.project s1) (ProjectState.history s1)
              (ProjectState.historyIndex s1) (ProjectState.currentBlockType s1)
              (ProjectState.currentCoreThickness s1)
              (ProjectState.currentRotation s1) None)
    | None => Some s
    end
  | Settings change =>
    Some (ProjectState.setOther s
            (change (ProjectState.other (ProjectState.project s))))
  end.

Fixpoint handleAll {Other : Type} (s : ProjectState.t Other)
    (events : list (Event Other)) : option (ProjectState.t Other) :=
  match events with
  | [] => Some s
  | e :: rest =>
    match handle s e with
    | Some s' => handleAll s' rest
    | None => None
    end
  end.

(** The index points into the history, which holds at most 50 snapshots. *)
Definition historyRange {Other : Type} (s : ProjectState.t Other) : Prop :=
  (0 <= ProjectState.historyIndex s)%Z /\
  (ProjectState.historyIndex s < ProjectState.len (ProjectState.history s))%Z /\
  (ProjectState.len (ProjectState.history s) <= ProjectState.maxHistory)%Z.

(** The events under which the project stays regular: regular calls, and
    documents whose blocks are all regular. *)
Definition regularEvent {Other : Type} (e : Event Other) : Prop :=
  match e with
  | Method c => regularCall c
  | Import (Some p) _ => regularProject p
  | Load (Some (Some p)) _ => regularProject p
  | _ => True
  end.

(** A document with one block of a category the catalog does not hold. *)
Definition pillarProject : ProjectState.ICFProject unit :=
  ProjectState.mkProject "t"
    [ICFBlock.mk "u" "pillar" core6 (THREE.mkVector3 8 0 16) 90] tt.

(** ** Binary64 numbers

    The program computes on IEEE 754 doubles.  Whatever depends on the
    rounding of a sum, a quotient or a square root (the threshold test on
    [Math.sqrt(..)], the quotient of the grid rounding) is stated on the
    second embedding below, in which a number is a [spec_float] at
    precision 53 and the operations are the correctly rounded ones of the
    standard library. *)

Module Double.

Definition t : Type := spec_float.

Definition prec : Z := 53.
Definition emax : Z := 1024.

Definition add : t -> t -> t := SFadd prec emax.
Definition sub : t -> t -> t := SFsub prec emax.
Definition mul : t -> t -> t := SFmul prec emax.
Definition div : t -> t -> t := SFdiv prec emax.
Definition opp : t -> t := SFopp.

(** [a < b] and [a === b] on numbers: false on [NaN], and [-0 === 0]. *)
Definition ltb : t -> t -> bool := SFltb.
Definition eqb : t -> t -> bool := SFeqb.

Definition Infinity : t := S754_infinity false.

(** The double nearest to an integer. *)
Definition ofZ (n : Z) : t := binary_normalize prec emax n 0 false.

(** The double nearest to [m * 2^e]. *)
Definition ofDyadic (m e : Z) : t := binary_normalize prec emax m e false.

(** The double a decimal literal [n / 10^k] denotes: [n] and [10^k] are
    doubles themselves for the literals used here, and the quotient of two
    doubles is correctly rounded. *)
Definition ofDecimal (n : Z) (k : nat) : t :=
  match k with
  | O => ofZ n
  | _ => div (ofZ n) (ofZ (10 ^ Z.of_nat k))
  end.

Definition parse (d : Number.number) : option spec_float :=
  match d with
  | Number.Decimal (Decimal.Decimal i f) =>
    Some (ofDecimal (Z.of_int (Decimal.app_int i f)) (Decimal.nb_digits f))
  | _ => None
  end.

Definition print (a : spec_float) : option Number.number := None.

(** The double that holds the integer [n], for [|n| < 2^53], with the
    mantissa on 53 bits as every operation leaves it. *)
Definition ofInt (n : Z) : t :=
  if (n =? 0)%Z then S754_zero false
  else
    let k := (52 - Z.log2 (Z.abs n))%Z in
    S754_finite (n <? 0)%Z (Z.to_pos (Z.abs n * 2 ^ k)) (- k).

(** [Number.isFinite]. *)
Definition isFinite (a : t) : bool :=
  match a with
  | S754_zero _ | S754_finite _ _ _ => true
  | _ => false
  end.

(** The exact value of a finite double. *)
Definition toQ (a : t) : Q :=
  match a with
  | S754_finite s m e => inject_Z (cond_Zopp s (Zpos m)) * (2 # 1) ^ e
  | _ => 0
  end.

Module Math.

Definition sqrt : t -> t := SFsqrt prec emax.

(** [Math.pow(a, 2)], taken as the correctly rounded square [a * a]: what
    the [pow] of fdlibm and the integer-exponent paths of the engines
    return for the exponent 2. *)
Definition pow2 (a : t) : t := mul a a.

(** [Math.round]: the nearest integer, ties towards +infinity.  A double
    with a non-negative exponent is an integer already; otherwise
    [floor(a + 1/2)] is computed exactly on the mantissa, and a zero result
    keeps the sign of [a].  [NaN], the infinities and the zeros are
    returned as they are. *)
Definition round (a : t) : t :=
  match a with
  | S754_finite s m e =>
    if (0 <=? e)%Z then a
    else
      let n := ((2 * cond_Zopp s (Zpos m) + 2 ^ (- e)) / 2 ^ (1 - e))%Z in
      if (n =? 0)%Z then S754_zero s else ofInt n
  | _ => a
  end.

End Math.

End Double.

Declare Scope double_scope.
Delimit Scope double_scope with D.
Number Notation spec_float Double.parse Double.print : double_scope.
Infix "+" := Double.add : double_scope.
Infix "-" := Double.sub : double_scope.
Infix "*" := Double.mul : double_scope.
Infix "/" := Double.div : double_scope.
Notation "- x" := (Double.opp x) : double_scope.

(** ** utils/BlockSnapping and data/icfCatalog on doubles

    The same functions, translated from the same source lines, with every
    arithmetic operation a double operation and [dist] the computed
    [Math.sqrt(..)]. *)

Module BlockSnapping.

Local Open Scope double_scope.

Record Vector3 : Type := mkVector3 { x : Double.t; y : Double.t; z : Double.t }.

Definition coreInches (c : ICFCoreThickness) : Double.t :=
  match c with
  | core4 => 4 | core6 => 6 | core8 => 8 | core10 => 10 | core12 => 12
  end.

Module ICFBlock.

Record t : Type := mk {
  id : string;
  type : string;
  coreThickness : ICFCoreThickness;
  position : Vector3;
  rotation : Double.t
}.

End ICFBlock.

Module ICFBlockSpec.

Record t : Type := mk {
  length : Double.t;
  longLeg : option Double.t;
  shortLeg : option Double.t;
  getWidth : ICFCoreThickness -> Double.t
}.

End ICFBlockSpec.

Definition getStandardWidth (c : ICFCoreThickness) : Double.t := 5.5 + coreInches c.

Definition ICF_BLOCK_CATALOG (type : string) : option ICFBlockSpec.t :=
  if String.eqb type "standard" then
    Some (ICFBlockSpec.mk 48 None None getStandardWidth)
  else if String.eqb type "corner90" then
    Some (ICFBlockSpec.mk 38.5 (Some 38.5) (Some 22.5) getStandardWidth)
  else if String.eqb type "corner45" then
    Some (ICFBlockSpec.mk 32 (Some 32) (Some 32) getStandardWidth)
  else if String.eqb type "taperTop" then
    Some (ICFBlockSpec.mk 48 None None (fun c => getStandardWidth c + 4))
  else if String.eqb type "brickLedge" then
    Some (ICFBlockSpec.mk 48 None None (fun _ => 17.375))
  else if String.eqb type "heightAdjuster" then
    Some (ICFBlockSpec.mk 48 None None getStandardWidth)
  else None.

(** [v || d] on an optional number: [undefined], [0], [-0] and [NaN] are
    falsy. *)
Definition orDefault (v : option Double.t) (d : Double.t) : Double.t :=
  match v with
  | Some (S754_zero _) | Some S754_nan | None => d
  | Some a => a
  end.

Module BlockBounds.

Record t : Type := mk {
  minX : Double.t;
  maxX : Double.t;
  minZ : Double.t;
  maxZ : Double.t;
  rotation : Double.t
}.

End BlockBounds.

Module SnapResult.

Record t : Type := mk {
  position : Vector3;
  snappedToBlock : bool;
  snappedBlockId : option string;
  snapEdge : option SnapEdge
}.

End SnapResult.

Definition SNAP_THRESHOLD : Double.t := 150.

Definition getBlockBounds (block : ICFBlock.t) : outcome BlockBounds.t :=
  match ICF_BLOCK_CATALOG (ICFBlock.type block) with
  | None => Throws TypeError
  | Some spec =>
    let width := ICFBlockSpec.getWidth spec (ICFBlock.coreThickness block) in
    let pos := ICFBlock.position block in
    let rotation := ICFBlock.rotation block in
    let px := x pos in
    let pz := z pos in
    if isStraight (ICFBlock.type block) then
      let halfLength := ICFBlockSpec.length spec / 2 in
      let halfWidth := width / 2 in
      if Double.eqb rotation 0 || Double.eqb rotation 180 then
        Returns (BlockBounds.mk (px - halfLength) (px + halfLength)
                                (pz - halfWidth) (pz + halfWidth) rotation)
      else
        Returns (BlockBounds.mk (px - halfWidth) (px + halfWidth)
                                (pz - halfLength) (pz + halfLength) rotation)
    else if String.eqb (ICFBlock.type block) "corner90" then
      let longLeg := orDefault (ICFBlockSpec.longLeg spec) 38.5 in
      let shortLeg := orDefault (ICFBlockSpec.shortLeg spec) 22.5 in
      let halfWidth := width / 2 in
      if Double.eqb rotation 0 then
        Returns (BlockBounds.mk (px - halfWidth) (px + shortLeg - halfWidth)
                                (pz - longLeg / 2) (pz + longLeg / 2) rotation)
      else if Double.eqb rotation 90 then
        Returns (BlockBounds.mk (px - longLeg / 2) (px + longLeg / 2)
                                (pz - shortLeg + halfWidth) (pz + halfWidth) rotation)
      else if Double.eqb rotation 180 then
        Returns (BlockBounds.mk (px - shortLeg + halfWidth) (px + halfWidth)
                                (pz - longLeg / 2) (pz + longLeg / 2) rotation)
      else if Double.eqb rotation 270 then
        Returns (BlockBounds.mk (px - longLeg / 2) (px + longLeg / 2)
                                (pz - halfWidth) (pz + shortLeg - halfWidth) rotation)
      else
        Returns (BlockBounds.mk (px - halfWidth) (px + shortLeg - halfWidth)
                                (pz - longLeg / 2) (pz + longLeg / 2) rotation)
    else if String.eqb (ICFBlock.type block) "corner45" then
      let legLength := orDefault (ICFBlockSpec.longLeg spec) 32 in
      if Double.eqb rotation 0 then
        Returns (BlockBounds.mk px (px + legLength) pz (pz + legLength) rotation)
      else if Double.eqb rotation 90 then
        Returns (BlockBounds.mk px (px + legLength) (pz - legLength) pz rotation)
      else if Double.eqb rotation 180 then
        Returns (BlockBounds.mk (px - legLength) px (pz - legLength) pz rotation)
      else if Double.eqb rotation 270 then
        Returns (BlockBounds.mk (px - legLength) px pz (pz + legLength) rotation)
      else
        Returns (BlockBounds.mk px (px + legLength) pz (pz + legLength) rotation)
    else
      Returns (BlockBounds.mk (px - 24) (px + 24) (pz - 7) (pz + 7) rotation)
  end.

Module BlockFace.

Record t : Type := mk {
  centerX : Double.t;
  centerZ : Double.t;
  plane : Double.t;
  orientation : Orientation
}.

End BlockFace.

Module FaceOffset.

Record t : Type := mk {
  offsetX : Double.t;
  offsetZ : Double.t;
  planeOffset : Double.t;
  orientation : Orientation
}.

End FaceOffset.

Definition getBlockFaces (block : ICFBlock.t) : outcome (list BlockFace.t) :=
  match ICF_BLOCK_CATALOG (ICFBlock.type block) with
  | None => Throws TypeError
  | Some spec =>
    let width := ICFBlockSpec.getWidth spec (ICFBlock.coreThickness block) in
    let halfWidth := width / 2 in
    let pos := ICFBlock.position block in
    let rotation := ICFBlock.rotation block in
    let px := x pos in
    let pz := z pos in
    if isStraight (ICFBlock.type block) then
      let length := ICFBlockSpec.length spec in
      let halfLength := length / 2 in
      if Double.eqb rotation 0 || Double.eqb rotation 180 then
        Returns
          [ BlockFace.mk (px - halfLength) pz (px - halfLength) o_minX;
            BlockFace.mk (px + halfLength) pz (px + halfLength) o_maxX;
            BlockFace.mk px (pz - halfWidth) (pz - halfWidth) o_minZ;
            BlockFace.mk px (pz + halfWidth) (pz + halfWidth) o_maxZ ]
      else
        Returns
          [ BlockFace.mk (px - halfWidth) pz (px - halfWidth) o_minX;
            BlockFace.mk (px + halfWidth) pz (px + halfWidth) o_maxX;
            BlockFace.mk px (pz - halfLength) (pz - halfLength) o_minZ;
            BlockFace.mk px (pz + halfLength) (pz + halfLength) o_maxZ ]
    else if String.eqb (ICFBlock.type block) "corner90" then
      let longLeg := orDefault (ICFBlockSpec.longLeg spec) 38.5 in
      let shortLeg := orDefault (ICFBlockSpec.shortLeg spec) 22.5 in
      let halfLongLeg := longLeg / 2 in
      if Double.eqb rotation 0 then
        Returns
          [ BlockFace.mk (px - halfWidth) pz (px - halfWidth) o_minX;
            BlockFace.mk (px + shortLeg - halfWidth) (pz - halfLongLeg + halfWidth)
                         (px + shortLeg - halfWidth) o_maxX;
            BlockFace.mk (px - halfWidth + shortLeg / 2) (pz - halfLongLeg)
                         (pz - halfLongLeg) o_minZ;
            BlockFace.mk px (pz + halfLongLeg) (pz + halfLongLeg) o_maxZ ]
      else if Double.eqb rotation 90 then
        Returns
          [ BlockFace.mk (px - halfLongLeg) (pz + halfWidth - shortLeg / 2)
                         (px - halfLongLeg) o_minX;
            BlockFace.mk (px + halfLongLeg) pz (px + halfLongLeg) o_maxX;
            BlockFace.mk (px - halfLongLeg + halfWidth) (pz - shortLeg + halfWidth)
                         (pz - shortLeg + halfWidth) o_minZ;
            BlockFace.mk px (pz + halfWidth) (pz + halfWidth) o_maxZ ]
      else if Double.eqb rotation 180 then
        Returns
          [ BlockFace.mk (px - shortLeg + halfWidth) (pz + halfLongLeg - halfWidth)
                         (px - shortLeg + halfWidth) o_minX;
            BlockFace.mk (px + halfWidth) pz (px + halfWidth) o_maxX;
            BlockFace.mk px (pz - halfLongLeg) (pz - halfLongLeg) o_minZ;
            BlockFace.mk (px + halfWidth - shortLeg / 2) (pz + halfLongLeg)
                         (pz + halfLongLeg) o_maxZ ]
      else if Double.eqb rotation 270 then
        Returns
          [ BlockFace.mk (px - halfLongLeg) pz (px - halfLongLeg) o_minX;
            BlockFace.mk (px + halfLongLeg) (pz - halfWidth + shortLeg / 2)
                         (px + halfLongLeg) o_maxX;
            BlockFace.mk px (pz - halfWidth) (pz - halfWidth) o_minZ;
            BlockFace.mk (px + halfLongLeg - halfWidth) (pz + shortLeg - halfWidth)
                         (pz + shortLeg - halfWidth) o_maxZ ]
      else
        Returns []
    else
      bounds <- getBlockBounds block ;;
      let bminX := BlockBounds.minX bounds in
      let bmaxX := BlockBounds.maxX bounds in
      let bminZ := BlockBounds.minZ bounds in
      let bmaxZ := BlockBounds.maxZ bounds in
      Returns
        [ BlockFace.mk bminX ((bminZ + bmaxZ) / 2) bminX o_minX;
          BlockFace.mk bmaxX ((bminZ + bmaxZ) / 2) bmaxX o_maxX;
          BlockFace.mk ((bminX + bmaxX) / 2) bminZ bminZ o_minZ;
          BlockFace.mk ((bminX + bmaxX) / 2) bmaxZ bmaxZ o_maxZ ]
  end.

Definition getBlockFaceOffsets (type : string) (core : ICFCoreThickness)
    (rotation : Double.t) : outcome (list FaceOffset.t) :=
  match ICF_BLOCK_CATALOG type with
  | None => Throws TypeError
  | Some spec =>
    let width := ICFBlockSpec.getWidth spec core in
    let halfWidth := width / 2 in
    if isStraight type then
      let halfLength := ICFBlockSpec.length spec / 2 in
      if Double.eqb rotation 0 || Double.eqb rotation 180 then
        Returns
          [ FaceOffset.mk (- halfLength) 0 (- halfLength) o_minX;
            FaceOffset.mk halfLength 0 halfLength o_maxX;
            FaceOffset.mk 0 (- halfWidth) (- halfWidth) o_minZ;
            FaceOffset.mk 0 halfWidth halfWidth o_maxZ ]
      else
        Returns
          [ FaceOffset.mk (- halfWidth) 0 (- halfWidth) o_minX;
            FaceOffset.mk halfWidth 0 halfWidth o_maxX;
            FaceOffset.mk 0 (- halfLength) (- halfLength) o_minZ;
            FaceOffset.mk 0 halfLength halfLength o_maxZ ]
    else if String.eqb type "corner90" then
      let longLeg := orDefault (ICFBlockSpec.longLeg spec) 38.5 in
      let shortLeg := orDefault (ICFBlockSpec.shortLeg spec) 22.5 in
      let halfLongLeg := longLeg / 2 in
      if Double.eqb rotation 0 then
        Returns
          [ FaceOffset.mk (- halfWidth) 0 (- halfWidth) o_minX;
            FaceOffset.mk (shortLeg - halfWidth) (- halfLongLeg + halfWidth)
                          (shortLeg - halfWidth) o_maxX;
            FaceOffset.mk (- halfWidth + shortLeg / 2) (- halfLongLeg)
                          (- halfLongLeg) o_minZ;
            FaceOffset.mk 0 halfLongLeg halfLongLeg o_maxZ ]
      else if Double.eqb rotation 90 then
        Returns
          [ FaceOffset.mk (- halfLongLeg) (halfWidth - shortLeg / 2)
                          (- halfLongLeg) o_minX;
            FaceOffset.mk halfLongLeg 0 halfLongLeg o_maxX;
            FaceOffset.mk (- halfLongLeg + halfWidth) (- shortLeg + halfWidth)
                          (- shortLeg + halfWidth) o_minZ;
            FaceOffset.mk 0 halfWidth halfWidth o_maxZ ]
      else if Double.eqb rotation 180 then
        Returns
          [ FaceOffset.mk (- shortLeg + halfWidth) (halfLongLeg - halfWidth)
                          (- shortLeg + halfWidth) o_minX;
            FaceOffset.mk halfWidth 0 halfWidth o_maxX;
            FaceOffset.mk 0 (- halfLongLeg) (- halfLongLeg) o_minZ;
            FaceOffset.mk (halfWidth - shortLeg / 2) halfLongLeg halfLongLeg o_maxZ ]
      else if Double.eqb rotation 270 then
        Returns
          [ FaceOffset.mk (- halfLongLeg) 0 (- halfLongLeg) o_minX;
            FaceOffset.mk halfLongLeg (- halfWidth + shortLeg / 2) halfLongLeg o_maxX;
            FaceOffset.mk 0 (- halfWidth) (- halfWidth) o_minZ;
            FaceOffset.mk (halfLongLeg - halfWidth) (shortLeg - halfWidth)
                          (shortLeg - halfWidth) o_maxZ ]
      else
        Returns []
    else
      Returns
        [ FaceOffset.mk (-24) 0 (-24) o_minX;
          FaceOffset.mk 24 0 24 o_maxX;
          FaceOffset.mk 0 (-7) (-7) o_minZ;
          FaceOffset.mk 0 7 7 o_maxZ ]
  end.

(** The variables the search loop of [snapBlockPosition] updates;
    [closestDistance] starts at [Infinity]. *)
Module SnapState.

Record t : Type := mk {
  bestSnapPosition : Vector3;
  closestDistance : Double.t;
  snappedToBlock : bool;
  snappedBlockId : option string;
  snapEdge : option SnapEdge
}.

End SnapState.

(** [(snapX, snapZ)]. *)
Definition solveFacePair (exFace : BlockFace.t) (newFace : FaceOffset.t)
    : Double.t * Double.t :=
  match BlockFace.orientation exFace with
  | o_minX | o_maxX =>
    (BlockFace.plane exFace - FaceOffset.planeOffset newFace,
     BlockFace.centerZ exFace - FaceOffset.offsetZ newFace)
  | o_minZ | o_maxZ =>
    (BlockFace.centerX exFace - FaceOffset.offsetX newFace,
     BlockFace.plane exFace - FaceOffset.planeOffset newFace)
  end.

(** [dist], as computed. *)
Definition dist (rawPosition : Vector3) (s : Double.t * Double.t) : Double.t :=
  Double.Math.sqrt (Double.Math.pow2 (x rawPosition - fst s) +
                    Double.Math.pow2 (z rawPosition - snd s)).

(** Body of the innermost loop. *)
Definition facePairStep (rawPosition : Vector3) (existingBlock : ICFBlock.t)
    (exFace : BlockFace.t) (st : SnapState.t) (newFace : FaceOffset.t) : SnapState.t :=
  if negb (validPair (BlockFace.orientation exFace) (FaceOffset.orientation newFace))
  then st
  else
    let s := solveFacePair exFace newFace in
    let d := dist rawPosition s in
    if Double.ltb d SNAP_THRESHOLD && Double.ltb d (SnapState.closestDistance st)
    then
      SnapState.mk (mkVector3 (fst s) (y rawPosition) (snd s))
                   d true
                   (Some (ICFBlock.id existingBlock))
                   (Some (edgeName (FaceOffset.orientation newFace)))
    else st.

Definition blockFacesLoop (rawPosition : Vector3)
    (newFaceOffsets : list FaceOffset.t) (existingBlock : ICFBlock.t)
    (exFaces : list BlockFace.t) (st : SnapState.t) : SnapState.t :=
  fold_left
    (fun st exFace =>
       fold_left (facePairStep rawPosition existingBlock exFace) newFaceOffsets st)
    exFaces st.

Fixpoint existingBlocksLoop (rawPosition : Vector3)
    (newFaceOffsets : list FaceOffset.t) (existingBlocks : list ICFBlock.t)
    (st : SnapState.t) : outcome SnapState.t :=
  match existingBlocks with
  | [] => Returns st
  | existingBlock :: rest =>
    exFaces <- getBlockFaces existingBlock ;;
    existingBlocksLoop rawPosition newFaceOffsets rest
      (blockFacesLoop rawPosition newFaceOffsets existingBlock exFaces st)
  end.

Definition snapToGrid (position : Vector3) (gridSize : Double.t) : Vector3 :=
  mkVector3
    (Double.Math.round (x position / gridSize) * gridSize)
    (Double.Math.round (y position / 16) * 16)
    (Double.Math.round (z position / gridSize) * gridSize).

Definition snapBlockPosition (rawPosition : Vector3) (blockType : string)
    (coreThickness : ICFCoreThickness) (rotation : Double.t)
    (existingBlocks : list ICFBlock.t) (gridSize : Double.t) : outcome SnapResult.t :=
  newFaceOffsets <- getBlockFaceOffsets blockType coreThickness rotation ;;
  st <- existingBlocksLoop rawPosition newFaceOffsets existingBlocks
          (SnapState.mk rawPosition Double.Infinity false None None) ;;
  let bestSnapPosition :=
    if negb (SnapState.snappedToBlock st) then
      mkVector3
        (Double.Math.round (x rawPosition / gridSize) * gridSize)
        (Double.Math.round (y rawPosition / 16) * 16)
        (Double.Math.round (z rawPosition / gridSize) * gridSize)
    else SnapState.bestSnapPosition st in
  Returns (SnapResult.mk bestSnapPosition
                         (SnapState.snappedToBlock st)
                         (SnapState.snappedBlockId st)
                         (SnapState.snapEdge st)).

(** *** Vocabulary of the statements on doubles *)

(** One iteration of the innermost loop. *)
Record FacePair : Type := mkFacePair {
  pairBlock : ICFBlock.t;
  pairExFace : BlockFace.t;
  pairNewFace : FaceOffset.t
}.

Definition pairValid (t : FacePair) : Prop :=
  validPair (BlockFace.orientation (pairExFace t))
            (FaceOffset.orientation (pairNewFace t)) = true.

Definition pairSolution (t : FacePair) : Double.t * Double.t :=
  solveFacePair (pairExFace t) (pairNewFace t).

(** The [dist] the loop computes for a pair. *)
Definition pairDist (rawPosition : Vector3) (t : FacePair) : Double.t :=
  dist rawPosition (pairSolution t).

Definition solutionPosition (rawPosition : Vector3) (t : FacePair) : Vector3 :=
  mkVector3 (fst (pairSolution t)) (y rawPosition) (snd (pairSolution t)).

(** What the loop variables say once the pairs in [seen] have been tried.
    Every comparison is the one the code makes, on computed distances. *)
Definition searchInv (rawPosition : Vector3) (seen : FacePair -> Prop)
    (st : SnapState.t) : Prop :=
  if SnapState.snappedToBlock st then
    (Double.ltb (SnapState.closestDistance st) SNAP_THRESHOLD = true /\
     exists t,
       seen t /\ pairValid t /\
       SnapState.closestDistance st = pairDist rawPosition t /\
       SnapState.bestSnapPosition st = solutionPosition rawPosition t /\
       SnapState.snappedBlockId st = Some (ICFBlock.id (pairBlock t)) /\
       SnapState.snapEdge st =
         Some (edgeName (FaceOffset.orientation (pairNewFace t))) /\
       forall t', seen t' -> pairValid t' ->
                  Double.ltb (pairDist rawPosition t') (pairDist rawPosition t) = false)
  else
    (SnapState.closestDistance st = Double.Infinity /\
     SnapState.snappedBlockId st = None /\
     SnapState.snapEdge st = None /\
     forall t, seen t -> pairValid t ->
               Double.ltb (pairDist rawPosition t) SNAP_THRESHOLD = false).

(** The pairs the whole search tries. *)
Definition triedPair (newFaceOffsets : list FaceOffset.t)
    (existingBlocks : list ICFBlock.t) (t : FacePair) : Prop :=
  In (pairBlock t) existingBlocks /\
  (exists exFaces, getBlockFaces (pairBlock t) = Returns exFaces /\
                   In (pairExFace t) exFaces) /\
  In (pairNewFace t) newFaceOffsets.

(** A valid face pair of the call: an existing block, one of its faces and
    one face offset of the new block, with opposing orientations. *)
Definition validFacePair (blockType : string) (core : ICFCoreThickness)
    (rotation : Double.t) (existingBlocks : list ICFBlock.t) (t : FacePair) : Prop :=
  exists newFaceOffsets,
    getBlockFaceOffsets blockType core rotation = Returns newFaceOffsets /\
    triedPair newFaceOffsets existingBlocks t /\
    pairValid t.

Definition snappedResult (rawPosition : Vector3) (t : FacePair) : SnapResult.t :=
  SnapResult.mk (solutionPosition rawPosition t) true
                (Some (ICFBlock.id (pairBlock t)))
                (Some (edgeName (FaceOffset.orientation (pairNewFace t)))).

Definition gridResult (rawPosition : Vector3) (gridSize : Double.t) : SnapResult.t :=
  SnapResult.mk (snapToGrid rawPosition gridSize) false None None.

(** A standard block with an 8 inch core at the origin. *)
Definition originBlock (id : string) : ICFBlock.t :=
  ICFBlock.mk id "standard" core8 (mkVector3 0 0 0) 0.

(** The pair that joins the +X face of [originBlock "A"] with the -X face
    of a new standard block: the solution is (48, 0). *)
Definition plusXPair : FacePair :=
  mkFacePair (originBlock "A")
             (BlockFace.mk (0 + 48 / 2) 0 (0 + 48 / 2) o_maxX)
             (FaceOffset.mk (- (48 / 2)) 0 (- (48 / 2)) o_minX).

(** The square of the exact distance between the raw position and a
    solution, as a rational. *)
Definition exactDistSq (rawPosition : Vector3) (s : Double.t * Double.t) : Q :=
  ((Double.toQ (x rawPosition) - Double.toQ (fst s)) ^ 2 +
   (Double.toQ (z rawPosition) - Double.toQ (snd s)) ^ 2)%Q.

(** A standard block far from the origin. *)
Definition farBlock : ICFBlock.t :=
  ICFBlock.mk "F" "standard" core8 (mkVector3 1000 0 1000) 0.

(** The block with another rotation. *)
Definition withRotation (block : ICFBlock.t) (rotation : Double.t) : ICFBlock.t :=
  ICFBlock.mk (ICFBlock.id block) (ICFBlock.type block)
              (ICFBlock.coreThickness block) (ICFBlock.position block) rotation.

(** The block at another height. *)
Definition atHeight (h : Double.t) (block : ICFBlock.t) : ICFBlock.t :=
  ICFBlock.mk (ICFBlock.id block) (ICFBlock.type block)
              (ICFBlock.coreThickness block)
              (mkVector3 (x (ICFBlock.position block)) h (z (ICFBlock.position block)))
              (ICFBlock.rotation block).

(** The doubles on which the scalings by 8 and by 16 of the grid rounding
    are exact in both directions: the zeros, the infinities, [NaN], and the
    normal numbers (mantissa on 53 bits) of magnitude at least 2^-1017. *)
Definition ordinary (a : Double.t) : Prop :=
  match a with
  | S754_finite _ m e => digits2_pos m = 53%positive /\ (-1069 <= e <= 971)%Z
  | _ => True
  end.

(** The block with the X and Z coordinates of its position exchanged. *)
Definition mirrored (block : ICFBlock.t) : ICFBlock.t :=
  ICFBlock.mk (ICFBlock.id block) (ICFBlock.type block)
              (ICFBlock.coreThickness block)
              (mkVector3 (z (ICFBlock.position block)) (y (ICFBlock.position block))
                         (x (ICFBlock.position block)))
              (ICFBlock.rotation block).

(** The exact values of the coordinates of a position. *)
Definition exactPosition (p : Vector3) : THREE.Vector3 :=
  THREE.mkVector3 (Double.toQ (x p)) (Double.toQ (y p)) (Double.toQ (z p)).

End BlockSnapping.

(** ** Basic facts *)

(** Linear arithmetic with the halves written as products. *)
Ltac halves := unfold Qdiv in *; change (/ 2) with (1 # 2) in *; lra.

Lemma catalog_cases (type : string) :
  ICF_BLOCK_CATALOG type <> None <-> In type catalogTypes.
Proof.
  unfold ICF_BLOCK_CATALOG, catalogTypes. simpl.
  repeat match goal with
  | |- context [String.eqb type ?s] => destruct (String.eqb_spec type s)
  end; split; intro H; try congruence; auto 10.
  intuition congruence.
Qed.

(** ** Placement scenarios *)

(** C1 (as the code has it): with one standard block (48 by 13.5, rotation
    0) at the origin and an identical new block at raw position (50, 0, 2),
    [snapBlockPosition] snaps to the existing block's +X face: it returns
    the existing block's identifier and the centre (48, 0, 0), half-length
    24 plus half-length 24 away from the origin, and the edge label is
    "left", the name of the new block's own touching face. *)
Theorem snap_scenario_plus_x_face (id : string) :
  exists r,
    snapBlockPosition (THREE.mkVector3 50 0 2) "standard" core8 0 [originBlock id] 8 = Returns r /\
    SnapResult.snappedToBlock r = true /\
    SnapResult.snappedBlockId r = Some id /\
    vec_eq (SnapResult.position r) (THREE.mkVector3 48 0 0) /\
    SnapResult.snapEdge r = Some left.
Proof.
  eexists. split.
  - vm_compute. reflexivity.
  - repeat split; reflexivity.
Qed.

(** C4 (as the code has it): same block, raw position (500, 0, 500), grid
    size 8: no face pair is within the threshold and the grid fallback
    returns (504, 0, 504), since 500/8 = 62.5 rounds up to 63; the no-match
    flag is set. *)
Theorem snap_scenario_grid_fallback (id : string) :
  exists r,
    snapBlockPosition (THREE.mkVector3 500 0 500) "standard" core8 0 [originBlock id] 8 = Returns r /\
    SnapResult.snappedToBlock r = false /\
    vec_eq (SnapResult.position r) (THREE.mkVector3 504 0 504).
Proof.
  eexists. split.
  - vm_compute. reflexivity.
  - repeat split; reflexivity.
Qed.

(** C1 as stated fails: the result is not (72, 0, 0) with label "right". *)
Lemma snap_scenario_not_72_right :
  ~ exists r,
      snapBlockPosition (THREE.mkVector3 50 0 2) "standard" core8 0
        [originBlock "A"] 8 = Returns r /\
      SnapResult.snappedBlockId r = Some "A" /\
      vec_eq (SnapResult.position r) (THREE.mkVector3 72 0 0) /\
      SnapResult.snapEdge r = Some right.
Proof.
  intros [r [H [_ [[Hx _] He]]]].
  vm_compute in H. inversion H; subst; clear H.
  discriminate He.
Qed.

(** C4 as stated fails: the grid fallback does not return (496, 0, 496). *)
Lemma snap_scenario_not_496 :
  ~ exists r,
      snapBlockPosition (THREE.mkVector3 500 0 500) "standard" core8 0
        [originBlock "A"] 8 = Returns r /\
      vec_eq (SnapResult.position r) (THREE.mkVector3 496 0 496) /\
      SnapResult.snappedToBlock r = false.
Proof.
  intros [r [H [[Hx _] _]]].
  vm_compute in H. inversion H; subst; clear H.
  vm_compute in Hx. discriminate Hx.
Qed.

(** ** Categories outside the catalog *)

(** C2: the fallback for a category outside the catalog is never taken.
    [getBlockBounds], [getBlockFaces] and [getBlockFaceOffsets] each end
    with a fallback for such a category (the rectangle of half-width 24 and
    half-depth 7, its faces, its offsets), but each starts with the catalog
    lookup and the call of [getWidth] on its result: for a block whose
    category the catalog does not hold, all three throw a [TypeError]
    before any dispatch on the category. *)
Theorem unknown_category_throws (block : ICFBlock.t) (rotation : Q)
    (H : ICF_BLOCK_CATALOG (ICFBlock.type block) = None) :
  getBlockBounds block = Throws TypeError /\
  getBlockFaces block = Throws TypeError /\
  getBlockFaceOffsets (ICFBlock.type block) (ICFBlock.coreThickness block)
    rotation = Throws TypeError.
Proof.
  unfold getBlockBounds, getBlockFaces, getBlockFaceOffsets.
  rewrite H. auto.
Qed.

Lemma unknown_category_throws_witness :
  getBlockBounds (ICFBlock.mk "u" "pillar" core6 (THREE.mkVector3 8 0 16) 90)
    = Throws TypeError /\
  getBlockFaces (ICFBlock.mk "u" "pillar" core6 (THREE.mkVector3 8 0 16) 90)
    = Throws TypeError /\
  getBlockFaceOffsets "pillar" core6 90 = Throws TypeError.
Proof.
  apply (unknown_category_throws
           (ICFBlock.mk "u" "pillar" core6 (THREE.mkVector3 8 0 16) 90) 90).
  reflexivity.
Defined.

(** For a block of a category outside the catalog none of the three
    functions returns, so none returns the fallback. *)
Lemma unknown_category_no_fallback :
  ~ (exists b,
       getBlockBounds (ICFBlock.mk "u" "pillar" core6 (THREE.mkVector3 8 0 16) 90)
         = Returns b) /\
  ~ (exists faces,
       getBlockFaces (ICFBlock.mk "u" "pillar" core6 (THREE.mkVector3 8 0 16) 90)
         = Returns faces) /\
  ~ (exists offsets,
       getBlockFaceOffsets "pillar" core6 90 = Returns offsets).
Proof.
  repeat split; intros [? H]; discriminate H.
Qed.

(** The fallback rectangle of [getBlockBounds] is dead code for the six
    catalog categories as well: each is handled by an earlier branch. *)
Lemma fallback_branch_unreachable (block : ICFBlock.t) :
  In (ICFBlock.type block) catalogTypes ->
  isStraight (ICFBlock.type block) = true \/
  ICFBlock.type block = "corner90" \/ ICFBlock.type block = "corner45".
Proof.
  simpl. intros [H|[H|[H|[H|[H|[H|[]]]]]]]; rewrite <- H; auto.
Qed.

(** ** No existing blocks *)

(** C6: with no existing blocks and grid size 8, [snapBlockPosition]
    returns exactly [snapToGrid p 8], the no-match flag set, no block
    identifier and no edge label, whatever catalog category, thickness and
    rotation the new block has. *)
Theorem snap_no_blocks_is_grid (p : THREE.Vector3) (blockType : string)
    (core : ICFCoreThickness) (rotation : Q)
    (H : In blockType catalogTypes) :
  snapBlockPosition p blockType core rotation [] 8 =
  Returns (SnapResult.mk (snapToGrid p 8) false None None).
Proof.
  apply catalog_cases in H.
  unfold snapBlockPosition, getBlockFaceOffsets.
  destruct (ICF_BLOCK_CATALOG blockType) as [spec|]; [|congruence].
  destruct (isStraight blockType).
  - destruct (_ || _); reflexivity.
  - destruct (String.eqb blockType "corner90"); [|reflexivity].
    repeat match goal with
    | |- context [if Qeq_bool ?a ?b then _ else _] => destruct (Qeq_bool a b)
    end; reflexivity.
Qed.

Lemma snap_no_blocks_is_grid_witness :
  snapBlockPosition (THREE.mkVector3 13 5 (-21)) "corner45" core10 270 [] 8 =
  Returns (SnapResult.mk (snapToGrid (THREE.mkVector3 13 5 (-21)) 8) false None None).
Proof.
  apply (snap_no_blocks_is_grid (THREE.mkVector3 13 5 (-21)) "corner45" core10 270).
  simpl. auto.
Defined.

(** ** Bounding rectangles *)

(** C7: a corner-90 block with long leg [L], short leg [S] and derived
    width [W], at rotation 0, is bounded in X by [x - W/2] and
    [x + S - W/2] and in Z by [z - L/2] and [z + L/2]. *)
Theorem corner90_bounds_rotation_0 (block : ICFBlock.t) (spec : ICFBlockSpec.t)
    (L S W : Q)
    (Htype : ICFBlock.type block = "corner90")
    (Hrot : ICFBlock.rotation block == 0)
    (Hspec : ICF_BLOCK_CATALOG "corner90" = Some spec)
    (HL : ICFBlockSpec.longLeg spec = Some L)
    (HS : ICFBlockSpec.shortLeg spec = Some S)
    (HW : W == ICFBlockSpec.getWidth spec (ICFBlock.coreThickness block)) :
  exists b,
    getBlockBounds block = Returns b /\
    BlockBounds.minX b == THREE.x (ICFBlock.position block) - W / 2 /\
    BlockBounds.maxX b == THREE.x (ICFBlock.position block) + S - W / 2 /\
    BlockBounds.minZ b == THREE.z (ICFBlock.position block) - L / 2 /\
    BlockBounds.maxZ b == THREE.z (ICFBlock.position block) + L / 2.
Proof.
  unfold getBlockBounds. rewrite Htype.
  change (ICF_BLOCK_CATALOG "corner90") with
    (Some (ICFBlockSpec.mk 38.5 (Some 38.5) (Some 22.5) getStandardWidth)) in *.
  injection Hspec as <-. simpl in HL, HS, HW.
  injection HL as <-. injection HS as <-.
  change (isStraight "corner90") with false.
  change (String.eqb "corner90" "corner90") with true.
  cbv iota.
  apply Qeq_eq_bool in Hrot. rewrite Hrot.
  eexists. split; [reflexivity|].
  simpl. rewrite HW. repeat split; reflexivity.
Qed.

Lemma corner90_bounds_rotation_0_witness :
  exists b,
    getBlockBounds (ICFBlock.mk "c" "corner90" core6 (THREE.mkVector3 10 0 20) 0)
      = Returns b /\
    BlockBounds.minX b == 10 - 11.5 / 2 /\
    BlockBounds.maxX b == 10 + 22.5 - 11.5 / 2 /\
    BlockBounds.minZ b == 20 - 38.5 / 2 /\
    BlockBounds.maxZ b == 20 + 38.5 / 2.
Proof.
  apply (corner90_bounds_rotation_0
           (ICFBlock.mk "c" "corner90" core6 (THREE.mkVector3 10 0 20) 0)
           (ICFBlockSpec.mk 38.5 (Some 38.5) (Some 22.5) getStandardWidth)
           38.5 22.5 11.5);
    reflexivity.
Defined.





(** ** Grid rounding on doubles *)

Section PowersOfTwo.

Local Open Scope Z_scope.

(** Multiplying a normal double by a power of two moves the exponent, as
    long as the result stays in range. *)
Lemma mul_pow2 (s : bool) (m : positive) (e ey : Z) :
  digits2_pos m = 53%positive -> -1074 <= e + ey + 52 <= 971 ->
  Double.mul (S754_finite s m e) (S754_finite false 4503599627370496 ey) =
  S754_finite s m (e + ey + 52).
Proof.
  intros Hd He.
  unfold Double.mul, SFmul, binary_round_aux, shr_fexp.
  rewrite xorb_false_r, Pos.mul_comm.
  cbn [Pos.mul Zdigits2 digits2_pos]. rewrite Hd. cbn [Pos.succ].
  unfold fexp, emin, Double.prec, Double.emax.
  replace (Z.max (105 + (e + ey) - 53) (3 - 1024 - 53) - (e + ey)) with 52 by lia.
  cbn [shr iter_pos shr_record_of_loc shr_1 orb shr_m loc_of_shr_record
       round_nearest_even Zdigits2].
  rewrite Hd.
  replace (Z.max (53 + (e + ey + 52) - 53) (3 - 1024 - 53) - (e + ey + 52))
    with 0 by lia.
  cbn [shr shr_m].
  destruct (Z.leb_spec (e + ey + 52) (1024 - 53)); [reflexivity|lia].
Qed.

(** Dividing a normal double by a power of two moves the exponent the
    other way. *)
Lemma div_pow2 (s : bool) (m : positive) (e ey : Z) :
  digits2_pos m = 53%positive -> -1073 <= e - ey - 52 <= 971 ->
  Double.div (S754_finite s m e) (S754_finite false 4503599627370496 ey) =
  S754_finite s m (e - ey - 52).
Proof.
  intros Hd He.
  unfold Double.div, SFdiv, SFdiv_core_binary.
  rewrite xorb_false_r.
  cbn [Zdigits2 digits2_pos]. rewrite Hd. cbn [Pos.succ].
  unfold fexp, emin, Double.prec, Double.emax.
  replace (Z.min (Z.max (53 + e - (53 + ey) - 53) (3 - 1024 - 53)) (e - ey))
    with (e - ey - 53) by lia.
  replace (e - ey - (e - ey - 53)) with 53 by lia.
  assert (E : Z.div_eucl (Z.shiftl (Z.pos m) 53) 4503599627370496 = (Z.pos m~0, 0)).
  { pose proof (Z.div_eucl_eq (Z.shiftl (Z.pos m) 53) 4503599627370496 ltac:(lia)) as H.
    pose proof (Z.mod_pos_bound (Z.shiftl (Z.pos m) 53) 4503599627370496 ltac:(lia)) as B.
    unfold Z.modulo in B.
    destruct (Z.div_eucl _ _) as [q r].
    rewrite Z.shiftl_mul_pow2 in H by lia.
    change (2 ^ 53) with 9007199254740992 in H.
    f_equal; lia. }
  rewrite E.
  unfold new_location, new_location_even. cbn [Z.even Z.eqb].
  unfold binary_round_aux, shr_fexp.
  cbn [Zdigits2 digits2_pos]. rewrite Hd. cbn [Pos.succ].
  unfold fexp, emin, Double.prec, Double.emax.
  replace (Z.max (54 + (e - ey - 53) - 53) (3 - 1024 - 53) - (e - ey - 53))
    with 1 by lia.
  cbn [shr iter_pos shr_record_of_loc shr_1 orb shr_m loc_of_shr_record
       round_nearest_even Zdigits2].
  rewrite Hd.
  replace (Z.max (53 + (e - ey - 53 + 1) - 53) (3 - 1024 - 53) - (e - ey - 53 + 1))
    with 0 by lia.
  cbn [shr shr_m].
  replace (e - ey - 53 + 1) with (e - ey - 52) by lia.
  destruct (Z.leb_spec (e - ey - 52) (1024 - 53)); [reflexivity|lia].
Qed.

Lemma digits2_pos_size (p : positive) : digits2_pos p = Pos.size p.
Proof.
  induction p; simpl; congruence.
Qed.

Lemma digits2_pos_log2 (p : positive) : Z.pos (digits2_pos p) = Z.log2 (Z.pos p) + 1.
Proof.
  rewrite digits2_pos_size.
  destruct p; simpl; rewrite ?Pos2Z.inj_succ; lia.
Qed.

Lemma bounded_mantissa (m : positive) :
  digits2_pos m = 53%positive -> Z.pos m < 2 ^ 53.
Proof.
  intro Hd. pose proof (digits2_pos_log2 m) as H. rewrite Hd in H.
  apply Z.log2_lt_pow2; lia.
Qed.

(** The double of a non-zero integer below 2^53 is normal. *)
Lemma ofInt_normal (n : Z) :
  n <> 0 -> Z.abs n < 2 ^ 53 ->
  exists m e,
    Double.ofInt n = S754_finite (n <? 0) m e /\
    digits2_pos m = 53%positive /\ -52 <= e <= 0 /\
    Z.pos m = Z.abs n * 2 ^ (- e).
Proof.
  intros Hn Hb. unfold Double.ofInt.
  destruct (Z.eqb_spec n 0) as [|_]; [contradiction|].
  assert (Ha : 0 < Z.abs n) by lia.
  assert (Hl : 0 <= Z.log2 (Z.abs n) < 53).
  { split; [apply Z.log2_nonneg|]. apply Z.log2_lt_pow2; lia. }
  set (k := 52 - Z.log2 (Z.abs n)) in *.
  assert (Hp : 0 < Z.abs n * 2 ^ k) by (apply Z.mul_pos_pos; [lia|apply Z.pow_pos_nonneg; lia]).
  exists (Z.to_pos (Z.abs n * 2 ^ k)), (- k).
  split; [reflexivity|]. split; [|split; [lia|]].
  - apply Pos2Z.inj. rewrite digits2_pos_log2, Z2Pos.id by exact Hp.
    rewrite Z.log2_mul_pow2 by lia. lia.
  - rewrite Z2Pos.id by exact Hp. now rewrite Z.opp_involutive.
Qed.


(** The integer [Math.round] computes from a normal double with a negative
    exponent is below 2^53. *)
Lemma round_quotient_bound (s : bool) (m : positive) (e : Z) :
  digits2_pos m = 53%positive -> e < 0 ->
  Z.abs ((2 * cond_Zopp s (Z.pos m) + 2 ^ (- e)) / 2 ^ (1 - e)) < 2 ^ 53.
Proof.
  intros Hd He. pose proof (bounded_mantissa m Hd) as Hm.
  change (2 ^ 53) with 9007199254740992 in *.
  replace (1 - e) with (1 + - e) by lia.
  rewrite Z.pow_add_r by lia. change (2 ^ 1) with 2.
  assert (P : 2 <= 2 ^ (- e)).
  { change 2 with (2 ^ 1) at 1. apply Z.pow_le_mono_r; lia. }
  generalize dependent (2 ^ (- e)). intros d P.
  assert (Ha : - 18014398509481984 < 2 * cond_Zopp s (Z.pos m) + d
               < 18014398509481984 + d).
  { destruct s; unfold cond_Zopp; lia. }
  generalize dependent (2 * cond_Zopp s (Z.pos m) + d). intros a Ha.
  assert (U : a / (2 * d) < 9007199254740992).
  { apply Z.div_lt_upper_bound; lia. }
  assert (L : - 9007199254740991 <= a / (2 * d)).
  { apply Z.div_le_lower_bound; lia. }
  lia.
Qed.

End PowersOfTwo.





(** ** Faces against face offsets *)

Lemma getBlockFaces_returns (block : ICFBlock.t) :
  In (ICFBlock.type block) catalogTypes ->
  exists faces, getBlockFaces block = Returns faces.
Proof.
  destruct block as [id type core pos rot]. simpl.
  unfold getBlockFaces, getBlockBounds; simpl ICFBlock.type.
  intros [H|[H|[H|[H|[H|[H|[]]]]]]]; subst type;
    cbn [ICF_BLOCK_CATALOG String.eqb Ascii.eqb Bool.eqb isStraight orb bind];
    repeat match goal with
    | |- context [if ?c then _ else _] => destruct c
    end; eexists; reflexivity.
Qed.

(** For the straight categories and for corner-90, at every rotation, the
    faces of a block at [P] are its face offsets moved to [P]. *)
Lemma faces_are_translated_offsets (block : ICFBlock.t) :
  isStraight (ICFBlock.type block) = true \/ ICFBlock.type block = "corner90" ->
  In (ICFBlock.type block) catalogTypes ->
  exists faces offsets,
    getBlockFaces block = Returns faces /\
    getBlockFaceOffsets (ICFBlock.type block) (ICFBlock.coreThickness block)
      (ICFBlock.rotation block) = Returns offsets /\
    Forall2 face_eq faces (map (translate (ICFBlock.position block)) offsets).
Proof.
  destruct block as [id type core pos rot]. simpl.
  unfold getBlockFaces, getBlockFaceOffsets; simpl ICFBlock.type.
  intros Hkind [H|[H|[H|[H|[H|[H|[]]]]]]]; subst type;
    try (destruct Hkind; discriminate);
    cbn [ICF_BLOCK_CATALOG String.eqb Ascii.eqb Bool.eqb isStraight orb bind
         ICFBlock.coreThickness ICFBlock.position ICFBlock.rotation];
    repeat match goal with
    | |- context [if ?c then _ else _] => destruct c
    end;
    (do 2 eexists; split; [reflexivity|split; [reflexivity|]]);
    simpl map; repeat constructor; simpl; halves.
Qed.

Lemma round_trip_straight_corner90 (A : ICFBlock.t) (id type : string)
    (core : ICFCoreThickness) (rot y : Q) :
  isStraight type = true \/ type = "corner90" ->
  In type catalogTypes ->
  roundTripHolds A id type core rot y.
Proof.
  intros Hkind Hcat exFaces offsets exFace newFace _ Hoff _ Hex Hin Hnew s B
         faces f Hfaces Hf Hfo.
  subst B s. unfold solveFacePair in Hfaces. rewrite Hex in Hfaces.
  unfold getBlockFaces in Hfaces. unfold getBlockFaceOffsets in Hoff.
  simpl ICFBlock.type in Hfaces.
  destruct Hcat as [H|[H|[H|[H|[H|[H|[]]]]]]]; subst type;
    try (destruct Hkind; discriminate);
    cbn [ICF_BLOCK_CATALOG String.eqb Ascii.eqb Bool.eqb isStraight orb bind
         ICFBlock.coreThickness ICFBlock.position ICFBlock.rotation
         fst snd THREE.x THREE.z] in Hfaces, Hoff;
    repeat match type of Hoff with
    | context [if ?c then _ else _] => destruct c
    end;
    injection Hoff as <-; injection Hfaces as <-;
    simpl in Hin; simpl in Hf;
    repeat match goal with
    | H : _ \/ _ |- _ => destruct H
    | H : False |- _ => destruct H
    end; subst; try discriminate; simpl; halves.
Qed.

(** C3 at corner-45: the round trip breaks.  The face offsets of a
    corner-45 block are the fixed rectangle (24 and 7 either side of the
    centre) while its faces are the sides of its bounding square, which
    starts at the centre.  Solving the +X face of the standard block at the
    origin (plane 24) against the -X offset (-24) puts the new block at
    x = 48, and there its -X face is in the plane 48, not 24. *)
Theorem corner45_round_trip_breaks :
  ~ roundTripHolds (originBlock "A") "B" "corner45" core8 0 0.
Proof.
  unfold roundTripHolds. intro H.
  specialize (H _ _ _ _ eq_refl eq_refl
                (or_intror (or_introl eq_refl)) eq_refl
                (or_introl eq_refl) eq_refl).
  specialize (H _ _ eq_refl (or_introl eq_refl) eq_refl).
  vm_compute in H. discriminate H.
Qed.

(** The same mismatch seen on the lists: at no rotation are the faces of a
    corner-45 block its face offsets moved to its centre. *)
Lemma corner45_faces_not_translated_offsets (id : string)
    (core : ICFCoreThickness) (pos : THREE.Vector3) (rot : Q) :
  exists faces offsets,
    getBlockFaces (ICFBlock.mk id "corner45" core pos rot) = Returns faces /\
    getBlockFaceOffsets "corner45" core rot = Returns offsets /\
    ~ Forall2 face_eq faces (map (translate pos) offsets).
Proof.
  unfold getBlockFaces, getBlockFaceOffsets, getBlockBounds.
  cbn [ICF_BLOCK_CATALOG String.eqb Ascii.eqb Bool.eqb isStraight orb bind
       ICFBlock.type ICFBlock.coreThickness ICFBlock.position ICFBlock.rotation].
  repeat match goal with
  | |- context [if ?c then _ else _] => destruct c
  end;
  (do 2 eexists; split; [reflexivity|split; [reflexivity|]]);
  intro F; inversion F as [|? ? ? ? [Hx _] _]; subst;
  simpl in Hx; halves.
Qed.

(** ** The search loop *)

Section SearchLoops.

Variable rawPosition : THREE.Vector3.
Variable newFaceOffsets : list FaceOffset.t.

(** The loop returns as soon as every existing block has a catalog
    category. *)
Lemma existingBlocksLoop_returns (existingBlocks : list ICFBlock.t) :
  Forall (fun b => In (ICFBlock.type b) catalogTypes) existingBlocks ->
  forall st, exists st',
    existingBlocksLoop rawPosition newFaceOffsets existingBlocks st = Returns st'.
Proof.
  induction 1 as [|b rest Hb _ IH]; intro st; simpl.
  - eauto.
  - destruct (getBlockFaces_returns b Hb) as [fs ->]. simpl. apply IH.
Qed.

(** A block without faces is skipped. *)
Lemma existingBlocksLoop_skip (before after : list ICFBlock.t) (b : ICFBlock.t) :
  getBlockFaces b = Returns [] ->
  forall st,
    existingBlocksLoop rawPosition newFaceOffsets (before ++ b :: after) st =
    existingBlocksLoop rawPosition newFaceOffsets (before ++ after) st.
Proof.
  intro F. induction before as [|a before IH]; intro st; simpl.
  - rewrite F. reflexivity.
  - destruct (getBlockFaces a); simpl; auto.
Qed.

End SearchLoops.

(** With no face offsets the loop changes nothing. *)
Lemma blockFacesLoop_no_offsets (rawPosition : THREE.Vector3) (b : ICFBlock.t)
    (exFaces : list BlockFace.t) (st : SnapState.t) :
  blockFacesLoop rawPosition [] b exFaces st = st.
Proof.
  unfold blockFacesLoop. induction exFaces; simpl; auto.
Qed.

Lemma existingBlocksLoop_no_offsets (rawPosition : THREE.Vector3)
    (existingBlocks : list ICFBlock.t) (st : SnapState.t) :
  Forall (fun b => In (ICFBlock.type b) catalogTypes) existingBlocks ->
  existingBlocksLoop rawPosition [] existingBlocks st = Returns st.
Proof.
  induction 1 as [|b rest Hb _ IH]; simpl; trivial.
  destruct (getBlockFaces_returns b Hb) as [fs ->]. simpl.
  now rewrite blockFacesLoop_no_offsets.
Qed.

(** ** Returning calls *)

Lemma getBlockFaceOffsets_returns (type : string) (core : ICFCoreThickness)
    (rotation : Q) :
  In type catalogTypes ->
  exists offsets, getBlockFaceOffsets type core rotation = Returns offsets.
Proof.
  unfold getBlockFaceOffsets.
  intros [H|[H|[H|[H|[H|[H|[]]]]]]]; subst type;
    cbn [ICF_BLOCK_CATALOG String.eqb Ascii.eqb Bool.eqb isStraight orb];
    repeat match goal with
    | |- context [if ?c then _ else _] => destruct c
    end; eexists; reflexivity.
Qed.

(** On catalog categories [snapBlockPosition] returns. *)
Lemma snapBlockPosition_returns (rawPosition : THREE.Vector3) (blockType : string)
    (core : ICFCoreThickness) (rotation : Q) (existingBlocks : list ICFBlock.t)
    (gridSize : Q) :
  In blockType catalogTypes ->
  Forall (fun b => In (ICFBlock.type b) catalogTypes) existingBlocks ->
  exists r,
    snapBlockPosition rawPosition blockType core rotation existingBlocks gridSize
      = Returns r.
Proof.
  intros Hty Hall. unfold snapBlockPosition.
  destruct (getBlockFaceOffsets_returns blockType core rotation Hty) as [offs ->].
  simpl.
  destruct (existingBlocksLoop_returns rawPosition offs existingBlocks Hall
              (SnapState.mk rawPosition None false None None)) as [st ->].
  simpl. eauto.
Qed.

(** ** Comparison of doubles *)

Lemma ltb_irrefl (a : Double.t) : Double.ltb a a = false.
Proof.
  unfold Double.ltb, SFltb.
  destruct a as [s|s| |s m e]; simpl; trivial.
  - destruct s; reflexivity.
  - destruct s; rewrite Z.compare_refl, Pos.compare_cont_refl; reflexivity.
Qed.

Lemma ltb_trans (a b c : Double.t) :
  Double.ltb a b = true -> Double.ltb b c = true -> Double.ltb a c = true.
Proof.
  unfold Double.ltb, SFltb.
  destruct a as [sa|sa| |sa ma ea], b as [sb|sb| |sb mb eb],
           c as [sc|sc| |sc mc ec]; simpl;
    try destruct sa; try destruct sb; try destruct sc;
    try discriminate; trivial.
  all: repeat match goal with
       | |- context [Z.compare ?u ?v] =>
         destruct (Z.compare_spec u v); subst
       end; try discriminate; trivial; try lia.
  all: fold (Pos.compare ma mb); fold (Pos.compare mb mc); fold (Pos.compare ma mc).
  all: repeat match goal with
       | |- context [Pos.compare ?u ?v] =>
         destruct (Pos.compare_spec u v); subst
       end; simpl; try discriminate; trivial; try lia.
Qed.

Lemma ltb_Infinity (a b : Double.t) :
  Double.ltb a b = true -> Double.ltb a Double.Infinity = true.
Proof.
  unfold Double.ltb, SFltb, Double.Infinity.
  destruct a as [sa|sa| |sa ma ea], b as [sb|sb| |sb mb eb]; simpl;
    try destruct sa; try destruct sb; trivial; discriminate.
Qed.

(** ** The search loop on doubles *)

Section DoubleSearchInvariant.

Import BlockSnapping.

Variable rawPosition : Vector3.

Lemma double_searchInv_ext (seen seen' : FacePair -> Prop) (st : SnapState.t) :
  (forall t, seen t <-> seen' t) ->
  searchInv rawPosition seen st -> searchInv rawPosition seen' st.
Proof.
  intros E. unfold searchInv.
  destruct (SnapState.snappedToBlock st).
  - intros (H1 & t & H3 & H4 & H5 & H6 & H7 & H8 & H9).
    split; trivial.
    exists t. repeat split; trivial.
    + now apply E.
    + intros t' Ht'. apply H9. now apply E.
  - intros (H1 & H2 & H3 & H4). repeat split; trivial.
    intros t Ht. apply H4. now apply E.
Qed.

Lemma double_searchInv_init :
  searchInv rawPosition (fun _ => False)
            (SnapState.mk rawPosition Double.Infinity false None None).
Proof.
  unfold searchInv. simpl. repeat split; trivial. intros t [].
Qed.

Lemma double_facePairStep_inv (seen : FacePair -> Prop) (st : SnapState.t)
    (b : ICFBlock.t) (ex : BlockFace.t) (nw : FaceOffset.t) :
  searchInv rawPosition seen st ->
  searchInv rawPosition (fun t => seen t \/ t = mkFacePair b ex nw)
            (facePairStep rawPosition b ex st nw).
Proof.
  intro I. unfold facePairStep.
  destruct (validPair (BlockFace.orientation ex) (FaceOffset.orientation nw)) eqn:V;
    cbn [negb].
  2:{ (* not an opposing pair: [continue] *)
    unfold searchInv in *.
    destruct (SnapState.snappedToBlock st).
    - destruct I as (H1 & t & H3 & H4 & H5 & H6 & H7 & H8 & H9).
      split; trivial. exists t. repeat split; auto.
      intros t' [Ht' | ->] Hv; auto.
      unfold pairValid in Hv. simpl in Hv. congruence.
    - destruct I as (H1 & H2 & H3 & H4). repeat split; trivial.
      intros t [Ht | ->] Hv; auto.
      unfold pairValid in Hv. simpl in Hv. congruence. }
  set (new := mkFacePair b ex nw).
  change (dist rawPosition (solveFacePair ex nw)) with (pairDist rawPosition new).
  destruct (Double.ltb (pairDist rawPosition new) SNAP_THRESHOLD) eqn:Hthr; cbn [andb].
  - destruct (Double.ltb (pairDist rawPosition new) (SnapState.closestDistance st))
      eqn:Hcl.
    + (* accepted *)
      unfold searchInv. cbn [SnapState.closestDistance SnapState.snappedToBlock
        SnapState.bestSnapPosition SnapState.snappedBlockId SnapState.snapEdge].
      split; trivial.
      exists new. repeat split; auto.
      intros t' [Ht' | ->] Hv; [|apply ltb_irrefl].
      destruct (Double.ltb (pairDist rawPosition t') (pairDist rawPosition new))
        eqn:Hlt; trivial.
      unfold searchInv in I.
      destruct (SnapState.snappedToBlock st).
      * destruct I as (_ & t & _ & _ & Hc & _ & _ & _ & H9).
        rewrite Hc in Hcl.
        rewrite <- (H9 t' Ht' Hv). symmetry. eapply ltb_trans; eassumption.
      * destruct I as (_ & _ & _ & H4).
        rewrite <- (H4 t' Ht' Hv). symmetry. eapply ltb_trans; eassumption.
    + (* within the threshold but not closer than the best so far *)
      unfold searchInv in *.
      destruct (SnapState.snappedToBlock st).
      * destruct I as (H1 & t & H3 & H4 & H5 & H6 & H7 & H8 & H9).
        split; trivial. exists t. repeat split; auto.
        intros t' [Ht' | ->] Hv; auto. now rewrite <- H5.
      * destruct I as (H1 & _). rewrite H1 in Hcl.
        rewrite (ltb_Infinity _ _ Hthr) in Hcl. discriminate.
  - (* at the threshold or beyond *)
    unfold searchInv in *.
    destruct (SnapState.snappedToBlock st).
    + destruct I as (H1 & t & H3 & H4 & H5 & H6 & H7 & H8 & H9).
      split; trivial. exists t. repeat split; auto.
      intros t' [Ht' | ->] Hv; auto.
      destruct (Double.ltb (pairDist rawPosition new) (pairDist rawPosition t))
        eqn:Hlt; trivial.
      rewrite H5 in H1. rewrite <- Hthr. symmetry. eapply ltb_trans; eassumption.
    + destruct I as (H1 & H2 & H3 & H4). repeat split; trivial.
      intros t [Ht | ->] Hv; auto.
Qed.

End DoubleSearchInvariant.

Lemma double_getBlockFaces_returns (block : BlockSnapping.ICFBlock.t) :
  In (BlockSnapping.ICFBlock.type block) catalogTypes ->
  exists faces, BlockSnapping.getBlockFaces block = Returns faces.
Proof.
  unfold BlockSnapping.getBlockFaces, BlockSnapping.getBlockBounds.
  destruct block as [id type core pos rot]. simpl.
  intros [H|[H|[H|[H|[H|[H|[]]]]]]]; subst type;
    cbn [BlockSnapping.ICF_BLOCK_CATALOG String.eqb Ascii.eqb Bool.eqb isStraight orb];
    repeat match goal with
    | |- context [if ?c then _ else _] => destruct c
    end; eexists; reflexivity.
Qed.

Lemma double_getBlockFaceOffsets_returns (type : string) (core : ICFCoreThickness)
    (rotation : Double.t) :
  In type catalogTypes ->
  exists offsets, BlockSnapping.getBlockFaceOffsets type core rotation = Returns offsets.
Proof.
  unfold BlockSnapping.getBlockFaceOffsets.
  intros [H|[H|[H|[H|[H|[H|[]]]]]]]; subst type;
    cbn [BlockSnapping.ICF_BLOCK_CATALOG String.eqb Ascii.eqb Bool.eqb isStraight orb];
    repeat match goal with
    | |- context [if ?c then _ else _] => destruct c
    end; eexists; reflexivity.
Qed.

Section DoubleSearchLoops.

Import BlockSnapping.

Variable rawPosition : Vector3.
Variable newFaceOffsets : list FaceOffset.t.

Lemma double_offsetsLoop_inv (b : ICFBlock.t) (ex : BlockFace.t)
    (offsets : list FaceOffset.t) :
  forall (seen : FacePair -> Prop) (st : SnapState.t),
    searchInv rawPosition seen st ->
    searchInv rawPosition
      (fun t => seen t \/ exists nw, In nw offsets /\ t = mkFacePair b ex nw)
      (fold_left (facePairStep rawPosition b ex) offsets st).
Proof.
  induction offsets as [|nw offsets IH]; intros seen st I; simpl.
  - eapply double_searchInv_ext; [|exact I].
    intro t. split; [auto|]. intros [H|[nw [[] _]]]. exact H.
  - eapply double_searchInv_ext;
      [|apply IH, (double_facePairStep_inv rawPosition seen st b ex nw), I].
    intro t. split.
    + intros [[H|H]|[nw' [H1 H2]]]; eauto 6.
    + intros [H|[nw' [[<-|H1] H2]]]; eauto 6.
Qed.

Lemma double_blockFacesLoop_inv (b : ICFBlock.t) (exFaces : list BlockFace.t) :
  forall (seen : FacePair -> Prop) (st : SnapState.t),
    searchInv rawPosition seen st ->
    searchInv rawPosition
      (fun t => seen t \/
                exists ex nw, In ex exFaces /\ In nw newFaceOffsets /\
                              t = mkFacePair b ex nw)
      (blockFacesLoop rawPosition newFaceOffsets b exFaces st).
Proof.
  unfold blockFacesLoop.
  induction exFaces as [|ex exFaces IH]; intros seen st I; simpl.
  - eapply double_searchInv_ext; [|exact I].
    intro t. split; [auto|]. intros [H|[ex [nw [[] _]]]]. exact H.
  - eapply double_searchInv_ext;
      [|apply IH, (double_offsetsLoop_inv b ex newFaceOffsets seen st), I].
    intro t. split.
    + intros [[H|[nw [H1 H2]]]|[ex' [nw [H1 [H2 H3]]]]]; eauto 9.
    + intros [H|[ex' [nw [[<-|H1] [H2 H3]]]]]; eauto 9.
Qed.

Lemma double_existingBlocksLoop_inv (existingBlocks : list ICFBlock.t) :
  forall (seen : FacePair -> Prop) (st st' : SnapState.t),
    searchInv rawPosition seen st ->
    existingBlocksLoop rawPosition newFaceOffsets existingBlocks st = Returns st' ->
    searchInv rawPosition (fun t => seen t \/ triedPair newFaceOffsets existingBlocks t) st'.
Proof.
  induction existingBlocks as [|b rest IH]; intros seen st st' I E; simpl in E.
  - injection E as <-. eapply double_searchInv_ext; [|exact I].
    intro t. split; [auto|]. intros [H|[[] _]]. exact H.
  - destruct (getBlockFaces b) as [exFaces|e] eqn:F; simpl in E; [|discriminate].
    eapply double_searchInv_ext;
      [|eapply IH; [apply (double_blockFacesLoop_inv b exFaces seen st), I|exact E]].
    intro t. unfold triedPair. split.
    + intros [[H|[ex [nw [H1 [H2 ->]]]]]|[H1 [H2 H3]]]; simpl; eauto 9.
    + intros [H|[[Hb|H1] [[fs [H2 H3]] H4]]].
      * auto.
      * left. right. destruct t as [b' ex nw]; simpl in *; subst b'.
        rewrite F in H2. injection H2 as <-.
        exists ex, nw. auto.
      * right. eauto 9.
Qed.

Lemma double_existingBlocksLoop_returns (existingBlocks : list ICFBlock.t) :
  Forall (fun b => In (ICFBlock.type b) catalogTypes) existingBlocks ->
  forall st, exists st',
    existingBlocksLoop rawPosition newFaceOffsets existingBlocks st = Returns st'.
Proof.
  induction 1 as [|b rest Hb _ IH]; intro st; simpl.
  - eauto.
  - destruct (double_getBlockFaces_returns b Hb) as [fs ->]. simpl. apply IH.
Qed.

End DoubleSearchLoops.

Lemma double_snapBlockPosition_returns (rawPosition : BlockSnapping.Vector3)
    (blockType : string) (core : ICFCoreThickness) (rotation : Double.t)
    (existingBlocks : list BlockSnapping.ICFBlock.t) (gridSize : Double.t) :
  In blockType catalogTypes ->
  Forall (fun b => In (BlockSnapping.ICFBlock.type b) catalogTypes) existingBlocks ->
  exists r,
    BlockSnapping.snapBlockPosition rawPosition blockType core rotation
      existingBlocks gridSize = Returns r.
Proof.
  intros Hty Hall. unfold BlockSnapping.snapBlockPosition.
  destruct (double_getBlockFaceOffsets_returns blockType core rotation Hty) as [offs ->].
  simpl.
  destruct (double_existingBlocksLoop_returns rawPosition offs existingBlocks Hall
              (BlockSnapping.SnapState.mk rawPosition Double.Infinity false None None))
    as [st ->].
  simpl. eauto.
Qed.

(** What a returning call has done, in terms of the distances it computed:
    either no valid pair has [dist < 150] and the result is the grid
    fallback, or the result is a snap to a valid pair with [dist < 150]
    that no valid pair beats. *)
Lemma double_snapBlockPosition_cases (rawPosition : BlockSnapping.Vector3)
    (blockType : string) (core : ICFCoreThickness) (rotation : Double.t)
    (existingBlocks : list BlockSnapping.ICFBlock.t) (gridSize : Double.t)
    (r : BlockSnapping.SnapResult.t) :
  BlockSnapping.snapBlockPosition rawPosition blockType core rotation
    existingBlocks gridSize = Returns r ->
  (r = BlockSnapping.gridResult rawPosition gridSize /\
   forall t, BlockSnapping.validFacePair blockType core rotation existingBlocks t ->
             Double.ltb (BlockSnapping.pairDist rawPosition t) 150%D = false) \/
  (exists t,
     BlockSnapping.validFacePair blockType core rotation existingBlocks t /\
     r = BlockSnapping.snappedResult rawPosition t /\
     Double.ltb (BlockSnapping.pairDist rawPosition t) 150%D = true /\
     forall t', BlockSnapping.validFacePair blockType core rotation existingBlocks t' ->
                Double.ltb (BlockSnapping.pairDist rawPosition t')
                           (BlockSnapping.pairDist rawPosition t) = false).
Proof.
  unfold BlockSnapping.snapBlockPosition, BlockSnapping.validFacePair.
  destruct (BlockSnapping.getBlockFaceOffsets blockType core rotation) as [offs|e];
    simpl; [|discriminate].
  destruct (BlockSnapping.existingBlocksLoop rawPosition offs existingBlocks _)
    as [st|e] eqn:E; simpl; [|discriminate].
  intro R. injection R as <-.
  pose proof (double_existingBlocksLoop_inv rawPosition offs existingBlocks _ _ _
                (double_searchInv_init rawPosition) E) as I.
  apply (double_searchInv_ext rawPosition _ (BlockSnapping.triedPair offs existingBlocks))
    in I; [|intro t; tauto].
  unfold BlockSnapping.searchInv in I. destruct st as [best closest snapped sid edge].
  simpl in *. destruct snapped.
  - right. destruct I as (H2 & t & H3 & H4 & -> & -> & -> & -> & H9).
    exists t. repeat split; eauto.
    intros t' (offs' & Ho & Ht & Hv). injection Ho as <-. auto.
  - left. destruct I as (-> & -> & -> & H4). split; [reflexivity|].
    intros t (offs' & Ho & Ht & Hv). injection Ho as <-. auto.
Qed.

(** ** The snap threshold, on the computed distance *)

Lemma double_plusXPair_valid :
  BlockSnapping.validFacePair "standard" core8 0%D [BlockSnapping.originBlock "A"]
    BlockSnapping.plusXPair.
Proof.
  eexists. split; [reflexivity|]. split; [|reflexivity].
  split; [now left|]. split.
  - eexists. split; [reflexivity|]. right. left. reflexivity.
  - left. reflexivity.
Defined.

(** C5: the snap threshold is strict on the distance the code computes,
    [dist = Math.sqrt(Math.pow(dx, 2) + Math.pow(dz, 2))] in double
    arithmetic.  A call on blocks of catalog categories returns a result
    such that: a valid face-pair solution whose computed distance is exactly
    150 is never the accepted one; when no valid solution has a computed
    distance below 150, the result is the grid fallback; and when some valid
    solution has one, the call snaps, to a valid solution whose computed
    distance is below 150 and which no valid solution beats.  At raw
    position (198, 0, 0), 150 away from the solution (48, 0) of a block at
    the origin, the result is the grid position (200, 0, 0); at
    (197.999, 0, 0), 149.999 away, it is the snap to (48, 0, 0). *)
Theorem snap_threshold_on_computed_distance (rawPosition : BlockSnapping.Vector3)
    (blockType : string) (core : ICFCoreThickness) (rotation : Double.t)
    (existingBlocks : list BlockSnapping.ICFBlock.t) (gridSize : Double.t)
    (Hty : In blockType catalogTypes)
    (Hall : Forall (fun b => In (BlockSnapping.ICFBlock.type b) catalogTypes)
                   existingBlocks) :
  (exists r,
     BlockSnapping.snapBlockPosition rawPosition blockType core rotation
       existingBlocks gridSize = Returns r /\
     (forall t,
        BlockSnapping.validFacePair blockType core rotation existingBlocks t ->
        BlockSnapping.pairDist rawPosition t = 150%D ->
        ~ (BlockSnapping.SnapResult.snappedToBlock r = true /\
           BlockSnapping.SnapResult.position r =
             BlockSnapping.solutionPosition rawPosition t)) /\
     ((forall t,
         BlockSnapping.validFacePair blockType core rotation existingBlocks t ->
         Double.ltb (BlockSnapping.pairDist rawPosition t) 150%D = false) ->
      r = BlockSnapping.gridResult rawPosition gridSize) /\
     (forall t,
        BlockSnapping.validFacePair blockType core rotation existingBlocks t ->
        Double.ltb (BlockSnapping.pairDist rawPosition t) 150%D = true ->
        exists t',
          BlockSnapping.validFacePair blockType core rotation existingBlocks t' /\
          r = BlockSnapping.snappedResult rawPosition t' /\
          Double.ltb (BlockSnapping.pairDist rawPosition t') 150%D = true /\
          forall t'',
            BlockSnapping.validFacePair blockType core rotation existingBlocks t'' ->
            Double.ltb (BlockSnapping.pairDist rawPosition t'')
                       (BlockSnapping.pairDist rawPosition t') = false)) /\
  (BlockSnapping.pairDist (BlockSnapping.mkVector3 198 0 0)%D BlockSnapping.plusXPair
     = 150%D /\
   BlockSnapping.snapBlockPosition (BlockSnapping.mkVector3 198 0 0)%D "standard"
     core8 0%D [BlockSnapping.originBlock "A"] 8%D
     = Returns (BlockSnapping.SnapResult.mk (BlockSnapping.mkVector3 200 0 0)%D
                  false None None)) /\
  (BlockSnapping.pairDist (BlockSnapping.mkVector3 197.999 0 0)%D
     BlockSnapping.plusXPair = 149.999%D /\
   BlockSnapping.snapBlockPosition (BlockSnapping.mkVector3 197.999 0 0)%D "standard"
     core8 0%D [BlockSnapping.originBlock "A"] 8%D
     = Returns (BlockSnapping.SnapResult.mk (BlockSnapping.mkVector3 48 0 0)%D
                  true (Some "A") (Some left))).
Proof.
  split; [|split; split; vm_compute; reflexivity].
  destruct (double_snapBlockPosition_returns rawPosition blockType core rotation
              existingBlocks gridSize Hty Hall) as [r Hr].
  exists r. split; [exact Hr|].
  destruct (double_snapBlockPosition_cases _ _ _ _ _ _ _ Hr)
    as [[-> Hfar]|(t0 & Hv0 & -> & Hnear & Hmin)].
  - split; [|split].
    + intros t _ _ [Hs _]. discriminate Hs.
    + reflexivity.
    + intros t Hv Hlt. rewrite (Hfar t Hv) in Hlt. discriminate.
  - split; [|split].
    + intros t Hv Heq (_ & Hp). simpl in Hp.
      unfold BlockSnapping.solutionPosition in Hp. injection Hp as Hx Hz.
      assert (D : BlockSnapping.pairDist rawPosition t0 =
                  BlockSnapping.pairDist rawPosition t).
      { unfold BlockSnapping.pairDist, BlockSnapping.dist. now rewrite Hx, Hz. }
      rewrite D, Heq in Hnear. vm_compute in Hnear. discriminate.
    + intro Hfar. rewrite (Hfar t0 Hv0) in Hnear. discriminate.
    + intros t Hv Hlt. exists t0. auto.
Qed.

(** At raw position (198, 0, 0) the solution (48, 0) is exactly 150 away,
    and it is not accepted. *)
Lemma snap_threshold_on_computed_distance_witness :
  exists r,
    BlockSnapping.snapBlockPosition (BlockSnapping.mkVector3 198 0 0)%D "standard"
      core8 0%D [BlockSnapping.originBlock "A"] 8%D = Returns r /\
    ~ (BlockSnapping.SnapResult.snappedToBlock r = true /\
       BlockSnapping.SnapResult.position r =
         BlockSnapping.solutionPosition (BlockSnapping.mkVector3 198 0 0)%D
           BlockSnapping.plusXPair).
Proof.
  destruct (snap_threshold_on_computed_distance
              (BlockSnapping.mkVector3 198 0 0)%D "standard" core8 0%D
              [BlockSnapping.originBlock "A"] 8%D)
    as ((r & Hr & Hat & _) & _).
  - simpl. auto.
  - constructor; [simpl; auto|constructor].
  - exists r. split; [exact Hr|].
    apply (Hat BlockSnapping.plusXPair).
    + exact double_plusXPair_valid.
    + vm_compute. reflexivity.
Defined.

(** The claim as worded, on the exact distance, fails: the raw position
    (138, 0, 120 - 2^-46) is strictly less than 150 away from the valid
    solution (48, 0) of a block at the origin, the computed distance is
    150, and the call returns the grid position (136, 0, 120). *)
Lemma exact_distance_below_150_not_accepted :
  let rawPosition :=
    BlockSnapping.mkVector3 138%D 0%D (Double.sub 120%D (Double.ofDyadic 1 (-46))) in
  BlockSnapping.validFacePair "standard" core8 0%D [BlockSnapping.originBlock "A"]
    BlockSnapping.plusXPair /\
  BlockSnapping.exactDistSq rawPosition
    (BlockSnapping.pairSolution BlockSnapping.plusXPair) < 150 ^ 2 /\
  BlockSnapping.pairDist rawPosition BlockSnapping.plusXPair = 150%D /\
  BlockSnapping.snapBlockPosition rawPosition "standard" core8 0%D
    [BlockSnapping.originBlock "A"] 8%D
    = Returns (BlockSnapping.SnapResult.mk (BlockSnapping.mkVector3 136 0 120)%D
                 false None None).
Proof.
  split; [exact double_plusXPair_valid|].
  split; [vm_compute; reflexivity|].
  split; vm_compute; reflexivity.
Qed.

(** The other way round: a solution that is strictly more than 150 away
    can have a computed distance below 150.  Without the block at
    (-152, 0, -48) the call returns the grid position (40, 0, -16), with it
    the snap to (-104, 0, -48). *)
Example exact_distance_above_150_accepted :
  let rawPosition :=
    BlockSnapping.mkVector3 (Double.ofDyadic 2963126334901225 (-46)) 0%D
                            (Double.ofDyadic (-494502720412045) (-45)) in
  let block :=
    BlockSnapping.ICFBlock.mk "B" "standard" core8
      (BlockSnapping.mkVector3 (-152) 0 (-48))%D 0%D in
  BlockSnapping.snapBlockPosition rawPosition "standard" core8 0%D [] 8%D
    = Returns (BlockSnapping.SnapResult.mk (BlockSnapping.mkVector3 40 0 (-16))%D
                 false None None) /\
  BlockSnapping.snapBlockPosition rawPosition "standard" core8 0%D [block] 8%D
    = Returns (BlockSnapping.SnapResult.mk (BlockSnapping.mkVector3 (-104) 0 (-48))%D
                 true (Some "B") (Some left)) /\
  Double.ltb (BlockSnapping.dist rawPosition ((-104)%D, (-48)%D)) 150%D = true /\
  150 ^ 2 < BlockSnapping.exactDistSq rawPosition ((-104)%D, (-48)%D).
Proof.
  repeat split; vm_compute; reflexivity.
Qed.

(** The two placement scenarios give the same results on doubles: the snap
    to (48, 0, 0) with the edge "left", and the grid position
    (504, 0, 504). *)
Example snap_scenarios_on_doubles :
  BlockSnapping.snapBlockPosition (BlockSnapping.mkVector3 50 0 2)%D "standard" core8
    0%D [BlockSnapping.originBlock "A"] 8%D
    = Returns (BlockSnapping.SnapResult.mk (BlockSnapping.mkVector3 48 0 0)%D
                 true (Some "A") (Some left)) /\
  BlockSnapping.snapBlockPosition (BlockSnapping.mkVector3 500 0 500)%D "standard"
    core8 0%D [BlockSnapping.originBlock "A"] 8%D
    = Returns (BlockSnapping.SnapResult.mk (BlockSnapping.mkVector3 504 0 504)%D
                 false None None).
Proof.
  split; vm_compute; reflexivity.
Qed.

(** ** Corner-90 blocks at other rotations *)

Lemma other_rotation_tests (r : Q) :
  ~ validRotation r ->
  Qeq_bool r 0 = false /\ Qeq_bool r 90 = false /\
  Qeq_bool r 180 = false /\ Qeq_bool r 270 = false.
Proof.
  unfold validRotation. intro H.
  repeat split;
    match goal with
    | |- Qeq_bool ?a ?b = false =>
      destruct (Qeq_bool a b) eqn:E; trivial; apply Qeq_bool_eq in E; tauto
    end.
Qed.

(** C10: a corner-90 block whose rotation is none of 0, 90, 180, 270 has
    no faces and no face offsets (the rotation switch has no default case).
    So a search never snaps to such an existing block, whose presence in
    the list changes no result, and placing a corner-90 block at such a
    rotation takes the grid fallback. *)
Theorem corner90_other_rotation (block : ICFBlock.t)
    (Htype : ICFBlock.type block = "corner90")
    (Hrot : ~ validRotation (ICFBlock.rotation block)) :
  getBlockFaces block = Returns [] /\
  (forall core,
     getBlockFaceOffsets "corner90" core (ICFBlock.rotation block) = Returns []) /\
  (forall rawPosition blockType core rotation before after gridSize,
     snapBlockPosition rawPosition blockType core rotation
       (before ++ block :: after) gridSize =
     snapBlockPosition rawPosition blockType core rotation
       (before ++ after) gridSize) /\
  (forall rawPosition core existingBlocks gridSize,
     Forall (fun b => In (ICFBlock.type b) catalogTypes) existingBlocks ->
     snapBlockPosition rawPosition "corner90" core (ICFBlock.rotation block)
       existingBlocks gridSize = Returns (gridResult rawPosition gridSize)).
Proof.
  destruct (other_rotation_tests _ Hrot) as (R0 & R90 & R180 & R270).
  assert (F : getBlockFaces block = Returns []).
  { unfold getBlockFaces. rewrite Htype.
    cbn [ICF_BLOCK_CATALOG String.eqb Ascii.eqb Bool.eqb isStraight orb].
    now rewrite R0, R90, R180, R270. }
  assert (O : forall core,
             getBlockFaceOffsets "corner90" core (ICFBlock.rotation block)
             = Returns []).
  { intro core. unfold getBlockFaceOffsets.
    cbn [ICF_BLOCK_CATALOG String.eqb Ascii.eqb Bool.eqb isStraight orb].
    now rewrite R0, R90, R180, R270. }
  repeat split; trivial.
  - intros. unfold snapBlockPosition.
    destruct (getBlockFaceOffsets blockType core rotation); simpl; trivial.
    now rewrite existingBlocksLoop_skip.
  - intros rawPosition core existingBlocks gridSize Hall.
    unfold snapBlockPosition. rewrite O. simpl.
    now rewrite existingBlocksLoop_no_offsets.
Qed.

Lemma corner90_other_rotation_witness :
  getBlockFaces (ICFBlock.mk "c" "corner90" core8 (THREE.mkVector3 0 0 0) 45)
    = Returns [] /\
  snapBlockPosition (THREE.mkVector3 30 0 2) "corner90" core8 45
    [originBlock "A"] 8 = Returns (gridResult (THREE.mkVector3 30 0 2) 8).
Proof.
  pose proof (corner90_other_rotation
                (ICFBlock.mk "c" "corner90" core8 (THREE.mkVector3 0 0 0) 45)
                eq_refl) as H.
  assert (Hrot : ~ validRotation 45).
  { unfold validRotation. intros [H0|[H0|[H0|H0]]]; discriminate H0. }
  destruct (H Hrot) as (F & _ & _ & G).
  split; [exact F|].
  apply (G (THREE.mkVector3 30 0 2) core8 [originBlock "A"] 8).
  constructor; [simpl; auto|constructor].
Defined.

(** ** Footprints: further properties *)

(** The catalog categories, as cases. *)
Ltac by_category H :=
  destruct H as [H|[H|[H|[H|[H|[H|[]]]]]]]; subst.

(** Reduce the category dispatch of the geometry functions on a concrete
    category. *)
Ltac dispatch :=
  cbn [ICF_BLOCK_CATALOG String.eqb Ascii.eqb Bool.eqb isStraight orb bind
       ICFBlock.id ICFBlock.type ICFBlock.coreThickness ICFBlock.position
       ICFBlock.rotation ICFBlockSpec.getWidth ICFBlockSpec.length
       ICFBlockSpec.longLeg ICFBlockSpec.shortLeg THREE.x THREE.y THREE.z].

Ltac branches :=
  repeat match goal with
  | |- context [if ?c then _ else _] => destruct c
  end.

(** X1: turning a straight block (standard, taperTop, brickLedge,
    heightAdjuster) by a quarter exchanges the roles of X and Z in its
    bounding rectangle: the rectangle at 90 or 270 degrees of the block at
    (x, z) is, with X and Z exchanged, the rectangle at 0 or 180 degrees of
    the block at (z, x); every bound is the same double. *)
Theorem straight_quarter_turn_exchanges_axes (block : BlockSnapping.ICFBlock.t)
    (r0 r90 : Double.t)
    (Htype : isStraight (BlockSnapping.ICFBlock.type block) = true)
    (H0 : r0 = 0%D \/ r0 = 180%D)
    (H90 : r90 = 90%D \/ r90 = 270%D) :
  exists b0 b90,
    BlockSnapping.getBlockBounds
      (BlockSnapping.withRotation (BlockSnapping.mirrored block) r0) = Returns b0 /\
    BlockSnapping.getBlockBounds (BlockSnapping.withRotation block r90) = Returns b90 /\
    BlockSnapping.BlockBounds.minX b90 = BlockSnapping.BlockBounds.minZ b0 /\
    BlockSnapping.BlockBounds.maxX b90 = BlockSnapping.BlockBounds.maxZ b0 /\
    BlockSnapping.BlockBounds.minZ b90 = BlockSnapping.BlockBounds.minX b0 /\
    BlockSnapping.BlockBounds.maxZ b90 = BlockSnapping.BlockBounds.maxX b0 /\
    BlockSnapping.BlockBounds.rotation b0 = r0 /\
    BlockSnapping.BlockBounds.rotation b90 = r90.
Proof.
  destruct block as [id type core pos rot].
  unfold BlockSnapping.withRotation, BlockSnapping.mirrored. simpl in *.
  assert (E0 : Double.eqb r0 0%D || Double.eqb r0 180%D = true)
    by (destruct H0 as [-> | ->]; reflexivity).
  assert (E90 : Double.eqb r90 0%D || Double.eqb r90 180%D = false)
    by (destruct H90 as [-> | ->]; reflexivity).
  unfold BlockSnapping.getBlockBounds.
  cbn [BlockSnapping.ICFBlock.type BlockSnapping.ICFBlock.rotation
       BlockSnapping.ICFBlock.position BlockSnapping.ICFBlock.coreThickness].
  rewrite Htype, E0, E90.
  destruct (BlockSnapping.ICF_BLOCK_CATALOG type) as [spec|] eqn:C.
  - do 2 eexists. split; [reflexivity|]. split; [reflexivity|].
    simpl. repeat split.
  - exfalso. unfold isStraight in Htype. unfold BlockSnapping.ICF_BLOCK_CATALOG in C.
    repeat match type of C with
    | context [String.eqb type ?s] => destruct (String.eqb type s)
    end; discriminate.
Qed.

Lemma straight_quarter_turn_exchanges_axes_witness :
  exists b0 b90,
    BlockSnapping.getBlockBounds
      (BlockSnapping.withRotation
         (BlockSnapping.mirrored
            (BlockSnapping.ICFBlock.mk "A" "taperTop" core6
               (BlockSnapping.mkVector3 0.3 0 16)%D 0%D)) 180%D) = Returns b0 /\
    BlockSnapping.getBlockBounds
      (BlockSnapping.withRotation
         (BlockSnapping.ICFBlock.mk "A" "taperTop" core6
            (BlockSnapping.mkVector3 0.3 0 16)%D 0%D) 90%D) = Returns b90 /\
    BlockSnapping.BlockBounds.minX b90 = BlockSnapping.BlockBounds.minZ b0 /\
    BlockSnapping.BlockBounds.maxX b90 = BlockSnapping.BlockBounds.maxZ b0 /\
    BlockSnapping.BlockBounds.minZ b90 = BlockSnapping.BlockBounds.minX b0 /\
    BlockSnapping.BlockBounds.maxZ b90 = BlockSnapping.BlockBounds.maxX b0 /\
    BlockSnapping.BlockBounds.rotation b0 = 180%D /\
    BlockSnapping.BlockBounds.rotation b90 = 90%D.
Proof.
  apply (straight_quarter_turn_exchanges_axes
           (BlockSnapping.ICFBlock.mk "A" "taperTop" core6
              (BlockSnapping.mkVector3 0.3 0 16)%D 0%D) 180%D 90%D).
  - reflexivity.
  - right. reflexivity.
  - left. reflexivity.
Defined.


Lemma validRotation_tests (r : Q) :
  validRotation r ->
  Qeq_bool r 0 = true \/ Qeq_bool r 90 = true \/
  Qeq_bool r 180 = true \/ Qeq_bool r 270 = true.
Proof.
  intros [H|[H|[H|H]]]; apply Qeq_eq_bool in H; auto.
Qed.

(** X2: a block of a catalog category at one of the four rotations has
    exactly four faces and four face offsets, one per orientation, both
    listed in the order -X, +X, -Z, +Z. *)
Theorem four_faces_one_per_orientation (block : ICFBlock.t)
    (Htype : In (ICFBlock.type block) catalogTypes)
    (Hrot : validRotation (ICFBlock.rotation block)) :
  exists faces offsets,
    getBlockFaces block = Returns faces /\
    getBlockFaceOffsets (ICFBlock.type block) (ICFBlock.coreThickness block)
      (ICFBlock.rotation block) = Returns offsets /\
    map BlockFace.orientation faces = orientationOrder /\
    map FaceOffset.orientation offsets = orientationOrder.
Proof.
  destruct block as [id type core pos rot]. simpl in *.
  apply validRotation_tests in Hrot.
  unfold getBlockFaces, getBlockFaceOffsets, getBlockBounds.
  by_category Htype; dispatch; branches;
    try (do 2 eexists; repeat split; reflexivity).
  all: exfalso; intuition discriminate.
Qed.

Lemma four_faces_one_per_orientation_witness :
  exists faces offsets,
    getBlockFaces (ICFBlock.mk "c" "corner90" core6 (THREE.mkVector3 10 0 20) 270)
      = Returns faces /\
    getBlockFaceOffsets "corner90" core6 270 = Returns offsets /\
    map BlockFace.orientation faces = orientationOrder /\
    map FaceOffset.orientation offsets = orientationOrder.
Proof.
  apply (four_faces_one_per_orientation
           (ICFBlock.mk "c" "corner90" core6 (THREE.mkVector3 10 0 20) 270)).
  - simpl. auto.
  - right. right. right. reflexivity.
Defined.



(** The faces of a block do not depend on its height. *)
Lemma getBlockFaces_atHeight (h : Double.t) (b : BlockSnapping.ICFBlock.t) :
  BlockSnapping.getBlockFaces (BlockSnapping.atHeight h b) =
  BlockSnapping.getBlockFaces b.
Proof.
  destruct b as [id type core [px py pz] rot]. reflexivity.
Qed.

Lemma existingBlocksLoop_atHeight (rawPosition : BlockSnapping.Vector3)
    (offsets : list BlockSnapping.FaceOffset.t)
    (h : BlockSnapping.ICFBlock.t -> Double.t)
    (existingBlocks : list BlockSnapping.ICFBlock.t) :
  forall st,
    BlockSnapping.existingBlocksLoop rawPosition offsets
      (map (fun b => BlockSnapping.atHeight (h b) b) existingBlocks) st =
    BlockSnapping.existingBlocksLoop rawPosition offsets existingBlocks st.
Proof.
  induction existingBlocks as [|b rest IH]; intro st; simpl; trivial.
  rewrite getBlockFaces_atHeight.
  destruct (BlockSnapping.getBlockFaces b) as [faces|e]; simpl; [apply IH|reflexivity].
Qed.

(** X4: snapping happens in the ground plane only.  The bounding rectangle
    and the faces of a block do not depend on its height, and the result of
    [snapBlockPosition] is the same whatever the heights of the existing
    blocks are: a block is snapped to a neighbour several courses above or
    below it exactly as to one at its own level, and the result keeps the
    raw height or rounds it to the module 16, never a neighbour's height. *)
Theorem snap_ignores_block_heights (rawPosition : BlockSnapping.Vector3)
    (blockType : string) (core : ICFCoreThickness) (rotation : Double.t)
    (existingBlocks : list BlockSnapping.ICFBlock.t) (gridSize : Double.t)
    (h : BlockSnapping.ICFBlock.t -> Double.t) :
  (forall b,
     BlockSnapping.getBlockBounds (BlockSnapping.atHeight (h b) b) =
       BlockSnapping.getBlockBounds b /\
     BlockSnapping.getBlockFaces (BlockSnapping.atHeight (h b) b) =
       BlockSnapping.getBlockFaces b) /\
  BlockSnapping.snapBlockPosition rawPosition blockType core rotation
    (map (fun b => BlockSnapping.atHeight (h b) b) existingBlocks) gridSize =
  BlockSnapping.snapBlockPosition rawPosition blockType core rotation
    existingBlocks gridSize /\
  (forall r,
     BlockSnapping.snapBlockPosition rawPosition blockType core rotation
       existingBlocks gridSize = Returns r ->
     BlockSnapping.y (BlockSnapping.SnapResult.position r) =
       (if BlockSnapping.SnapResult.snappedToBlock r
        then BlockSnapping.y rawPosition
        else Double.mul (Double.Math.round (Double.div (BlockSnapping.y rawPosition) 16%D))
                        16%D)).
Proof.
  split; [|split].
  - intro b. split; [|apply getBlockFaces_atHeight].
    destruct b as [id type core' [px py pz] rot]. reflexivity.
  - unfold BlockSnapping.snapBlockPosition.
    destruct (BlockSnapping.getBlockFaceOffsets blockType core rotation);
      simpl; trivial.
    now rewrite existingBlocksLoop_atHeight.
  - intros r Hr.
    destruct (double_snapBlockPosition_cases _ _ _ _ _ _ _ Hr)
      as [[-> _]|(t & _ & -> & _)]; reflexivity.
Qed.

(** A neighbour two courses up is snapped to as one on the ground. *)
Lemma snap_ignores_block_heights_witness :
  BlockSnapping.snapBlockPosition (BlockSnapping.mkVector3 50 0 2)%D "standard" core8
    0%D (map (fun b => BlockSnapping.atHeight 32%D b) [BlockSnapping.originBlock "A"])
    8%D =
  BlockSnapping.snapBlockPosition (BlockSnapping.mkVector3 50 0 2)%D "standard" core8
    0%D [BlockSnapping.originBlock "A"] 8%D.
Proof.
  apply (snap_ignores_block_heights (BlockSnapping.mkVector3 50 0 2)%D "standard"
           core8 0%D [BlockSnapping.originBlock "A"] 8%D (fun _ => 32%D)).
Defined.

(** X5: the anchor offset is zero for every catalog category, thickness
    and rotation, corner blocks included, and the call throws for a category
    outside the catalog. *)
Theorem anchor_offset_zero (type : string) (core : ICFCoreThickness) (rotation : Q) :
  (In type catalogTypes ->
   getBlockAnchorOffset type core rotation = Returns (0, 0)) /\
  (~ In type catalogTypes ->
   getBlockAnchorOffset type core rotation = Throws TypeError).
Proof.
  unfold getBlockAnchorOffset. split; intro H.
  - apply catalog_cases in H.
    destruct (ICF_BLOCK_CATALOG type); [|congruence].
    destruct (isStraight type); reflexivity.
  - destruct (ICF_BLOCK_CATALOG type) eqn:C; trivial.
    exfalso. apply H, catalog_cases. congruence.
Qed.

Lemma anchor_offset_zero_witness :
  getBlockAnchorOffset "corner90" core8 90 = Returns (0, 0) /\
  getBlockAnchorOffset "pillar" core8 90 = Throws TypeError.
Proof.
  split.
  - apply (proj1 (anchor_offset_zero "corner90" core8 90)). simpl. auto.
  - apply (proj2 (anchor_offset_zero "pillar" core8 90)).
    simpl. intros [H|[H|[H|[H|[H|[H|[]]]]]]]; discriminate H.
Defined.

(** ** The snap result on doubles: further properties *)

(** X6: the fields of a result agree with each other.  Either the result
    is the grid fallback [snapToGrid(rawPosition, gridSize)], with the flag
    unset and neither identifier nor edge; or the flag is set, the position
    is the solution of a valid face pair at the raw height, its computed
    distance from the raw position is below 150, the identifier is that of
    the pair's block, a block of the list, and the edge names the
    orientation of the new block's face of the pair. *)
Theorem snap_result_consistent (rawPosition : BlockSnapping.Vector3)
    (blockType : string) (core : ICFCoreThickness) (rotation : Double.t)
    (existingBlocks : list BlockSnapping.ICFBlock.t) (gridSize : Double.t)
    (r : BlockSnapping.SnapResult.t)
    (Hr : BlockSnapping.snapBlockPosition rawPosition blockType core rotation
            existingBlocks gridSize = Returns r) :
  (BlockSnapping.SnapResult.snappedToBlock r = false /\
   BlockSnapping.SnapResult.position r = BlockSnapping.snapToGrid rawPosition gridSize /\
   BlockSnapping.SnapResult.snappedBlockId r = None /\
   BlockSnapping.SnapResult.snapEdge r = None) \/
  (BlockSnapping.SnapResult.snappedToBlock r = true /\
   BlockSnapping.y (BlockSnapping.SnapResult.position r) = BlockSnapping.y rawPosition /\
   Double.ltb
     (BlockSnapping.dist rawPosition
        (BlockSnapping.x (BlockSnapping.SnapResult.position r),
         BlockSnapping.z (BlockSnapping.SnapResult.position r))) 150%D = true /\
   exists t,
     BlockSnapping.validFacePair blockType core rotation existingBlocks t /\
     In (BlockSnapping.pairBlock t) existingBlocks /\
     (BlockSnapping.x (BlockSnapping.SnapResult.position r),
      BlockSnapping.z (BlockSnapping.SnapResult.position r)) =
       BlockSnapping.solveFacePair (BlockSnapping.pairExFace t)
                                   (BlockSnapping.pairNewFace t) /\
     BlockSnapping.SnapResult.snappedBlockId r =
       Some (BlockSnapping.ICFBlock.id (BlockSnapping.pairBlock t)) /\
     BlockSnapping.SnapResult.snapEdge r =
       Some (edgeName (BlockSnapping.FaceOffset.orientation
                         (BlockSnapping.pairNewFace t)))).
Proof.
  destruct (double_snapBlockPosition_cases _ _ _ _ _ _ _ Hr)
    as [[-> _]|(t & Hv & -> & Hnear & _)].
  - left. repeat split.
  - right. simpl. split; [reflexivity|]. split; [reflexivity|].
    split; [exact Hnear|]. exists t.
    split; [exact Hv|]. destruct Hv as (offs & _ & (Hb & _ & _) & _).
    split; [exact Hb|]. split; [|split; reflexivity].
    unfold BlockSnapping.pairSolution.
    now destruct (BlockSnapping.solveFacePair _ _).
Qed.

Lemma snap_result_consistent_witness :
  let r := BlockSnapping.SnapResult.mk (BlockSnapping.mkVector3 48 7 0)%D true
             (Some "A") (Some left) in
  (BlockSnapping.SnapResult.snappedToBlock r = false /\
   BlockSnapping.SnapResult.position r =
     BlockSnapping.snapToGrid (BlockSnapping.mkVector3 50 7 2)%D 8%D /\
   BlockSnapping.SnapResult.snappedBlockId r = None /\
   BlockSnapping.SnapResult.snapEdge r = None) \/
  (BlockSnapping.SnapResult.snappedToBlock r = true /\
   BlockSnapping.y (BlockSnapping.SnapResult.position r) = 7%D /\
   Double.ltb
     (BlockSnapping.dist (BlockSnapping.mkVector3 50 7 2)%D
        (BlockSnapping.x (BlockSnapping.SnapResult.position r),
         BlockSnapping.z (BlockSnapping.SnapResult.position r))) 150%D = true /\
   exists t,
     BlockSnapping.validFacePair "standard" core8 0%D
       [BlockSnapping.originBlock "A"] t /\
     In (BlockSnapping.pairBlock t) [BlockSnapping.originBlock "A"] /\
     (BlockSnapping.x (BlockSnapping.SnapResult.position r),
      BlockSnapping.z (BlockSnapping.SnapResult.position r)) =
       BlockSnapping.solveFacePair (BlockSnapping.pairExFace t)
                                   (BlockSnapping.pairNewFace t) /\
     BlockSnapping.SnapResult.snappedBlockId r =
       Some (BlockSnapping.ICFBlock.id (BlockSnapping.pairBlock t)) /\
     BlockSnapping.SnapResult.snapEdge r =
       Some (edgeName (BlockSnapping.FaceOffset.orientation
                         (BlockSnapping.pairNewFace t)))).
Proof.
  apply (snap_result_consistent (BlockSnapping.mkVector3 50 7 2)%D "standard" core8
           0%D [BlockSnapping.originBlock "A"] 8%D).
  vm_compute. reflexivity.
Defined.

(** ** Which blocks matter *)

(** A pair that is not valid, or whose computed distance is not below the
    threshold, or not below the best so far, leaves the loop variables as
    they are. *)
Lemma double_facePairStep_unchanged (rawPosition : BlockSnapping.Vector3)
    (b : BlockSnapping.ICFBlock.t) (ex : BlockSnapping.BlockFace.t)
    (st : BlockSnapping.SnapState.t) (nw : BlockSnapping.FaceOffset.t) :
  (validPair (BlockSnapping.BlockFace.orientation ex)
             (BlockSnapping.FaceOffset.orientation nw) = true ->
   Double.ltb (BlockSnapping.dist rawPosition (BlockSnapping.solveFacePair ex nw))
              BlockSnapping.SNAP_THRESHOLD = false \/
   Double.ltb (BlockSnapping.dist rawPosition (BlockSnapping.solveFacePair ex nw))
              (BlockSnapping.SnapState.closestDistance st) = false) ->
  BlockSnapping.facePairStep rawPosition b ex st nw = st.
Proof.
  intro H. unfold BlockSnapping.facePairStep.
  destruct (validPair _ _); cbn [negb]; trivial.
  destruct (H eq_refl) as [-> | ->]; trivial.
  now rewrite andb_false_r.
Qed.

Lemma double_blockFacesLoop_unchanged (rawPosition : BlockSnapping.Vector3)
    (offsets : list BlockSnapping.FaceOffset.t) (b : BlockSnapping.ICFBlock.t)
    (exFaces : list BlockSnapping.BlockFace.t) (st : BlockSnapping.SnapState.t) :
  (forall ex nw,
     In ex exFaces -> In nw offsets ->
     validPair (BlockSnapping.BlockFace.orientation ex)
               (BlockSnapping.FaceOffset.orientation nw) = true ->
     Double.ltb (BlockSnapping.dist rawPosition (BlockSnapping.solveFacePair ex nw))
                BlockSnapping.SNAP_THRESHOLD = false \/
     Double.ltb (BlockSnapping.dist rawPosition (BlockSnapping.solveFacePair ex nw))
                (BlockSnapping.SnapState.closestDistance st) = false) ->
  BlockSnapping.blockFacesLoop rawPosition offsets b exFaces st = st.
Proof.
  unfold BlockSnapping.blockFacesLoop.
  induction exFaces as [|ex exFaces IH]; intro H; simpl; trivial.
  assert (E : fold_left (BlockSnapping.facePairStep rawPosition b ex) offsets st = st).
  { assert (G : forall nw, In nw offsets ->
                validPair (BlockSnapping.BlockFace.orientation ex)
                          (BlockSnapping.FaceOffset.orientation nw) = true ->
                Double.ltb (BlockSnapping.dist rawPosition
                              (BlockSnapping.solveFacePair ex nw))
                           BlockSnapping.SNAP_THRESHOLD = false \/
                Double.ltb (BlockSnapping.dist rawPosition
                              (BlockSnapping.solveFacePair ex nw))
                           (BlockSnapping.SnapState.closestDistance st) = false)
      by (intros; apply H; simpl; auto).
    clear H IH. induction offsets as [|nw offsets IHo]; simpl; trivial.
    rewrite double_facePairStep_unchanged by (apply G; simpl; auto).
    apply IHo. intros; apply G; simpl; auto. }
  rewrite E. apply IH. intros; apply H; simpl; auto.
Qed.

Lemma double_existingBlocksLoop_app (rawPosition : BlockSnapping.Vector3)
    (offsets : list BlockSnapping.FaceOffset.t)
    (l1 l2 : list BlockSnapping.ICFBlock.t) :
  forall st,
    BlockSnapping.existingBlocksLoop rawPosition offsets (l1 ++ l2) st =
    bind (BlockSnapping.existingBlocksLoop rawPosition offsets l1 st)
         (BlockSnapping.existingBlocksLoop rawPosition offsets l2).
Proof.
  induction l1 as [|a l1 IH]; intro st; simpl; trivial.
  destruct (BlockSnapping.getBlockFaces a); simpl; auto.
Qed.

(** The valid pairs of one block, read off its faces and the offsets. *)
Lemma double_validFacePair_single (blockType : string) (core : ICFCoreThickness)
    (rotation : Double.t) (b : BlockSnapping.ICFBlock.t)
    (offsets : list BlockSnapping.FaceOffset.t)
    (exFaces : list BlockSnapping.BlockFace.t)
    (ex : BlockSnapping.BlockFace.t) (nw : BlockSnapping.FaceOffset.t) :
  BlockSnapping.getBlockFaceOffsets blockType core rotation = Returns offsets ->
  BlockSnapping.getBlockFaces b = Returns exFaces ->
  In ex exFaces -> In nw offsets ->
  validPair (BlockSnapping.BlockFace.orientation ex)
            (BlockSnapping.FaceOffset.orientation nw) = true ->
  BlockSnapping.validFacePair blockType core rotation [b]
    (BlockSnapping.mkFacePair b ex nw).
Proof.
  intros Ho Hf Hex Hnw Hv. exists offsets. split; [exact Ho|].
  split; [|exact Hv]. unfold BlockSnapping.triedPair. simpl. eauto 6.
Qed.

(** X8: a block out of reach is ignored.  If no valid face-pair solution of
    a block of a catalog category has a computed distance below 150 from
    the raw position, the result is the same with that block in the list,
    wherever it stands, as without it. *)
Theorem far_block_ignored (rawPosition : BlockSnapping.Vector3) (blockType : string)
    (core : ICFCoreThickness) (rotation : Double.t)
    (before after : list BlockSnapping.ICFBlock.t)
    (b : BlockSnapping.ICFBlock.t) (gridSize : Double.t)
    (Hb : In (BlockSnapping.ICFBlock.type b) catalogTypes)
    (Hfar : forall t,
        BlockSnapping.validFacePair blockType core rotation [b] t ->
        Double.ltb (BlockSnapping.pairDist rawPosition t) 150%D = false) :
  BlockSnapping.snapBlockPosition rawPosition blockType core rotation
    (before ++ b :: after) gridSize =
  BlockSnapping.snapBlockPosition rawPosition blockType core rotation
    (before ++ after) gridSize.
Proof.
  unfold BlockSnapping.snapBlockPosition.
  destruct (BlockSnapping.getBlockFaceOffsets blockType core rotation)
    as [offs|e] eqn:Ho; simpl; trivial.
  rewrite !double_existingBlocksLoop_app.
  destruct (BlockSnapping.existingBlocksLoop rawPosition offs before _)
    as [st|e]; simpl; trivial.
  destruct (double_getBlockFaces_returns b Hb) as [exFaces Hf]. rewrite Hf. simpl.
  rewrite double_blockFacesLoop_unchanged; trivial.
  intros ex nw Hex Hnw Hv. left.
  apply (Hfar (BlockSnapping.mkFacePair b ex nw)).
  eapply double_validFacePair_single; eauto.
Qed.

(** Enumerate the valid pairs of a concrete block. *)
Ltac enumerate_double_pairs t H :=
  destruct t as [b0 ex nw];
  destruct H as (offs & Ho & (Hb0 & (exFaces & Hf & Hex) & Hnw) & Hv);
  unfold BlockSnapping.pairValid in Hv; simpl in Hb0, Hex, Hnw, Hv;
  destruct Hb0 as [<-|[]];
  vm_compute in Ho; injection Ho as <-;
  vm_compute in Hf; injection Hf as <-;
  simpl in Hex, Hnw;
  repeat match goal with
  | H : _ \/ _ |- _ => destruct H
  | H : False |- _ => destruct H
  end; subst; try discriminate Hv.

Lemma double_farBlock_out_of_reach (t : BlockSnapping.FacePair) :
  BlockSnapping.validFacePair "standard" core8 0%D [BlockSnapping.farBlock] t ->
  Double.ltb (BlockSnapping.pairDist (BlockSnapping.mkVector3 50 0 2)%D t) 150%D = false.
Proof.
  intro H. enumerate_double_pairs t H; vm_compute; reflexivity.
Defined.

Lemma far_block_ignored_witness :
  BlockSnapping.snapBlockPosition (BlockSnapping.mkVector3 50 0 2)%D "standard" core8
    0%D ([BlockSnapping.originBlock "A"] ++ BlockSnapping.farBlock :: []) 8%D =
  BlockSnapping.snapBlockPosition (BlockSnapping.mkVector3 50 0 2)%D "standard" core8
    0%D ([BlockSnapping.originBlock "A"] ++ []) 8%D.
Proof.
  apply (far_block_ignored (BlockSnapping.mkVector3 50 0 2)%D "standard" core8 0%D
           [BlockSnapping.originBlock "A"] [] BlockSnapping.farBlock 8%D).
  - simpl. auto.
  - exact double_farBlock_out_of_reach.
Defined.

(** What the loop variables hold when the search has snapped. *)
Lemma double_existingBlocksLoop_snapped (rawPosition : BlockSnapping.Vector3)
    (offsets : list BlockSnapping.FaceOffset.t)
    (existingBlocks : list BlockSnapping.ICFBlock.t)
    (st : BlockSnapping.SnapState.t) :
  BlockSnapping.existingBlocksLoop rawPosition offsets existingBlocks
    (BlockSnapping.SnapState.mk rawPosition Double.Infinity false None None)
    = Returns st ->
  BlockSnapping.SnapState.snappedToBlock st = true ->
  BlockSnapping.SnapState.closestDistance st =
    BlockSnapping.dist rawPosition
      (BlockSnapping.x (BlockSnapping.SnapState.bestSnapPosition st),
       BlockSnapping.z (BlockSnapping.SnapState.bestSnapPosition st)).
Proof.
  intros E Hs.
  pose proof (double_existingBlocksLoop_inv rawPosition offsets existingBlocks _ _ _
                (double_searchInv_init rawPosition) E) as I.
  unfold BlockSnapping.searchInv in I. rewrite Hs in I.
  destruct I as (_ & t & _ & _ & -> & -> & _). simpl.
  unfold BlockSnapping.pairDist.
  now destruct (BlockSnapping.pairSolution t).
Qed.

(** X9: ties go to the block that comes first.  If a call has snapped, and
    a further block of a catalog category has no valid face-pair solution
    whose computed distance is below that of the returned position, then
    appending that block to the list leaves the result unchanged; a tie in
    distance does not displace the earlier winner. *)
Theorem earlier_block_wins_ties (rawPosition : BlockSnapping.Vector3)
    (blockType : string) (core : ICFCoreThickness) (rotation : Double.t)
    (existingBlocks : list BlockSnapping.ICFBlock.t)
    (b : BlockSnapping.ICFBlock.t) (gridSize : Double.t)
    (r : BlockSnapping.SnapResult.t)
    (Hr : BlockSnapping.snapBlockPosition rawPosition blockType core rotation
            existingBlocks gridSize = Returns r)
    (Hs : BlockSnapping.SnapResult.snappedToBlock r = true)
    (Hb : In (BlockSnapping.ICFBlock.type b) catalogTypes)
    (Hno : forall t,
        BlockSnapping.validFacePair blockType core rotation [b] t ->
        Double.ltb
          (BlockSnapping.pairDist rawPosition t)
          (BlockSnapping.dist rawPosition
             (BlockSnapping.x (BlockSnapping.SnapResult.position r),
              BlockSnapping.z (BlockSnapping.SnapResult.position r))) = false) :
  BlockSnapping.snapBlockPosition rawPosition blockType core rotation
    (existingBlocks ++ [b]) gridSize = Returns r.
Proof.
  unfold BlockSnapping.snapBlockPosition in *.
  destruct (BlockSnapping.getBlockFaceOffsets blockType core rotation)
    as [offs|e] eqn:Ho; simpl in *; [|discriminate].
  rewrite double_existingBlocksLoop_app.
  destruct (BlockSnapping.existingBlocksLoop rawPosition offs existingBlocks _)
    as [st|e] eqn:E; simpl in *; [|discriminate].
  injection Hr as <-. simpl in Hs, Hno. rewrite Hs in Hno. simpl in Hno.
  destruct (double_getBlockFaces_returns b Hb) as [exFaces Hf]. rewrite Hf. simpl.
  rewrite double_blockFacesLoop_unchanged; trivial.
  intros ex nw Hex Hnw Hv. right.
  rewrite (double_existingBlocksLoop_snapped _ _ _ _ E Hs).
  apply (Hno (BlockSnapping.mkFacePair b ex nw)).
  eapply double_validFacePair_single; eauto.
Qed.

Lemma double_twin_no_nearer (t : BlockSnapping.FacePair) :
  BlockSnapping.validFacePair "standard" core8 0%D [BlockSnapping.originBlock "twin"] t ->
  Double.ltb
    (BlockSnapping.pairDist (BlockSnapping.mkVector3 50 0 2)%D t)
    (BlockSnapping.dist (BlockSnapping.mkVector3 50 0 2)%D (48%D, 0%D)) = false.
Proof.
  intro H. enumerate_double_pairs t H; vm_compute; reflexivity.
Defined.

(** A second block at the very place of the first does not take the snap
    over: the result still names the first. *)
Lemma earlier_block_wins_ties_witness :
  BlockSnapping.snapBlockPosition (BlockSnapping.mkVector3 50 0 2)%D "standard" core8
    0%D ([BlockSnapping.originBlock "A"] ++ [BlockSnapping.originBlock "twin"]) 8%D =
  Returns (BlockSnapping.SnapResult.mk (BlockSnapping.mkVector3 48 0 0)%D true
             (Some "A") (Some left)).
Proof.
  apply (earlier_block_wins_ties (BlockSnapping.mkVector3 50 0 2)%D "standard" core8
           0%D [BlockSnapping.originBlock "A"] (BlockSnapping.originBlock "twin") 8%D).
  - vm_compute. reflexivity.
  - reflexivity.
  - simpl. auto.
  - exact double_twin_no_nearer.
Defined.

(** What decides is the computed distance.  With a block A at the origin
    and a block B at (64, 0, 80), at the raw position below the solution
    (48, 0) of A is exactly nearer than the solution (64, 66.5) of B, but
    its computed distance is the larger one, and the call returns B. *)
Example later_block_wins_on_computed_distance :
  let rawPosition :=
    BlockSnapping.mkVector3 (Double.ofDyadic 1653022820377395 (-44)) 0%D
                            (Double.ofDyadic 6788031503691487 (-48)) in
  let blockB :=
    BlockSnapping.ICFBlock.mk "B" "standard" core8
      (BlockSnapping.mkVector3 64 0 80)%D 0%D in
  BlockSnapping.snapBlockPosition rawPosition "standard" core8 0%D
    [BlockSnapping.originBlock "A"] 8%D
    = Returns (BlockSnapping.SnapResult.mk (BlockSnapping.mkVector3 48 0 0)%D
                 true (Some "A") (Some left)) /\
  BlockSnapping.snapBlockPosition rawPosition "standard" core8 0%D
    [BlockSnapping.originBlock "A"; blockB] 8%D
    = Returns (BlockSnapping.SnapResult.mk (BlockSnapping.mkVector3 64 0 66.5)%D
                 true (Some "B") (Some front)) /\
  BlockSnapping.exactDistSq rawPosition (48%D, 0%D) <
  BlockSnapping.exactDistSq rawPosition (64%D, 66.5%D) /\
  Double.ltb (BlockSnapping.dist rawPosition (64%D, 66.5%D))
             (BlockSnapping.dist rawPosition (48%D, 0%D)) = true.
Proof.
  repeat split; vm_compute; reflexivity.
Qed.

(** ** Grid rounding on doubles: exactness *)

Lemma Qfloor_half (n : Z) : Qfloor (inject_Z n + (1 # 2)) = n.
Proof.
  assert (Hlo : (n <= Qfloor (inject_Z n + (1 # 2)))%Z).
  { rewrite <- (Qfloor_Z n) at 1. apply Qfloor_resp_le. lra. }
  assert (Hhi : (Qfloor (inject_Z n + (1 # 2)) < n + 1)%Z).
  { rewrite Zlt_Qlt. rewrite inject_Z_plus.
    eapply Qle_lt_trans; [apply Qfloor_le|].
    change (inject_Z 1) with 1. lra. }
  lia.
Qed.

Lemma round_integer (n : Z) : Math.round (inject_Z n) = inject_Z n.
Proof.
  unfold Math.round. now rewrite Qfloor_half.
Qed.

Lemma round_comp (a b : Q) : a == b -> Math.round a = Math.round b.
Proof.
  intro H. unfold Math.round. now rewrite H.
Qed.

Lemma two_power_nonneg (k : Z) : (0 <= k)%Z -> (2 # 1) ^ k == inject_Z (2 ^ k).
Proof.
  intro H. rewrite Zpower_Qpower by exact H. reflexivity.
Qed.

Lemma two_power_pos (k : Z) : 0 < (2 # 1) ^ k.
Proof.
  apply Qpower_0_lt. reflexivity.
Qed.

Lemma two_power_plus (a b : Z) : (2 # 1) ^ (a + b) == (2 # 1) ^ a * (2 # 1) ^ b.
Proof.
  apply Qpower_plus. discriminate.
Qed.

(** [floor(a / b)] on a fraction of integers. *)
Lemma Qfloor_fraction (a b : Z) :
  (0 < b)%Z -> Qfloor (inject_Z a / inject_Z b) = (a / b)%Z.
Proof.
  intro Hb.
  assert (E : inject_Z a / inject_Z b == a # Z.to_pos b).
  { unfold Qeq, Qdiv, Qmult, Qinv, inject_Z. simpl.
    destruct b as [|p|p]; try lia. simpl. lia. }
  rewrite E. unfold Qfloor. simpl. now rewrite Z2Pos.id.
Qed.

(** The integer [Math.round] computes on a double with a negative exponent
    is the rounding of its exact value. *)
Lemma round_exact (s : bool) (m : positive) (e : Z) :
  (e < 0)%Z ->
  Math.round (inject_Z (cond_Zopp s (Z.pos m)) * (2 # 1) ^ e) =
  inject_Z ((2 * cond_Zopp s (Z.pos m) + 2 ^ (- e)) / 2 ^ (1 - e)).
Proof.
  intro He. unfold Math.round. f_equal.
  set (a := cond_Zopp s (Z.pos m)).
  assert (Hp : (0 < 2 ^ (1 - e))%Z) by (apply Z.pow_pos_nonneg; lia).
  rewrite <- (Qfloor_fraction _ _ Hp).
  apply Qfloor_comp.
  rewrite inject_Z_plus, inject_Z_mult.
  rewrite <- !two_power_nonneg by lia.
  replace (1 - e)%Z with (1 + - e)%Z by lia.
  rewrite two_power_plus.
  replace e with (- - e)%Z at 1 by lia. rewrite Qpower_opp.
  pose proof (two_power_pos (- e)) as P.
  change ((2 # 1) ^ 1) with (2 # 1). change (inject_Z 2) with (2 # 1).
  field. lra.
Qed.

(** One coordinate of the grid rounding, for the steps 8 and 16: the
    double it computes is exactly the rounding of the exact quotient,
    times the step. *)
Lemma grid_coordinate_exact (c : Double.t) (ey j : Z) :
  BlockSnapping.ordinary c -> Double.isFinite c = true ->
  (ey = -49 /\ j = 3 \/ ey = -48 /\ j = 4)%Z ->
  let g := S754_finite false 4503599627370496 ey in
  let r := Double.mul (Double.Math.round (Double.div c g)) g in
  Double.isFinite r = true /\
  Double.toQ r == Math.round (Double.toQ c / inject_Z (2 ^ j)) * inject_Z (2 ^ j).
Proof.
  intros Hc Hf Hey g r. subst r g.
  assert (Hj : (j = ey + 52 /\ 0 <= j)%Z) by lia.
  destruct Hj as [Hj Hj0].
  destruct c as [s|s| |s m e]; try discriminate Hf.
  - destruct s; destruct Hey as [[-> ->]|[-> ->]]; split; reflexivity.
  - destruct Hc as [Hd He].
    rewrite (div_pow2 s m e ey Hd) by lia.
    set (e' := (e - ey - 52)%Z).
    assert (Ee : e = (e' + j)%Z) by lia.
    set (a := cond_Zopp s (Z.pos m)).
    pose proof (two_power_pos j) as Pj.
    assert (Q0 : Double.toQ (S754_finite s m e) / inject_Z (2 ^ j)
                 == inject_Z a * (2 # 1) ^ e').
    { unfold Double.toQ. fold a. rewrite Ee, two_power_plus.
      rewrite <- (two_power_nonneg j Hj0). field. lra. }
    remember (Double.Math.round (S754_finite s m e')) as n eqn:Hn.
    unfold Double.Math.round in Hn.
    destruct (Z.leb_spec 0 e') as [Hpos|Hneg].
    + subst n. rewrite (mul_pow2 s m e' ey Hd) by lia.
      replace (e' + ey + 52)%Z with e by lia.
      split; [reflexivity|].
      assert (Q1 : inject_Z a * (2 # 1) ^ e' == inject_Z (a * 2 ^ e')).
      { rewrite inject_Z_mult, <- (two_power_nonneg e' Hpos). reflexivity. }
      rewrite (round_comp _ _ (Qeq_trans _ _ _ Q0 Q1)), round_integer.
      unfold Double.toQ. fold a.
      rewrite inject_Z_mult, <- (two_power_nonneg e' Hpos),
        <- (two_power_nonneg j Hj0), Ee, two_power_plus.
      ring.
    + pose proof (round_exact s m e' Hneg) as RE. fold a in RE.
      rewrite (round_comp _ _ Q0), RE. clear RE.
      pose proof (round_quotient_bound s m e' Hd Hneg) as Hb. fold a in Hb.
      fold a in Hn.
      set (k := ((2 * a + 2 ^ (- e')) / 2 ^ (1 - e'))%Z) in *.
      destruct (Z.eqb_spec k 0) as [Hk0|Hk]; subst n.
      * rewrite Hk0. split; [destruct s; reflexivity|].
        destruct s; simpl; ring.
      * destruct (ofInt_normal k Hk Hb) as (m' & e'' & E & Hd' & He'' & Hm').
        rewrite E, (mul_pow2 _ m' e'' ey Hd') by lia.
        split; [reflexivity|].
        unfold Double.toQ.
        assert (Hs : cond_Zopp (k <? 0)%Z (Z.pos m') = (k * 2 ^ (- e''))%Z).
        { rewrite Hm'. destruct (Z.ltb_spec k 0); simpl; lia. }
        rewrite Hs, inject_Z_mult.
        rewrite <- (two_power_nonneg (- e'')) by lia.
        rewrite <- (two_power_nonneg j Hj0).
        replace (e'' + ey + 52)%Z with (e'' + j)%Z by lia.
        rewrite two_power_plus, Qpower_opp.
        pose proof (two_power_pos e'') as P.
        field. lra.
Qed.

Lemma round_bounds (a : Q) :
  a - (1 # 2) < Math.round a /\ Math.round a <= a + (1 # 2).
Proof.
  unfold Math.round.
  pose proof (Qfloor_le (a + (1 # 2))) as Hle.
  pose proof (Qlt_floor (a + (1 # 2))) as Hlt.
  rewrite inject_Z_plus in Hlt. change (inject_Z 1) with 1 in Hlt.
  split; lra.
Qed.

(** Rounding to a multiple of a positive step moves a number by at most
    half a step, and by strictly less than that downwards. *)
Lemma round_step_bounds (a g : Q) :
  0 < g ->
  - (g / 2) < Math.round (a / g) * g - a /\ Math.round (a / g) * g - a <= g / 2.
Proof.
  intro Hg.
  destruct (round_bounds (a / g)) as [Hlo Hhi].
  assert (E : a == a / g * g) by (field; lra).
  set (n := Math.round (a / g)) in *. set (q := a / g) in *.
  assert (Hlo' : (q - (1 # 2)) * g < n * g) by (apply Qmult_lt_r; trivial).
  assert (Hhi' : n * g <= (q + (1 # 2)) * g) by (apply Qmult_le_r; trivial).
  split; halves.
Qed.

(** X10: for the grid size 8 the grid rounding is exact.  For every
    position whose coordinates are finite ordinary doubles,
    [snapToGrid(p, 8)] has finite coordinates, and their exact values are
    those of the grid rounding in exact arithmetic: X and Z are integer
    multiples of 8, at most 4 above the raw coordinate and strictly less
    than 4 below it; Y is an integer multiple of 16, at most 8 above and
    strictly less than 8 below the raw height. *)
Theorem snapToGrid_8_nearest_cell (p : BlockSnapping.Vector3)
    (H : Forall (fun c => BlockSnapping.ordinary c /\ Double.isFinite c = true)
           [BlockSnapping.x p; BlockSnapping.y p; BlockSnapping.z p]) :
  let q := BlockSnapping.snapToGrid p 8%D in
  Forall (fun c => Double.isFinite c = true)
    [BlockSnapping.x q; BlockSnapping.y q; BlockSnapping.z q] /\
  vec_eq (BlockSnapping.exactPosition q) (snapToGrid (BlockSnapping.exactPosition p) 8) /\
  (exists i j k : Z,
     vec_eq (BlockSnapping.exactPosition q)
            (THREE.mkVector3 (inject_Z i * 8) (inject_Z j * 16) (inject_Z k * 8))) /\
  - (4) < THREE.x (BlockSnapping.exactPosition q) - THREE.x (BlockSnapping.exactPosition p) <= 4 /\
  - (8) < THREE.y (BlockSnapping.exactPosition q) - THREE.y (BlockSnapping.exactPosition p) <= 8 /\
  - (4) < THREE.z (BlockSnapping.exactPosition q) - THREE.z (BlockSnapping.exactPosition p) <= 4.
Proof.
  inversion H as [|? ? [Ox Fx] H1]; subst.
  inversion H1 as [|? ? [Oy Fy] H2]; subst.
  inversion H2 as [|? ? [Oz Fz] _]; subst.
  destruct (grid_coordinate_exact _ (-49) 3 Ox Fx) as [Gx Ex]; [lia|].
  destruct (grid_coordinate_exact _ (-48) 4 Oy Fy) as [Gy Ey]; [lia|].
  destruct (grid_coordinate_exact _ (-49) 3 Oz Fz) as [Gz Ez]; [lia|].
  change (inject_Z (2 ^ 3)) with 8 in *. change (inject_Z (2 ^ 4)) with 16 in *.
  intro q. subst q.
  unfold BlockSnapping.snapToGrid, BlockSnapping.exactPosition, snapToGrid, vec_eq.
  cbn [BlockSnapping.x BlockSnapping.y BlockSnapping.z THREE.x THREE.y THREE.z].
  split; [repeat constructor; assumption|].
  split; [repeat split; assumption|].
  split.
  - unfold Math.round in Ex, Ey, Ez. do 3 eexists. repeat split; eassumption.
  - rewrite Ex, Ey, Ez.
    destruct (round_step_bounds (Double.toQ (BlockSnapping.x p)) 8 eq_refl) as [Hx1 Hx2].
    destruct (round_step_bounds (Double.toQ (BlockSnapping.y p)) 16 eq_refl) as [Hy1 Hy2].
    destruct (round_step_bounds (Double.toQ (BlockSnapping.z p)) 8 eq_refl) as [Hz1 Hz2].
    repeat split; trivial; halves.
Qed.

Lemma snapToGrid_8_nearest_cell_witness :
  let p := (BlockSnapping.mkVector3 500 7.9 (-20.5))%D in
  let q := BlockSnapping.snapToGrid p 8%D in
  Forall (fun c => Double.isFinite c = true)
    [BlockSnapping.x q; BlockSnapping.y q; BlockSnapping.z q] /\
  vec_eq (BlockSnapping.exactPosition q) (snapToGrid (BlockSnapping.exactPosition p) 8) /\
  (exists i j k : Z,
     vec_eq (BlockSnapping.exactPosition q)
            (THREE.mkVector3 (inject_Z i * 8) (inject_Z j * 16) (inject_Z k * 8))) /\
  - (4) < THREE.x (BlockSnapping.exactPosition q) - THREE.x (BlockSnapping.exactPosition p) <= 4 /\
  - (8) < THREE.y (BlockSnapping.exactPosition q) - THREE.y (BlockSnapping.exactPosition p) <= 8 /\
  - (4) < THREE.z (BlockSnapping.exactPosition q) - THREE.z (BlockSnapping.exactPosition p) <= 4.
Proof.
  apply (snapToGrid_8_nearest_cell (BlockSnapping.mkVector3 500 7.9 (-20.5))%D).
  repeat constructor; simpl; try reflexivity; lia.
Defined.

(** ** The project state: history *)

Section History.

Context {Other : Type}.

Implicit Types (s : ProjectState.t Other) (p q : ProjectState.ICFProject Other).

Lemma len_app {A : Type} (l l' : list A) :
  ProjectState.len (l ++ l') = (ProjectState.len l + ProjectState.len l')%Z.
Proof.
  unfold ProjectState.len. rewrite length_app. lia.
Qed.

Lemma len_nonneg {A : Type} (l : list A) : (0 <= ProjectState.len l)%Z.
Proof.
  unfold ProjectState.len. lia.
Qed.

Lemma item_app_at {A : Type} (l l' : list A) (a : A) :
  ProjectState.item (l ++ a :: l') (ProjectState.len l) = Some a.
Proof.
  unfold ProjectState.item, ProjectState.len.
  destruct (Z.ltb_spec (Z.of_nat (length l)) 0); [lia|].
  rewrite Nat2Z.id. rewrite nth_error_app2 by lia.
  now rewrite Nat.sub_diag.
Qed.

Lemma len_pair {A : Type} (a b : A) : ProjectState.len [a; b] = 2%Z.
Proof. reflexivity. Qed.

Lemma item_app_second {A : Type} (l : list A) (a b : A) :
  ProjectState.item (l ++ [a; b]) (ProjectState.len l + 1) = Some b.
Proof.
  replace (ProjectState.len l + 1)%Z with (ProjectState.len (l ++ [a])).
  - change (l ++ [a; b])%list with (l ++ [a] ++ [b])%list.
    rewrite app_assoc. apply item_app_at.
  - rewrite len_app. reflexivity.
Qed.

Lemma item_split {A : Type} (l : list A) (i : Z) (a : A) :
  ProjectState.item l i = Some a ->
  exists l1 l2, l = (l1 ++ a :: l2)%list /\ ProjectState.len l1 = i.
Proof.
  unfold ProjectState.item, ProjectState.len.
  destruct (Z.ltb_spec i 0); [discriminate|]. intro E.
  destruct (nth_error_split _ _ E) as (l1 & l2 & -> & Hl).
  exists l1, l2. split; [reflexivity|lia].
Qed.

Lemma item_In {A : Type} (l : list A) (i : Z) (a : A) :
  ProjectState.item l i = Some a -> In a l.
Proof.
  intro E. destruct (item_split _ _ _ E) as (l1 & l2 & -> & _).
  apply in_or_app. right. now left.
Qed.

Lemma item_in_range {A : Type} (l : list A) (i : Z) :
  (0 <= i < ProjectState.len l)%Z -> exists a, ProjectState.item l i = Some a.
Proof.
  unfold ProjectState.item, ProjectState.len. intros [H0 H1].
  destruct (Z.ltb_spec i 0); [lia|].
  destruct (nth_error l (Z.to_nat i)) eqn:E; [eauto|].
  apply nth_error_None in E. lia.
Qed.

(** What [saveToHistory] does to a history in order: the snapshots after
    the index are dropped, the current project is appended after the
    snapshot the index pointed at, and the index points at the copy. *)
Lemma saveToHistory_spec s q :
  (ProjectState.len (ProjectState.history s) <= ProjectState.maxHistory)%Z ->
  ProjectState.item (ProjectState.history s) (ProjectState.historyIndex s) = Some q ->
  exists front,
    ProjectState.history (ProjectState.saveToHistory s)
      = (front ++ [q; ProjectState.project s])%list /\
    ProjectState.historyIndex (ProjectState.saveToHistory s)
      = (ProjectState.len front + 1)%Z /\
    (ProjectState.len front + 2 <= ProjectState.maxHistory)%Z /\
    (ProjectState.len front <= ProjectState.historyIndex s)%Z /\
    (forall p, In p front -> In p (ProjectState.history s)).
Proof.
  intros Hmax Hq.
  destruct (item_split _ _ _ Hq) as (l1 & l2 & Hh & Hi).
  unfold ProjectState.saveToHistory. rewrite Hh.
  set (h1 := if (_ <? _)%Z then _ else _).
  assert (E1 : h1 = (l1 ++ [q])%list).
  { subst h1. rewrite len_app. unfold ProjectState.slice0.
    change (ProjectState.len (q :: l2)) with (Z.of_nat (S (length l2))).
    pose proof (len_nonneg l1).
    destruct (Z.ltb_spec (ProjectState.historyIndex s)
                (ProjectState.len l1 + Z.of_nat (S (length l2)) - 1)).
    - destruct (Z.ltb_spec (ProjectState.historyIndex s + 1) 0); [lia|].
      rewrite <- Hi. unfold ProjectState.len.
      replace (Z.to_nat (Z.of_nat (length l1) + 1)) with (length l1 + 1)%nat by lia.
      rewrite firstn_app_2. simpl. reflexivity.
    - assert (l2 = []) by (destruct l2; [reflexivity|simpl in *; lia]).
      subst l2. reflexivity. }
  rewrite E1. clear E1 h1. simpl ProjectState.project.
  rewrite <- app_assoc. simpl app.
  set (h2 := (l1 ++ [q; ProjectState.project s])%list).
  assert (L2 : ProjectState.len h2 = (ProjectState.len l1 + 2)%Z).
  { subst h2. rewrite len_app. reflexivity. }
  assert (Ll : (ProjectState.len l1 + 1 <= ProjectState.maxHistory)%Z).
  { rewrite Hh, len_app in Hmax.
    change (ProjectState.len (q :: l2)) with (Z.of_nat (S (length l2))) in Hmax.
    lia. }
  destruct (Z.gtb_spec (ProjectState.len h2) ProjectState.maxHistory) as [G|G].
  - (* the oldest snapshot is shifted out *)
    destruct l1 as [|a l1].
    + exfalso. rewrite L2 in G. unfold ProjectState.maxHistory in G.
      simpl in G. lia.
    + exists l1. subst h2. simpl tl.
      rewrite len_app. change (ProjectState.len [q; ProjectState.project s]) with 2%Z.
      change (ProjectState.len (a :: l1)) with (Z.of_nat (S (length l1))) in *.
      unfold ProjectState.len in *.
      repeat split; simpl; try lia.
      intros p Hp. right. apply in_or_app. now left.
  - exists l1. subst h2. rewrite len_app.
    change (ProjectState.len [q; ProjectState.project s]) with 2%Z.
    repeat split; simpl; try lia.
    intros p Hp. apply in_or_app. now left.
Qed.

Lemma notifyChange_inv s now :
  historyInv s -> historyInv (ProjectState.notifyChange s now).
Proof.
  unfold historyInv, sameContent. destruct s as [p h i ty c r sel]. simpl.
  intros (H0 & H1 & H2 & q & Hq & Hb & Ho). eauto 10.
Qed.

(** An edit: the block list is replaced, the state saved and stamped. *)
Lemma edit_inv s blocks now :
  historyInv s ->
  historyInv (ProjectState.notifyChange
                (ProjectState.saveToHistory (ProjectState.setBlocks s blocks)) now).
Proof.
  intros (H0 & H1 & H2 & q & Hq & _).
  destruct (saveToHistory_spec (ProjectState.setBlocks s blocks) q H2 Hq)
    as (front & Eh & Ei & Hlen & _).
  pose proof (len_nonneg front).
  set (s0 := ProjectState.setBlocks s blocks) in *.
  set (s1 := ProjectState.saveToHistory s0) in *.
  assert (Ep : ProjectState.project s1 = ProjectState.project s0) by reflexivity.
  clearbody s1. destruct s1 as [p1 h1 i1 ty1 c1 r1 sel1]. simpl in *. subst.
  unfold historyInv, sameContent. simpl.
  rewrite len_app, len_pair, item_app_second.
  split; [lia|split; [lia|split; [lia|]]].
  eexists. split; [reflexivity|]. split; reflexivity.
Qed.

Lemma create_inv (now : string) (rest : Other) :
  historyInv (ProjectState.create now rest).
Proof.
  unfold historyInv, ProjectState.create, sameContent. simpl.
  split; [lia|split; [reflexivity|split; [discriminate|]]].
  eexists. split; [reflexivity|]. split; reflexivity.
Qed.

Lemma undo_inv s now s' ok :
  historyInv s -> ProjectState.undo s now = Some (s', ok) -> historyInv s'.
Proof.
  intros I. unfold ProjectState.undo.
  destruct (Z.gtb_spec (ProjectState.historyIndex s) 0) as [G|G].
  - destruct I as (H0 & H1 & H2 & _).
    destruct (ProjectState.item _ _) as [p|] eqn:E; [|discriminate].
    intro R. injection R as <- <-.
    unfold historyInv, sameContent. simpl.
    split; [lia|split; [lia|split; [lia|eauto]]].
  - intro R. injection R as <- <-. exact I.
Qed.

Lemma redo_inv s now s' ok :
  historyInv s -> ProjectState.redo s now = Some (s', ok) -> historyInv s'.
Proof.
  intros I. unfold ProjectState.redo.
  destruct (Z.ltb_spec (ProjectState.historyIndex s)
              (ProjectState.len (ProjectState.history s) - 1)) as [G|G].
  - destruct I as (H0 & H1 & H2 & _).
    destruct (ProjectState.item _ _) as [p|] eqn:E; [|discriminate].
    intro R. injection R as <- <-.
    unfold historyInv, sameContent. simpl.
    split; [lia|split; [lia|split; [lia|eauto]]].
  - intro R. injection R as <- <-. exact I.
Qed.

(** In a state in order, [undo] and [redo] find their snapshot. *)
Lemma undo_redo_return s now :
  historyInv s ->
  (exists r, ProjectState.undo s now = Some r) /\
  (exists r, ProjectState.redo s now = Some r).
Proof.
  intros (H0 & H1 & H2 & _). unfold ProjectState.undo, ProjectState.redo. split.
  - destruct (Z.gtb_spec (ProjectState.historyIndex s) 0); [|eauto].
    destruct (item_in_range (ProjectState.history s)
                (ProjectState.historyIndex s - 1)) as [p ->]; [lia|eauto].
  - destruct (Z.ltb_spec (ProjectState.historyIndex s)
                (ProjectState.len (ProjectState.history s) - 1)); [|eauto].
    destruct (item_in_range (ProjectState.history s)
                (ProjectState.historyIndex s + 1)) as [p ->]; [lia|eauto].
Qed.

Lemma perform_inv s c s' :
  historyInv s -> perform s c = Some s' -> historyInv s'.
Proof.
  intros I. destruct c; simpl.
  - intro R. injection R as <-. now apply edit_inv.
  - unfold onClickPlace.
    destruct (snapBlockPosition _ _ _ _ _ _) as [r|e]; simpl; [|discriminate].
    destruct icfCategory; intro R; injection R as <-; trivial.
    now apply edit_inv.
  - intro R. injection R as <-. unfold ProjectState.removeICFBlock.
    destruct (_ >? _)%Z; simpl; trivial. now apply edit_inv.
  - intro R. injection R as <-. unfold ProjectState.updateICFBlock.
    destruct (ProjectState.assignFirst _ _ _); simpl; trivial. now apply edit_inv.
  - intro R. injection R as <-. unfold ProjectState.rotateSelection.
    apply notifyChange_inv.
    set (s1 := ProjectState.mk _ _ _ _ _ _ _).
    assert (I1 : historyInv s1) by exact I.
    destruct (ProjectState.truthyId _); trivial.
    unfold ProjectState.updateICFBlock.
    destruct (ProjectState.assignFirst _ _ _); simpl; trivial. now apply edit_inv.
  - destruct (ProjectState.undo s now) as [[s1 ok]|] eqn:E; simpl; [|discriminate].
    intro R. injection R as <-. eapply undo_inv; eauto.
  - destruct (ProjectState.redo s now) as [[s1 ok]|] eqn:E; simpl; [|discriminate].
    intro R. injection R as <-. eapply redo_inv; eauto.
  - intro R. injection R as <-.
    unfold historyInv, ProjectState.newProject, sameContent. simpl.
    split; [lia|split; [reflexivity|split; [discriminate|]]].
    eexists. split; [reflexivity|]. split; reflexivity.
  - intro R. injection R as <-. exact I.
  - intro R. injection R as <-. exact I.
  - intro R. injection R as <-. exact I.
Qed.

(** *** The index stays in range under every event *)

Lemma historyInv_range s : historyInv s -> historyRange s.
Proof.
  intros (H0 & H1 & H2 & _). repeat split; assumption.
Qed.

(** Replacing the project, saving and stamping. *)
Lemma save_range s p now :
  historyRange s ->
  historyRange (ProjectState.notifyChange
                  (ProjectState.saveToHistory (ProjectState.setProject s p)) now).
Proof.
  intros (H0 & H1 & H2).
  destruct (item_in_range (ProjectState.history s) (ProjectState.historyIndex s))
    as [q Hq]; [lia|].
  destruct (saveToHistory_spec (ProjectState.setProject s p) q H2 Hq)
    as (front & Eh & Ei & Hlen & _).
  pose proof (len_nonneg front).
  set (s1 := ProjectState.saveToHistory (ProjectState.setProject s p)) in *.
  clearbody s1. destruct s1 as [p1 h1 i1 ty1 c1 r1 sel1]. simpl in *. subst.
  unfold historyRange. simpl. rewrite len_app, len_pair. lia.
Qed.

Lemma undo_redo_return_range s now :
  historyRange s ->
  (exists s' ok, ProjectState.undo s now = Some (s', ok) /\ historyRange s') /\
  (exists s' ok, ProjectState.redo s now = Some (s', ok) /\ historyRange s').
Proof.
  intros (H0 & H1 & H2). unfold ProjectState.undo, ProjectState.redo. split.
  - destruct (Z.gtb_spec (ProjectState.historyIndex s) 0).
    + destruct (item_in_range (ProjectState.history s)
                  (ProjectState.historyIndex s - 1)) as [p ->]; [lia|].
      do 2 eexists. split; [reflexivity|]. unfold historyRange. simpl. lia.
    + do 2 eexists. split; [reflexivity|]. repeat split; assumption.
  - destruct (Z.ltb_spec (ProjectState.historyIndex s)
                (ProjectState.len (ProjectState.history s) - 1)).
    + destruct (item_in_range (ProjectState.history s)
                  (ProjectState.historyIndex s + 1)) as [p ->]; [lia|].
      do 2 eexists. split; [reflexivity|]. unfold historyRange. simpl. lia.
    + do 2 eexists. split; [reflexivity|]. repeat split; assumption.
Qed.

Lemma notifyChange_range s now :
  historyRange s -> historyRange (ProjectState.notifyChange s now).
Proof.
  destruct s as [p h i ty c r sel]. exact (fun H => H).
Qed.

Lemma update_range s id updates now :
  historyRange s -> historyRange (fst (ProjectState.updateICFBlock s id updates now)).
Proof.
  intro I. unfold ProjectState.updateICFBlock.
  destruct (ProjectState.assignFirst _ _ _); simpl; trivial.
  now apply save_range.
Qed.

Lemma perform_range s c s' :
  historyRange s -> perform s c = Some s' -> historyRange s'.
Proof.
  intros I. destruct c; simpl.
  - intro R. injection R as <-. now apply save_range.
  - unfold onClickPlace.
    destruct (snapBlockPosition _ _ _ _ _ _) as [r|e]; simpl; [|discriminate].
    destruct icfCategory; intro R; injection R as <-; trivial.
    now apply save_range.
  - intro R. injection R as <-. unfold ProjectState.removeICFBlock.
    destruct (_ >? _)%Z; simpl; trivial. now apply save_range.
  - intro R. injection R as <-. now apply update_range.
  - intro R. injection R as <-. unfold ProjectState.rotateSelection.
    apply notifyChange_range.
    set (s1 := ProjectState.mk _ _ _ _ _ _ _).
    assert (I1 : historyRange s1) by exact I.
    destruct (ProjectState.truthyId _); trivial.
    now apply update_range.
  - destruct (undo_redo_return_range s now I) as [(s1 & ok & E & I1) _].
    rewrite E. simpl. intro R. injection R as <-. exact I1.
  - destruct (undo_redo_return_range s now I) as [_ (s1 & ok & E & I1)].
    rewrite E. simpl. intro R. injection R as <-. exact I1.
  - intro R. injection R as <-.
    unfold historyRange, ProjectState.newProject. simpl.
    split; [lia|split; [reflexivity|discriminate]].
  - intro R. injection R as <-. exact I.
  - intro R. injection R as <-. exact I.
  - intro R. injection R as <-. exact I.
Qed.

Lemma deleteElement_range s id removed now :
  historyRange s ->
  historyRange (fst (ProjectState.deleteElement s id removed now)).
Proof.
  intro I. unfold ProjectState.deleteElement.
  destruct (_ >? _)%Z; simpl; [now apply save_range|].
  destruct (removed _); simpl; [now apply save_range|exact I].
Qed.

Lemma handle_range s e s' :
  historyRange s -> handle s e = Some s' -> historyRange s'.
Proof.
  intro I. destruct e; simpl.
  - now apply perform_range.
  - destruct parsed; simpl; intro R; injection R as <-; [now apply save_range|exact I].
  - destruct saved as [[p|]|]; simpl; intro R; injection R as <-;
      [now apply save_range|exact I|exact I].
  - intro R. injection R as <-. now apply save_range.
  - intro R. injection R as <-. now apply deleteElement_range.
  - destruct (ProjectState.truthyId _) as [id|]; intro R; injection R as <-; [|exact I].
    pose proof (deleteElement_range s id removed now I) as I1.
    destruct (fst _) as [p1 h1 i1 ty1 c1 r1 sel1]. exact I1.
  - intro R. injection R as <-. exact I.
Qed.

End History.

(** X11: the history stays in order.  After any sequence of calls on a new
    project state that return, the history holds between 1 and 50
    snapshots, the index points at a snapshot that is the current project
    but for its stamp, and neither [undo] nor [redo] throws. *)
Theorem history_in_order {Other : Type} (now : string) (rest : Other)
    (calls : list (Call Other)) (s : ProjectState.t Other)
    (H : performAll (ProjectState.create now rest) calls = Some s) :
  historyInv s /\
  forall t, (exists r, ProjectState.undo s t = Some r) /\
            (exists r, ProjectState.redo s t = Some r).
Proof.
  assert (I : historyInv s).
  { revert H. generalize (create_inv now rest).
    generalize (ProjectState.create now rest).
    induction calls as [|c calls IH]; intros s0 I0; simpl.
    - intro R. injection R as <-. exact I0.
    - destruct (perform s0 c) as [s1|] eqn:E; [|discriminate].
      apply IH. eapply perform_inv; eauto. }
  split; [exact I|]. intro t. now apply undo_redo_return.
Qed.

Lemma history_in_order_witness :
  historyInv
    (fst (ProjectState.addICFBlock (ProjectState.create "t0" tt)
            (THREE.mkVector3 0 0 0) "a" "t1")) /\
  forall t,
    (exists r, ProjectState.undo
                 (fst (ProjectState.addICFBlock (ProjectState.create "t0" tt)
                         (THREE.mkVector3 0 0 0) "a" "t1")) t = Some r) /\
    (exists r, ProjectState.redo
                 (fst (ProjectState.addICFBlock (ProjectState.create "t0" tt)
                         (THREE.mkVector3 0 0 0) "a" "t1")) t = Some r).
Proof.
  apply (history_in_order "t0" tt [CallAdd (THREE.mkVector3 0 0 0) "a" "t1"]).
  reflexivity.
Defined.

(** Reduce the projections of a state given by its fields. *)
Ltac proj_state :=
  cbn [ProjectState.project ProjectState.history ProjectState.historyIndex
       ProjectState.currentBlockType ProjectState.currentCoreThickness
       ProjectState.currentRotation ProjectState.selectedElementId
       ProjectState.modified ProjectState.icfBlocks ProjectState.other
       ProjectState.getICFBlocks ProjectState.notifyChange
       ProjectState.setProject ProjectState.setBlocks fst snd].

(** The state after an edit of a state in order, field by field. *)
Lemma edit_spec {Other : Type} (s : ProjectState.t Other) (blocks : list ICFBlock.t)
    (now : string) :
  historyInv s ->
  exists front q,
    ProjectState.item (ProjectState.history s) (ProjectState.historyIndex s)
      = Some q /\
    sameContent q (ProjectState.project s) /\
    (ProjectState.len front + 2 <= ProjectState.maxHistory)%Z /\
    (ProjectState.len front <= ProjectState.historyIndex s)%Z /\
    (forall p, In p front -> In p (ProjectState.history s)) /\
    ProjectState.notifyChange
      (ProjectState.saveToHistory (ProjectState.setBlocks s blocks)) now =
    ProjectState.mk
      (ProjectState.mkProject now blocks (ProjectState.other (ProjectState.project s)))
      (front ++
       [q; ProjectState.mkProject (ProjectState.modified (ProjectState.project s))
             blocks (ProjectState.other (ProjectState.project s))])
      (ProjectState.len front + 1)
      (ProjectState.currentBlockType s) (ProjectState.currentCoreThickness s)
      (ProjectState.currentRotation s) (ProjectState.selectedElementId s).
Proof.
  intros (H0 & H1 & H2 & q & Hq & Hc).
  destruct (saveToHistory_spec (ProjectState.setBlocks s blocks) q H2 Hq)
    as (front & Eh & Ei & Hlen & Hle & Hin).
  exists front, q. repeat (split; [assumption|]).
  unfold ProjectState.notifyChange, ProjectState.setProject.
  rewrite Eh, Ei. reflexivity.
Qed.

(** X12: undo takes back an added block and redo brings it back.  In a
    state whose history is in order, after [addICFBlock] an [undo] succeeds
    and restores the block list from before the addition, and a [redo]
    after that succeeds and gives the list with the added block at its end;
    the rest of the project is the same in all three. *)
Theorem undo_redo_added_block {Other : Type} (s : ProjectState.t Other)
    (position : THREE.Vector3) (newId now t1 t2 : string)
    (I : historyInv s) :
  exists s2 s3,
    ProjectState.undo (fst (ProjectState.addICFBlock s position newId now)) t1
      = Some (s2, true) /\
    ProjectState.getICFBlocks s2 = ProjectState.getICFBlocks s /\
    ProjectState.other (ProjectState.project s2)
      = ProjectState.other (ProjectState.project s) /\
    ProjectState.redo s2 t2 = Some (s3, true) /\
    ProjectState.getICFBlocks s3
      = (ProjectState.getICFBlocks s ++
         [snd (ProjectState.addICFBlock s position newId now)])%list /\
    ProjectState.other (ProjectState.project s3)
      = ProjectState.other (ProjectState.project s).
Proof.
  unfold ProjectState.addICFBlock. cbn [fst snd].
  set (b := ICFBlock.mk _ _ _ _ _).
  destruct (edit_spec s (ProjectState.icfBlocks (ProjectState.project s) ++ [b])
              now I) as (front & q & Hq & (Hb & Ho) & Hlen & Hle & _ & ->).
  pose proof (len_nonneg front) as Hf.
  unfold ProjectState.undo. proj_state.
  destruct (Z.gtb_spec (ProjectState.len front + 1) 0); [|lia].
  replace (ProjectState.len front + 1 - 1)%Z with (ProjectState.len front) by lia.
  rewrite item_app_at.
  do 2 eexists. split; [reflexivity|].
  unfold ProjectState.redo. proj_state.
  rewrite len_app, len_pair.
  destruct (Z.ltb_spec (ProjectState.len front)
              (ProjectState.len front + 2 - 1)); [|lia].
  rewrite item_app_second. proj_state.
  repeat split; trivial.
Qed.

Lemma undo_redo_added_block_witness :
  exists s2 s3,
    ProjectState.undo
      (fst (ProjectState.addICFBlock (ProjectState.create "t0" tt)
              (THREE.mkVector3 0 0 0) "a" "t1")) "t2" = Some (s2, true) /\
    ProjectState.getICFBlocks s2
      = ProjectState.getICFBlocks (ProjectState.create "t0" tt) /\
    ProjectState.other (ProjectState.project s2)
      = ProjectState.other (ProjectState.project (ProjectState.create "t0" tt)) /\
    ProjectState.redo s2 "t3" = Some (s3, true) /\
    ProjectState.getICFBlocks s3
      = (ProjectState.getICFBlocks (ProjectState.create "t0" tt) ++
         [snd (ProjectState.addICFBlock (ProjectState.create "t0" tt)
                 (THREE.mkVector3 0 0 0) "a" "t1")])%list /\
    ProjectState.other (ProjectState.project s3)
      = ProjectState.other (ProjectState.project (ProjectState.create "t0" tt)).
Proof.
  apply (undo_redo_added_block (ProjectState.create "t0" tt)
           (THREE.mkVector3 0 0 0) "a" "t1" "t2" "t3").
  unfold historyInv, sameContent. simpl.
  split; [lia|split; [reflexivity|split; [discriminate|]]].
  eexists. split; [reflexivity|]. split; reflexivity.
Defined.

(** X13: undo and redo are inverse to each other.  In a state whose
    history is in order, a successful [undo] followed by [redo] gives back
    the history, the index and the project but for its stamp; [undo]
    reports failure exactly at the oldest snapshot, and then changes
    nothing. *)
Theorem undo_then_redo {Other : Type} (s : ProjectState.t Other) (t1 t2 : string)
    (I : historyInv s) :
  (ProjectState.historyIndex s = 0%Z /\ ProjectState.undo s t1 = Some (s, false)) \/
  (exists s1 s2,
     ProjectState.undo s t1 = Some (s1, true) /\
     ProjectState.historyIndex s1 = (ProjectState.historyIndex s - 1)%Z /\
     ProjectState.redo s1 t2 = Some (s2, true) /\
     ProjectState.history s2 = ProjectState.history s /\
     ProjectState.historyIndex s2 = ProjectState.historyIndex s /\
     sameContent (ProjectState.project s2) (ProjectState.project s)).
Proof.
  destruct I as (H0 & H1 & H2 & q & Hq & Hb & Ho).
  unfold ProjectState.undo.
  destruct (Z.gtb_spec (ProjectState.historyIndex s) 0) as [G|G].
  - right.
    destruct (item_in_range (ProjectState.history s)
                (ProjectState.historyIndex s - 1)) as [p Hp]; [lia|].
    rewrite Hp. do 2 eexists. split; [reflexivity|].
    unfold ProjectState.redo. simpl.
    destruct (Z.ltb_spec (ProjectState.historyIndex s - 1)
                (ProjectState.len (ProjectState.history s) - 1)); [|lia].
    replace (ProjectState.historyIndex s - 1 + 1)%Z
      with (ProjectState.historyIndex s) by lia.
    rewrite Hq. simpl. unfold sameContent. simpl.
    repeat split; trivial.
  - left. split; [lia|reflexivity].
Qed.

(** After one block has been added, [undo] succeeds and [redo] gives the
    state back. *)
Lemma undo_then_redo_witness :
  exists s1 s2,
    ProjectState.undo
      (fst (ProjectState.addICFBlock (ProjectState.create "t0" tt)
              (THREE.mkVector3 0 0 0) "a" "t1")) "t2" = Some (s1, true) /\
    ProjectState.historyIndex s1 = 0%Z /\
    ProjectState.getICFBlocks s1 = [] /\
    ProjectState.redo s1 "t3" = Some (s2, true) /\
    ProjectState.history s2 =
      ProjectState.history
        (fst (ProjectState.addICFBlock (ProjectState.create "t0" tt)
                (THREE.mkVector3 0 0 0) "a" "t1")) /\
    ProjectState.historyIndex s2 = 1%Z /\
    sameContent (ProjectState.project s2)
      (ProjectState.project
         (fst (ProjectState.addICFBlock (ProjectState.create "t0" tt)
                 (THREE.mkVector3 0 0 0) "a" "t1"))).
Proof.
  destruct (undo_then_redo
              (fst (ProjectState.addICFBlock (ProjectState.create "t0" tt)
                      (THREE.mkVector3 0 0 0) "a" "t1")) "t2" "t3")
    as [[H0 _]|(s1 & s2 & Hu & Hi & Hr & Hh & Hi2 & Hc)].
  - unfold historyInv, sameContent. simpl.
    split; [lia|split; [reflexivity|split; [discriminate|]]].
    eexists. split; [reflexivity|]. split; reflexivity.
  - discriminate H0.
  - exists s1, s2. split; [exact Hu|].
    split; [exact Hi|].
    split; [injection Hu as <-; reflexivity|].
    split; [exact Hr|]. split; [exact Hh|]. split; [exact Hi2|exact Hc].
Defined.

(** X14: an edit discards what could be redone.  In a state whose history
    is in order, right after [addICFBlock] the index points at the last
    snapshot, whatever had been undone before, and [redo] reports failure
    and changes nothing. *)
Theorem add_discards_redo {Other : Type} (s : ProjectState.t Other)
    (position : THREE.Vector3) (newId now t : string)
    (I : historyInv s) :
  let s1 := fst (ProjectState.addICFBlock s position newId now) in
  ProjectState.historyIndex s1
    = (ProjectState.len (ProjectState.history s1) - 1)%Z /\
  (ProjectState.len (ProjectState.history s1)
    <= ProjectState.historyIndex s + 2)%Z /\
  ProjectState.redo s1 t = Some (s1, false).
Proof.
  intros s1. subst s1. unfold ProjectState.addICFBlock. cbn [fst snd].
  set (b := ICFBlock.mk _ _ _ _ _).
  destruct (edit_spec s (ProjectState.icfBlocks (ProjectState.project s) ++ [b])
              now I) as (front & q & _ & _ & Hlen & Hle & _ & ->).
  unfold ProjectState.redo. proj_state. rewrite len_app, len_pair.
  destruct (Z.ltb_spec (ProjectState.len front + 1)
              (ProjectState.len front + 2 - 1)); [lia|].
  repeat split; lia.
Qed.

Lemma add_discards_redo_witness :
  ProjectState.historyIndex
    (fst (ProjectState.addICFBlock (ProjectState.create "t0" tt)
            (THREE.mkVector3 0 0 0) "a" "t1"))
  = (ProjectState.len
       (ProjectState.history
          (fst (ProjectState.addICFBlock (ProjectState.create "t0" tt)
                  (THREE.mkVector3 0 0 0) "a" "t1"))) - 1)%Z /\
  (ProjectState.len
     (ProjectState.history
        (fst (ProjectState.addICFBlock (ProjectState.create "t0" tt)
                (THREE.mkVector3 0 0 0) "a" "t1")))
   <= ProjectState.historyIndex (ProjectState.create "t0" tt) + 2)%Z /\
  ProjectState.redo
    (fst (ProjectState.addICFBlock (ProjectState.create "t0" tt)
            (THREE.mkVector3 0 0 0) "a" "t1")) "t2"
  = Some (fst (ProjectState.addICFBlock (ProjectState.create "t0" tt)
                 (THREE.mkVector3 0 0 0) "a" "t1"), false).
Proof.
  apply (add_discards_redo (ProjectState.create "t0" tt)
           (THREE.mkVector3 0 0 0) "a" "t1" "t2").
  unfold historyInv, sameContent. simpl.
  split; [lia|split; [reflexivity|split; [discriminate|]]].
  eexists. split; [reflexivity|]. split; reflexivity.
Defined.

(** ** The project state: blocks *)

Lemma findIndex_spec {A : Type} (p : A -> bool) (l : list A) :
  (ProjectState.findIndex p l = (-1)%Z /\ forall a, In a l -> p a = false) \/
  (exists l1 a l2,
     l = (l1 ++ a :: l2)%list /\ p a = true /\
     (forall a', In a' l1 -> p a' = false) /\
     ProjectState.findIndex p l = ProjectState.len l1).
Proof.
  induction l as [|a l IH]; simpl.
  - left. split; [reflexivity|]. intros a [].
  - destruct (p a) eqn:Pa.
    + right. exists [], a, l. repeat split; trivial. intros a' [].
    + destruct IH as [[E Hall]|(l1 & a0 & l2 & -> & Pa0 & Hall & E)].
      * left. rewrite E. simpl. split; [reflexivity|].
        intros a' [<-|H]; auto.
      * right. exists (a :: l1), a0, l2. rewrite E.
        pose proof (len_nonneg l1).
        destruct (Z.ltb_spec (ProjectState.len l1) 0); [lia|].
        repeat split; trivial.
        -- intros a' [<-|H']; auto.
        -- unfold ProjectState.len. simpl length. lia.
Qed.

Lemma splice1_at {A : Type} (l1 l2 : list A) (a : A) :
  ProjectState.splice1 (l1 ++ a :: l2) (ProjectState.len l1) = (l1 ++ l2)%list.
Proof.
  unfold ProjectState.splice1, ProjectState.len. rewrite Nat2Z.id.
  rewrite firstn_app, firstn_all, Nat.sub_diag. simpl firstn.
  rewrite app_nil_r.
  replace (S (length l1)) with (length l1 + 1)%nat by lia.
  rewrite skipn_app, skipn_all2 by lia.
  replace (length l1 + 1 - length l1)%nat with 1%nat by lia.
  reflexivity.
Qed.

(** X15: [removeICFBlock] removes the first block with the identifier and
    nothing else.  Either no block has the identifier, the call reports
    failure and the state is unchanged; or the call reports success and the
    block list is the old one without the first block that has the
    identifier, the others kept in their order. *)
Theorem remove_first_with_id {Other : Type} (s : ProjectState.t Other)
    (id now : string) :
  (ProjectState.removeICFBlock s id now = (s, false) /\
   forall b, In b (ProjectState.getICFBlocks s) -> ICFBlock.id b <> id) \/
  (exists l1 b l2,
     ProjectState.getICFBlocks s = (l1 ++ b :: l2)%list /\
     ICFBlock.id b = id /\
     (forall a, In a l1 -> ICFBlock.id a <> id) /\
     snd (ProjectState.removeICFBlock s id now) = true /\
     ProjectState.getICFBlocks (fst (ProjectState.removeICFBlock s id now))
       = (l1 ++ l2)%list).
Proof.
  unfold ProjectState.removeICFBlock, ProjectState.getICFBlocks.
  destruct (findIndex_spec (fun b => String.eqb (ICFBlock.id b) id)
              (ProjectState.icfBlocks (ProjectState.project s)))
    as [[E Hall]|(l1 & b & l2 & El & Pb & Hall & E)].
  - left. rewrite E. simpl. split; [reflexivity|].
    intros b Hb Eb. specialize (Hall b Hb). simpl in Hall.
    rewrite Eb, String.eqb_refl in Hall. discriminate.
  - right. exists l1, b, l2. rewrite E.
    pose proof (len_nonneg l1).
    destruct (Z.gtb_spec (ProjectState.len l1) (-1)); [|lia].
    proj_state. rewrite El at 2. rewrite splice1_at.
    repeat split; trivial.
    + now apply String.eqb_eq.
    + intros a Ha Ea. specialize (Hall a Ha). simpl in Hall.
      rewrite Ea, String.eqb_refl in Hall. discriminate.
Qed.

Lemma remove_first_with_id_witness :
  exists l1 b l2,
    [originBlock "A"; originBlock "B"] = (l1 ++ b :: l2)%list /\
    ICFBlock.id b = "B" /\
    (forall a, In a l1 -> ICFBlock.id a <> "B") /\
    (l1 ++ l2)%list = [originBlock "A"].
Proof.
  destruct (remove_first_with_id
              (ProjectState.mk
                 (ProjectState.mkProject "t" [originBlock "A"; originBlock "B"] tt)
                 [] 0 "standard" core8 0 None) "B" "now")
    as [[E _]|(l1 & b & l2 & El & Eb & Hall & _ & Er)].
  - discriminate E.
  - exists l1, b, l2. repeat split; trivial.
    rewrite <- Er. reflexivity.
Defined.

(** ** The project state: rotation *)

Lemma jsRem_comp (a a' b : Q) :
  a == a' -> ProjectState.jsRem a b == ProjectState.jsRem a' b.
Proof.
  intro E. unfold ProjectState.jsRem.
  assert (Eq : a / b == a' / b) by (rewrite E; reflexivity).
  rewrite (Qleb_comp 0 0 (Qeq_refl 0) _ _ Eq).
  rewrite (Qfloor_comp _ _ Eq), (Qceiling_comp _ _ Eq), E. reflexivity.
Qed.

Lemma next_rotation (r : Q) :
  (r == 0 -> ProjectState.jsRem (r + 90) 360 == 90) /\
  (r == 90 -> ProjectState.jsRem (r + 90) 360 == 180) /\
  (r == 180 -> ProjectState.jsRem (r + 90) 360 == 270) /\
  (r == 270 -> ProjectState.jsRem (r + 90) 360 == 0).
Proof.
  repeat split; intro E;
    (rewrite (jsRem_comp (r + 90) _ 360) by (rewrite E; reflexivity));
    reflexivity.
Qed.

Lemma next_rotation_valid (r : Q) :
  validRotation r -> validRotation (ProjectState.jsRem (r + 90) 360).
Proof.
  destruct (next_rotation r) as (H0 & H90 & H180 & H270).
  unfold validRotation. intros [E|[E|[E|E]]]; auto.
Qed.

(** X16: [rotateSelection] steps through the four rotations.  From a
    current rotation among 0, 90, 180, 270 it gives the next of them, 270
    being followed by 0, so the rotation never leaves the four and four
    calls bring it back. *)
Theorem rotateSelection_cycles {Other : Type} (s : ProjectState.t Other)
    (a1 b1 a2 b2 a3 b3 a4 b4 : string)
    (H : validRotation (ProjectState.currentRotation s)) :
  let r1 := ProjectState.currentRotation (ProjectState.rotateSelection s a1 b1) in
  let r4 :=
    ProjectState.currentRotation
      (ProjectState.rotateSelection
         (ProjectState.rotateSelection
            (ProjectState.rotateSelection
               (ProjectState.rotateSelection s a1 b1) a2 b2) a3 b3) a4 b4) in
  validRotation r1 /\
  (ProjectState.currentRotation s == 270 -> r1 == 0) /\
  (~ ProjectState.currentRotation s == 270 ->
   r1 == ProjectState.currentRotation s + 90) /\
  r4 == ProjectState.currentRotation s.
Proof.
  assert (R : forall (s0 : ProjectState.t Other) a b,
             ProjectState.currentRotation (ProjectState.rotateSelection s0 a b)
             = ProjectState.jsRem (ProjectState.currentRotation s0 + 90) 360).
  { intros s0 a b. unfold ProjectState.rotateSelection. proj_state.
    destruct (ProjectState.truthyId _); [|reflexivity].
    unfold ProjectState.updateICFBlock. proj_state.
    destruct (ProjectState.assignFirst _ _ _); reflexivity. }
  intros r1 r4. subst r1 r4. rewrite !R.
  set (r := ProjectState.currentRotation s) in *.
  destruct (next_rotation r) as (H0 & H90 & H180 & H270).
  split; [now apply next_rotation_valid|].
  split; [exact H270|]. split.
  - intro N. destruct H as [E|[E|[E|E]]]; try contradiction;
      [rewrite (H0 E)|rewrite (H90 E)|rewrite (H180 E)]; rewrite E; reflexivity.
  - pose proof (next_rotation r) as N1.
    pose proof (next_rotation (ProjectState.jsRem (r + 90) 360)) as N2.
    pose proof (next_rotation
                  (ProjectState.jsRem (ProjectState.jsRem (r + 90) 360 + 90) 360))
      as N3.
    pose proof (next_rotation
                  (ProjectState.jsRem
                     (ProjectState.jsRem (ProjectState.jsRem (r + 90) 360 + 90) 360
                      + 90) 360)) as N4.
    destruct N1 as (A0 & A90 & A180 & A270), N2 as (B0 & B90 & B180 & B270),
             N3 as (C0 & C90 & C180 & C270), N4 as (D0 & D90 & D180 & D270).
    destruct H as [E|[E|[E|E]]].
    + apply Qeq_trans with 0; [apply D270, C180, B90, A0, E|apply Qeq_sym, E].
    + apply Qeq_trans with 90; [apply D0, C270, B180, A90, E|apply Qeq_sym, E].
    + apply Qeq_trans with 180; [apply D90, C0, B270, A180, E|apply Qeq_sym, E].
    + apply Qeq_trans with 270; [apply D180, C90, B0, A270, E|apply Qeq_sym, E].
Qed.

Lemma rotateSelection_cycles_witness :
  validRotation
    (ProjectState.currentRotation
       (ProjectState.rotateSelection (ProjectState.create "t0" tt) "a" "b")) /\
  ProjectState.currentRotation
    (ProjectState.rotateSelection
       (ProjectState.rotateSelection
          (ProjectState.rotateSelection
             (ProjectState.rotateSelection (ProjectState.create "t0" tt) "a" "b")
             "a" "b") "a" "b") "a" "b")
  == ProjectState.currentRotation (ProjectState.create "t0" tt).
Proof.
  destruct (rotateSelection_cycles (ProjectState.create "t0" tt)
              "a" "b" "a" "b" "a" "b" "a" "b") as (H1 & _ & _ & H4).
  - left. reflexivity.
  - split; [exact H1|exact H4].
Defined.


Lemma assignFirst_spec (id : string) (updates : ProjectState.ICFBlockUpdates)
    (blocks : list ICFBlock.t) :
  (ProjectState.assignFirst id updates blocks = None /\
   forall b, In b blocks -> ICFBlock.id b <> id) \/
  (exists l1 b l2,
     blocks = (l1 ++ b :: l2)%list /\ ICFBlock.id b = id /\
     (forall a, In a l1 -> ICFBlock.id a <> id) /\
     ProjectState.assignFirst id updates blocks
       = Some (l1 ++ ProjectState.assign b updates :: l2)%list).
Proof.
  induction blocks as [|a blocks IH]; simpl.
  - left. split; [reflexivity|]. intros b [].
  - destruct (String.eqb_spec (ICFBlock.id a) id) as [E|N].
    + right. exists [], a, blocks. repeat split; trivial. intros a' [].
    + destruct IH as [[-> Hall]|(l1 & b & l2 & -> & Eb & Hall & ->)].
      * left. split; [reflexivity|]. intros b [<-|Hb]; auto.
      * right. exists (a :: l1), b, l2. repeat split; trivial.
        intros a' [<-|Ha']; auto.
Qed.

(** X17: [rotateSelection] turns the selected block along.  When the
    selected identifier is not empty and a block has it, the first such
    block gets the new current rotation and every other block is left as it
    was; when nothing is selected, the block list is unchanged. *)
Theorem rotateSelection_turns_selected {Other : Type} (s : ProjectState.t Other)
    (nowUpdate now : string) :
  let s' := ProjectState.rotateSelection s nowUpdate now in
  (ProjectState.truthyId (ProjectState.selectedElementId s) = None ->
   ProjectState.getICFBlocks s' = ProjectState.getICFBlocks s) /\
  (forall id l1 b l2,
     ProjectState.truthyId (ProjectState.selectedElementId s) = Some id ->
     ProjectState.getICFBlocks s = (l1 ++ b :: l2)%list ->
     ICFBlock.id b = id ->
     (forall a, In a l1 -> ICFBlock.id a <> id) ->
     ProjectState.getICFBlocks s' =
     (l1 ++ withRotation b (ProjectState.currentRotation s') :: l2)%list).
Proof.
  intro s'. subst s'. unfold ProjectState.rotateSelection. proj_state. split.
  - intros ->. reflexivity.
  - intros id l1 b l2 -> El Eb Hall.
    unfold ProjectState.updateICFBlock. proj_state.
    destruct (assignFirst_spec id
                (ProjectState.mkUpdates None None None None
                   (Some (ProjectState.jsRem (ProjectState.currentRotation s + 90) 360)))
                (ProjectState.icfBlocks (ProjectState.project s)))
      as [[_ Hno]|(l1' & b' & l2' & El' & Eb' & Hall' & ->)].
    + exfalso. apply (Hno b); trivial.
      unfold ProjectState.getICFBlocks in El. rewrite El.
      apply in_or_app. right. now left.
    + proj_state. unfold ProjectState.getICFBlocks in El. rewrite El in El'.
      assert (L : l1 = l1' /\ b = b' /\ l2 = l2').
      { clear - El' Eb Eb' Hall Hall'. subst id.
        revert l1' El' Hall'.
        induction l1 as [|a l1 IH]; intros [|a' l1'] El' Hall'; simpl in El'.
        - injection El' as <- <-. auto.
        - injection El' as -> _. exfalso. apply (Hall' a'); simpl; auto.
        - injection El' as -> _. exfalso. apply (Hall b'); simpl; auto.
        - injection El' as <- El'.
          destruct (IH (fun x Hx => Hall x (or_intror Hx)) l1' El'
                       (fun x Hx => Hall' x (or_intror Hx))) as (-> & -> & ->).
          auto. }
      destruct L as (<- & <- & <-).
      destruct b. reflexivity.
Qed.

Lemma rotateSelection_turns_selected_witness :
  ProjectState.getICFBlocks
    (ProjectState.rotateSelection
       (ProjectState.mk
          (ProjectState.mkProject "t" [originBlock "A"; originBlock "B"] tt)
          [ProjectState.mkProject "t" [originBlock "A"; originBlock "B"] tt]
          0 "standard" core8 0 (Some "B")) "u" "v") =
  ([originBlock "A"] ++
   withRotation (originBlock "B")
     (ProjectState.currentRotation
        (ProjectState.rotateSelection
           (ProjectState.mk
              (ProjectState.mkProject "t" [originBlock "A"; originBlock "B"] tt)
              [ProjectState.mkProject "t" [originBlock "A"; originBlock "B"] tt]
              0 "standard" core8 0 (Some "B")) "u" "v")) :: [])%list.
Proof.
  apply (proj2 (rotateSelection_turns_selected
                  (ProjectState.mk
                     (ProjectState.mkProject "t" [originBlock "A"; originBlock "B"] tt)
                     [ProjectState.mkProject "t" [originBlock "A"; originBlock "B"] tt]
                     0 "standard" core8 0 (Some "B")) "u" "v")
           "B" [originBlock "A"] (originBlock "B") []).
  - reflexivity.
  - reflexivity.
  - reflexivity.
  - intros a [<-|[]]. discriminate.
Defined.

(** ** The project state: what the snapper is given *)

Section Regular.

Context {Other : Type}.

Implicit Types (s : ProjectState.t Other).

Lemma Forall_firstn {A : Type} (P : A -> Prop) (n : nat) (l : list A) :
  Forall P l -> Forall P (firstn n l).
Proof.
  intro H. rewrite <- (firstn_skipn n l) in H. now apply Forall_app in H.
Qed.

Lemma Forall_skipn {A : Type} (P : A -> Prop) (n : nat) (l : list A) :
  Forall P l -> Forall P (skipn n l).
Proof.
  intro H. rewrite <- (firstn_skipn n l) in H. now apply Forall_app in H.
Qed.

Lemma Forall_tl {A : Type} (P : A -> Prop) (l : list A) :
  Forall P l -> Forall P (tl l).
Proof.
  destruct 1; simpl; auto.
Qed.

Lemma saveToHistory_regular s :
  Forall regularProject (ProjectState.history s) ->
  regularProject (ProjectState.project s) ->
  Forall regularProject (ProjectState.history (ProjectState.saveToHistory s)).
Proof.
  intros Hh Hp. unfold ProjectState.saveToHistory. proj_state.
  set (h1 := if (_ <? _)%Z then _ else _).
  assert (H1 : Forall regularProject h1).
  { subst h1. destruct (_ <? _)%Z; trivial.
    unfold ProjectState.slice0. destruct (_ <? _)%Z; now apply Forall_firstn. }
  assert (H2 : Forall regularProject (h1 ++ [ProjectState.project s])).
  { apply Forall_app. split; auto. }
  destruct (_ >? _)%Z; trivial. now apply Forall_tl.
Qed.

Lemma edit_regular s blocks now :
  regularState s -> Forall regularBlock blocks ->
  regularState (ProjectState.notifyChange
                  (ProjectState.saveToHistory (ProjectState.setBlocks s blocks)) now).
Proof.
  intros (Hty & Hr & Hb & Hh) Hblocks.
  unfold regularState. proj_state.
  split; [exact Hty|]. split; [exact Hr|]. split; [exact Hblocks|].
  apply (saveToHistory_regular (ProjectState.setBlocks s blocks)); assumption.
Qed.

Lemma restored_regular s i p now :
  regularState s ->
  ProjectState.item (ProjectState.history s) i = Some p ->
  regularState
    (ProjectState.notifyChange
       (ProjectState.mk p (ProjectState.history s) i
          (ProjectState.currentBlockType s) (ProjectState.currentCoreThickness s)
          (ProjectState.currentRotation s) (ProjectState.selectedElementId s))
       now).
Proof.
  intros (Hty & Hr & Hb & Hh) Hp. unfold regularState. proj_state.
  repeat split; trivial.
  apply item_In in Hp. rewrite Forall_forall in Hh. now apply Hh.
Qed.

Lemma assign_regular (b : ICFBlock.t) (updates : ProjectState.ICFBlockUpdates) :
  regularBlock b ->
  match ProjectState.newType updates with
  | Some type => In type catalogTypes
  | None => True
  end ->
  match ProjectState.newRotation updates with
  | Some r => validRotation r
  | None => True
  end ->
  regularBlock (ProjectState.assign b updates).
Proof.
  intros [Hty Hr] Ut Ur. unfold regularBlock, ProjectState.assign. simpl.
  destruct (ProjectState.newType updates), (ProjectState.newRotation updates);
    simpl; auto.
Qed.

Lemma update_regular s id updates now :
  regularState s ->
  match ProjectState.newType updates with
  | Some type => In type catalogTypes
  | None => True
  end ->
  match ProjectState.newRotation updates with
  | Some r => validRotation r
  | None => True
  end ->
  regularState (fst (ProjectState.updateICFBlock s id updates now)).
Proof.
  intros R Ut Ur. unfold ProjectState.updateICFBlock.
  destruct (assignFirst_spec id updates
              (ProjectState.icfBlocks (ProjectState.project s)))
    as [[-> _]|(l1 & b & l2 & El & _ & _ & ->)]; [exact R|].
  cbn [fst]. apply edit_regular; trivial.
  destruct R as (_ & _ & Hb & _). unfold ProjectState.getICFBlocks in Hb.
  rewrite El in Hb. apply Forall_app in Hb. destruct Hb as [H1 H2].
  inversion H2; subst. apply Forall_app. split; trivial.
  constructor; trivial. now apply assign_regular.
Qed.

(** Replacing the project by a regular one, saving and stamping. *)
Lemma save_regular s p now :
  regularState s -> regularProject p ->
  regularState (ProjectState.notifyChange
                  (ProjectState.saveToHistory (ProjectState.setProject s p)) now).
Proof.
  intros (Hty & Hr & Hb & Hh) Hp.
  unfold regularState. proj_state.
  split; [exact Hty|]. split; [exact Hr|]. split; [exact Hp|].
  apply (saveToHistory_regular (ProjectState.setProject s p)); assumption.
Qed.

Lemma deleteElement_regular s id removed now :
  regularState s ->
  regularState (fst (ProjectState.deleteElement s id removed now)).
Proof.
  intro R. unfold ProjectState.deleteElement.
  destruct (_ >? _)%Z; cbn [fst].
  - apply edit_regular; trivial.
    destruct R as (_ & _ & Hb & _). unfold ProjectState.splice1.
    apply Forall_app. split; [now apply Forall_firstn|now apply Forall_skipn].
  - destruct (removed _); cbn [fst]; trivial.
    apply save_regular; trivial. now destruct R as (_ & _ & Hb & _).
Qed.

(** In a regular state the snapper returns. *)
Lemma regular_snap_returns s (raw : THREE.Vector3) (gridSize : Q) :
  regularState s ->
  exists r,
    snapBlockPosition raw (ProjectState.currentBlockType s)
      (ProjectState.currentCoreThickness s) (ProjectState.currentRotation s)
      (ProjectState.getICFBlocks s) gridSize = Returns r.
Proof.
  intros (Hty & _ & Hb & _). apply snapBlockPosition_returns; trivial.
  eapply Forall_impl; [|exact Hb]. intros b [H _]. exact H.
Qed.

Lemma perform_regular s c :
  regularState s -> historyRange s -> regularCall c ->
  exists s', perform s c = Some s' /\ regularState s'.
Proof.
  intros R I C.
  assert (Add : forall position newId now,
             regularState (fst (ProjectState.addICFBlock s position newId now))).
  { intros. unfold ProjectState.addICFBlock. cbn [fst].
    apply edit_regular; trivial.
    destruct R as (Hty & Hr & Hb & _). apply Forall_app. split; trivial.
    constructor; [|constructor]. split; assumption. }
  destruct c; simpl in *.
  - eauto.
  - unfold onClickPlace.
    destruct (regular_snap_returns s intersection 8 R) as [r ->]. simpl.
    destruct icfCategory; eauto.
  - eexists. split; [reflexivity|].
    unfold ProjectState.removeICFBlock.
    destruct (_ >? _)%Z; cbn [fst]; trivial.
    apply edit_regular; trivial.
    destruct R as (_ & _ & Hb & _). unfold ProjectState.splice1.
    apply Forall_app. split; [now apply Forall_firstn|now apply Forall_skipn].
  - eexists. split; [reflexivity|]. destruct C. now apply update_regular.
  - eexists. split; [reflexivity|].
    unfold ProjectState.rotateSelection.
    pose proof (next_rotation_valid _ (proj1 (proj2 R))) as V.
    set (r := ProjectState.jsRem _ _) in *.
    set (s1 := ProjectState.mk _ _ _ _ _ r _).
    assert (R1 : regularState s1).
    { destruct R as (Hty & Hr & Hb & Hh). unfold regularState. subst s1.
      proj_state. auto. }
    assert (R2 : regularState
                   match ProjectState.truthyId (ProjectState.selectedElementId s1) with
                   | Some id =>
                     fst (ProjectState.updateICFBlock s1 id
                            (ProjectState.mkUpdates None None None None (Some r))
                            nowUpdate)
                   | None => s1
                   end).
    { destruct (ProjectState.truthyId _); trivial.
      apply update_regular; simpl; trivial. }
    destruct R2 as (Hty & Hr & Hb & Hh). unfold regularState. proj_state. auto.
  - destruct (undo_redo_return_range s now I) as [(s1 & ok & E & _) _].
    rewrite E. simpl.
    eexists. split; [reflexivity|].
    unfold ProjectState.undo in E. destruct (_ >? _)%Z.
    + destruct (ProjectState.item _ _) as [p|] eqn:Ep; [|discriminate].
      injection E as <- <-. now apply restored_regular.
    + injection E as <- <-. exact R.
  - destruct (undo_redo_return_range s now I) as [_ (s1 & ok & E & _)].
    rewrite E. simpl.
    eexists. split; [reflexivity|].
    unfold ProjectState.redo in E. destruct (_ <? _)%Z.
    + destruct (ProjectState.item _ _) as [p|] eqn:Ep; [|discriminate].
      injection E as <- <-. now apply restored_regular.
    + injection E as <- <-. exact R.
  - eexists. split; [reflexivity|].
    destruct R as (Hty & Hr & _ & _).
    unfold regularState, ProjectState.newProject. simpl.
    repeat split; trivial. repeat constructor.
  - eexists. split; [reflexivity|]. destruct R as (_ & Hr & Hb & Hh).
    unfold regularState. proj_state. auto.
  - eexists. split; [reflexivity|]. exact R.
  - eexists. split; [reflexivity|]. exact R.
Qed.

Lemma handle_regular s e :
  regularState s -> historyRange s -> regularEvent e ->
  exists s', handle s e = Some s' /\ regularState s'.
Proof.
  intros R I C. destruct e; simpl in *.
  - now apply perform_regular.
  - destruct parsed as [p|]; simpl; eexists; (split; [reflexivity|]); trivial.
    now apply save_regular.
  - destruct saved as [[p|]|]; simpl; eexists; (split; [reflexivity|]); trivial.
    now apply save_regular.
  - eexists. split; [reflexivity|]. unfold ProjectState.addOther.
    apply save_regular; trivial. now destruct R as (_ & _ & Hb & _).
  - eexists. split; [reflexivity|]. now apply deleteElement_regular.
  - destruct (ProjectState.truthyId _) as [id|]; eexists; (split; [reflexivity|]);
      trivial.
    pose proof (deleteElement_regular s id removed now R) as R1.
    destruct (fst _) as [p1 h1 i1 ty1 c1 r1 sel1]. exact R1.
  - eexists. split; [reflexivity|]. exact R.
Qed.

End Regular.

(** X18: the project stays within what the snapper handles, as long as the
    documents it takes in do.  Starting from a new project state, after any
    sequence of events of the user interface and calls of the public
    methods (placing, adding, removing, updating and deleting elements,
    rotating, undo and redo, a new project, the tool settings, the cost
    multiplier, loading from storage and importing a document, whether it
    parses or not) in which the block type is set to catalog categories
    only, no update puts a block outside the catalog or the four rotations,
    and every document loaded or imported is a project whose blocks have
    catalog categories and the four rotations only: no error has escaped, every
    block of the project and of its history has a catalog category and one
    of the four rotations, so has the current selection, and
    [snapBlockPosition] on the current blocks returns for every raw
    position. *)
Theorem regular_states {Other : Type} (now : string) (rest : Other)
    (events : list (Event Other))
    (H : Forall regularEvent events) :
  exists s,
    handleAll (ProjectState.create now rest) events = Some s /\
    regularState s /\
    forall raw, exists r,
      snapBlockPosition raw (ProjectState.currentBlockType s)
        (ProjectState.currentCoreThickness s) (ProjectState.currentRotation s)
        (ProjectState.getICFBlocks s) 8 = Returns r.
Proof.
  assert (G : forall s0, regularState s0 -> historyRange s0 ->
                exists s, handleAll s0 events = Some s /\ regularState s).
  { induction H as [|e events He _ IH]; intros s0 R0 I0; simpl.
    - eauto.
    - destruct (handle_regular s0 e R0 I0 He) as (s1 & E & R1).
      rewrite E. apply IH; trivial. eapply handle_range; eauto. }
  destruct (G (ProjectState.create now rest)) as (s & E & R).
  - unfold regularState, ProjectState.create. simpl.
    split; [auto|]. split; [left; reflexivity|]. repeat constructor.
  - apply historyInv_range, create_inv.
  - exists s. split; [exact E|]. split; [exact R|].
    intro raw. now apply regular_snap_returns.
Qed.

Lemma regular_states_witness :
  exists s,
    handleAll (ProjectState.create "t0" tt)
      [Load (Some (Some (ProjectState.mkProject "saved"
                           [ICFBlock.mk "k" "corner45" core4
                              (THREE.mkVector3 3 0 (-5)) 180] tt))) "t1";
       Import None "t2";
       Method (SetBlockType "corner90");
       Method (CallRotate "a" "b");
       Method (CallPlace true (THREE.mkVector3 3 0 3) "c" "t3");
       Settings (fun rest => rest);
       Delete "k" (fun _ => None) "t4"] = Some s /\
    regularState s /\
    forall raw, exists r,
      snapBlockPosition raw (ProjectState.currentBlockType s)
        (ProjectState.currentCoreThickness s) (ProjectState.currentRotation s)
        (ProjectState.getICFBlocks s) 8 = Returns r.
Proof.
  apply (regular_states "t0" tt
           [Load (Some (Some (ProjectState.mkProject "saved"
                                [ICFBlock.mk "k" "corner45" core4
                                   (THREE.mkVector3 3 0 (-5)) 180] tt))) "t1";
            Import None "t2";
            Method (SetBlockType "corner90");
            Method (CallRotate "a" "b");
            Method (CallPlace true (THREE.mkVector3 3 0 3) "c" "t3");
            Settings (fun rest => rest);
            Delete "k" (fun _ => None) "t4"]).
  constructor.
  { simpl. constructor; [|constructor]. split; [simpl; auto 10|].
    right. right. left. reflexivity. }
  constructor; [exact I|].
  constructor; [simpl; auto|].
  constructor; [exact I|].
  constructor; [exact I|].
  constructor; [exact I|].
  constructor; [exact I|constructor].
Defined.

(** The condition on the documents is needed: [importJSON] takes a document
    as the project without a look at its blocks, and after the import of
    one that holds a block of a category outside the catalog the next click
    that places a block ends in the [TypeError] of [getBlockFaces]. *)
Example imported_unknown_category_breaks_placing :
  ProjectState.importJSON (ProjectState.create "t0" tt) (Some pillarProject) "t1"
    <> None /\
  handleAll (ProjectState.create "t0" tt)
    [Import (Some pillarProject) "t1";
     Method (CallPlace true (THREE.mkVector3 3 0 3) "c" "t2")] = None.
Proof.
  split; [discriminate|reflexivity].
Qed.

(** X19: a click places one block where the snapper says.  In a regular
    state the place branch of [onClick] returns; with the ICF category
    current it appends to the block list one block with the new
    identifier, the current category, thickness and rotation, at the
    position [snapBlockPosition] returns for the click with grid size 8,
    and keeps the blocks there were; in a project without blocks that
    position is the raw position rounded to the grid.  With another
    category current it leaves the state as it is. *)
Theorem click_places_block {Other : Type} (s : ProjectState.t Other)
    (intersection : THREE.Vector3) (newId now : string)
    (R : regularState s) :
  exists r s',
    snapBlockPosition intersection (ProjectState.currentBlockType s)
      (ProjectState.currentCoreThickness s) (ProjectState.currentRotation s)
      (ProjectState.getICFBlocks s) 8 = Returns r /\
    onClickPlace s true intersection newId now = Returns s' /\
    ProjectState.getICFBlocks s' =
      (ProjectState.getICFBlocks s ++
       [ICFBlock.mk newId (ProjectState.currentBlockType s)
          (ProjectState.currentCoreThickness s) (SnapResult.position r)
          (ProjectState.currentRotation s)])%list /\
    (ProjectState.getICFBlocks s = [] ->
     SnapResult.position r = snapToGrid intersection 8) /\
    onClickPlace s false intersection newId now = Returns s.
Proof.
  destruct (regular_snap_returns s intersection 8 R) as [r Hr].
  exists r. unfold onClickPlace. rewrite Hr. cbn [bind].
  eexists. split; [reflexivity|]. split; [reflexivity|].
  split; [|split; [|reflexivity]].
  - unfold ProjectState.addICFBlock. proj_state.
    destruct (SnapResult.position r). reflexivity.
  - intro E. rewrite E in Hr. unfold snapBlockPosition in Hr.
    destruct (getBlockFaceOffsets _ _ _); simpl in Hr; [|discriminate].
    injection Hr as <-. reflexivity.
Qed.

Lemma click_places_block_witness :
  exists r s',
    snapBlockPosition (THREE.mkVector3 3 0 3) "standard" core8 0 [] 8 = Returns r /\
    onClickPlace (ProjectState.create "t0" tt) true (THREE.mkVector3 3 0 3) "a" "t1"
      = Returns s' /\
    ProjectState.getICFBlocks s' =
      ([] ++ [ICFBlock.mk "a" "standard" core8 (SnapResult.position r) 0])%list /\
    (@nil ICFBlock.t = [] ->
     SnapResult.position r = snapToGrid (THREE.mkVector3 3 0 3) 8) /\
    onClickPlace (ProjectState.create "t0" tt) false (THREE.mkVector3 3 0 3) "a" "t1"
      = Returns (ProjectState.create "t0" tt).
Proof.
  apply (click_places_block (ProjectState.create "t0" tt)
           (THREE.mkVector3 3 0 3) "a" "t1").
  unfold regularState. simpl.
  split; [auto|]. split; [left; reflexivity|]. repeat constructor.
Defined.

(** X20: [updateICFBlock] assigns to the first block with the identifier
    and to no other.  Either no block has the identifier, the call reports
    failure and the state is unchanged; or it reports success, the first
    block with the identifier has taken the properties the update carries
    and kept its others, and every other block is as it was. *)
Theorem update_first_with_id {Other : Type} (s : ProjectState.t Other)
    (id : string) (updates : ProjectState.ICFBlockUpdates) (now : string) :
  (ProjectState.updateICFBlock s id updates now = (s, false) /\
   forall b, In b (ProjectState.getICFBlocks s) -> ICFBlock.id b <> id) \/
  (exists l1 b l2,
     ProjectState.getICFBlocks s = (l1 ++ b :: l2)%list /\
     ICFBlock.id b = id /\
     (forall a, In a l1 -> ICFBlock.id a <> id) /\
     snd (ProjectState.updateICFBlock s id updates now) = true /\
     ProjectState.getICFBlocks (fst (ProjectState.updateICFBlock s id updates now))
       = (l1 ++ ProjectState.assign b updates :: l2)%list /\
     ICFBlock.rotation (ProjectState.assign b updates)
       = match ProjectState.newRotation updates with
         | Some r => r
         | None => ICFBlock.rotation b
         end /\
     ICFBlock.position (ProjectState.assign b updates)
       = match ProjectState.newPosition updates with
         | Some q => q
         | None => ICFBlock.position b
         end).
Proof.
  unfold ProjectState.updateICFBlock, ProjectState.getICFBlocks.
  destruct (assignFirst_spec id updates
              (ProjectState.icfBlocks (ProjectState.project s)))
    as [[-> Hno]|(l1 & b & l2 & El & Eb & Hall & ->)].
  - left. split; [reflexivity|exact Hno].
  - right. exists l1, b, l2. proj_state. repeat split; trivial.
Qed.

Lemma update_first_with_id_witness :
  exists l1 b l2,
    [originBlock "A"; originBlock "B"] = (l1 ++ b :: l2)%list /\
    ICFBlock.id b = "B" /\
    (l1 ++ ProjectState.assign b
             (ProjectState.mkUpdates None None None None (Some 90)) :: l2)%list
    = [originBlock "A"; withRotation (originBlock "B") 90].
Proof.
  destruct (update_first_with_id
              (ProjectState.mk
                 (ProjectState.mkProject "t" [originBlock "A"; originBlock "B"] tt)
                 [] 0 "standard" core8 0 None) "B"
              (ProjectState.mkUpdates None None None None (Some 90)) "now")
    as [[E _]|(l1 & b & l2 & El & Eb & _ & _ & Er & _)].
  - discriminate E.
  - exists l1, b, l2. repeat split; trivial.
    rewrite <- Er. reflexivity.
Defined.

(** X21: a new project cannot be undone.  After [newProject] the project
    has no blocks, the history holds the one snapshot of the new project,
    both [undo] and [redo] report failure and change nothing, the selection
    is cleared, and the current category, thickness and rotation are the
    ones from before. *)
Theorem newProject_resets {Other : Type} (s : ProjectState.t Other)
    (stamp now t : string) (rest : Other) :
  let s' := ProjectState.newProject s stamp now rest in
  ProjectState.getICFBlocks s' = [] /\
  ProjectState.history s' = [ProjectState.createEmptyProject stamp rest] /\
  ProjectState.undo s' t = Some (s', false) /\
  ProjectState.redo s' t = Some (s', false) /\
  ProjectState.selectedElementId s' = None /\
  ProjectState.currentBlockType s' = ProjectState.currentBlockType s /\
  ProjectState.currentCoreThickness s' = ProjectState.currentCoreThickness s /\
  ProjectState.currentRotation s' = ProjectState.currentRotation s.
Proof.
  intro s'. subst s'. repeat split.
Qed.
